(** * Training and validating a feed-forward classifier

    A shallow embedding of the two notebooks of [intro-to-pytorch]:
    "Training Neural Networks" (an [nn.Sequential] model trained with
    [optim.SGD]) and "Inference and Validation" (the [Classifier] module,
    with and without dropout, trained with [optim.Adam] and validated after
    every epoch).

    Floating-point tensors are modelled over the real numbers, so every
    statement below is about exact real arithmetic.  The framework
    primitives the notebooks call ([view], [nn.Linear], [F.relu],
    [F.log_softmax], [nn.NLLLoss], [nn.Dropout], [topk], [optim.SGD],
    [optim.Adam]) are modelled after their documented behaviour; reverse-mode
    differentiation is taken as a parameter, and so is the index that
    [topk] returns when several elements of a row hold the largest value. *)

From Stdlib Require Import Reals List Arith Bool Lia Lra Permutation.
From Stdlib Require Strings.Byte.
Import ListNotations.

Local Open Scope R_scope.

(** ** Exceptions *)

Inductive error : Type :=
| IndexError          (* indexing the shape of a 0-dim tensor *)
| ViewError           (* view: size cannot be inferred or does not fit *)
| SizeMismatch        (* a linear layer got rows of the wrong width *)
| TargetError         (* NLLLoss: label out of range or batch sizes differ *)
| NoGradFn            (* backward on a loss recorded without a graph *)
| ZeroDivisionError.  (* Python division by len(loader) = 0 *)

Inductive result (A : Type) : Type :=
| Ok (a : A)
| Err (e : error).

Arguments Ok {A} a.
Arguments Err {A} e.

Definition bind {A B : Type} (r : result A) (k : A -> result B) : result B :=
  match r with
  | Ok a => k a
  | Err e => Err e
  end.

Notation "x <- c ;; k" := (bind c (fun x => k))
  (at level 61, c at next level, right associativity).

(** ** Tensors *)

(** A contiguous tensor: its shape and its elements in row-major order. *)
Record Tensor : Type := mkTensor {
  shape : list nat;
  data : list R
}.

Definition numel (s : list nat) : nat := fold_right Nat.mul 1%nat s.

Definition Tensor_wf (t : Tensor) : Prop := length (data t) = numel (shape t).

(** A two-dimensional activation, as a list of rows. *)
Definition Matrix : Type := list (list R).

Definition has_shape (m : Matrix) (rows cols : nat) : Prop :=
  length m = rows /\ Forall (fun r => length r = cols) m.

(** [chunks c b l]: the first [b] consecutive blocks of [c] elements. *)
Fixpoint chunks (c b : nat) (l : list R) : Matrix :=
  match b with
  | O => []
  | S b' => firstn c l :: chunks c b' (skipn c l)
  end.

(** [x.view(x.shape[0], -1)]: the batch dimension is kept and the remaining
    size is inferred as [numel / batch].  Indexing the shape of a 0-dim
    tensor raises; a batch of size 0 leaves the inferred size ambiguous. *)
Definition inferred_size (x : Tensor) : result nat :=
  match shape x with
  | [] => Err IndexError
  | b :: _ =>
      let n := length (data x) in
      if (b =? 0)%nat then Err ViewError
      else if (n mod b =? 0)%nat then Ok (n / b)%nat
      else Err ViewError
  end.

Definition view_batch (x : Tensor) : result Matrix :=
  c <- inferred_size x ;;
  Ok (chunks c (hd 0%nat (shape x)) (data x)).

(** ** Elementwise and row operations *)

Definition sum_list (l : list R) : R := fold_right Rplus 0 l.

Definition dot (u v : list R) : R :=
  sum_list (map (fun p => fst p * snd p) (combine u v)).

(** [F.relu]: max(0, x) on every element. *)
Definition relu (m : Matrix) : Matrix := map (map (Rmax 0)) m.

Definition row_max (r : list R) : R :=
  match r with
  | [] => 0
  | x :: t => fold_left Rmax t x
  end.

(** [F.log_softmax(_, dim=1)] on one row: the row maximum is subtracted
    before exponentiating, then the logarithm of the sum. *)
Definition log_softmax_row (r : list R) : list R :=
  let M := row_max r in
  let S := sum_list (map (fun x => exp (x - M)) r) in
  map (fun x => x - M - ln S) r.

Definition log_softmax (m : Matrix) : Matrix := map log_softmax_row m.

(** [torch.exp] of a matrix. *)
Definition mexp (m : Matrix) : Matrix := map (map exp) m.

(** ** Parameters and linear layers *)

(** A [torch.nn.Parameter]: the values and the gradient buffer [.grad],
    which is [None] until the first backward pass. *)
Record Param : Type := mkParam {
  pshape : list nat;
  pdata : list R;
  grad : option (list R)
}.

Definition Param_wf (p : Param) : Prop :=
  length (pdata p) = numel (pshape p) /\
  match grad p with
  | None => True
  | Some g => length g = length (pdata p)
  end.

(** [nn.Linear(in_features, out_features)]: a weight of shape
    (out_features, in_features) and a bias of shape (out_features). *)
Record Linear : Type := mkLinear {
  in_features : nat;
  out_features : nat;
  weight : Param;
  bias : Param
}.

Definition Linear_wf (l : Linear) : Prop :=
  pshape (weight l) = [out_features l; in_features l] /\
  pshape (bias l) = [out_features l] /\
  Param_wf (weight l) /\ Param_wf (bias l).

Definition weight_rows (l : Linear) : Matrix :=
  chunks (in_features l) (out_features l) (pdata (weight l)).

(** One row through the affine map: y_j = <W_j, x> + b_j. *)
Definition Linear_row (l : Linear) (x : list R) : list R :=
  map (fun wb => dot (fst wb) x + snd wb)
      (combine (weight_rows l) (pdata (bias l))).

(** [F.linear]: every row must have [in_features] entries. *)
Definition Linear_forward (l : Linear) (m : Matrix) : result Matrix :=
  if forallb (fun r => (length r =? in_features l)%nat) m
  then Ok (map (Linear_row l) m)
  else Err SizeMismatch.

(** ** Loss *)

(** [nn.NLLLoss()] with the default mean reduction: minus the
    log-probability of the true class, averaged over the batch.  Labels are
    class indices, so natural numbers; a label that is not below the number
    of classes, or a number of labels other than the number of rows, raises.
    (The reals have no NaN: on an empty batch the mean is the total division
    of 0 by 0, which no statement below relies on.) *)
Fixpoint nll_terms (logps : Matrix) (labels : list nat) : result (list R) :=
  match logps, labels with
  | [], [] => Ok []
  | r :: logps', y :: labels' =>
      if (y <? length r)%nat then
        rest <- nll_terms logps' labels' ;;
        Ok (- nth y r 0 :: rest)
      else Err TargetError
  | _, _ => Err TargetError
  end.

Definition NLLLoss (logps : Matrix) (labels : list nat) : result R :=
  terms <- nll_terms logps labels ;;
  Ok (sum_list terms / INR (length terms)).

(** ** Random numbers and dropout *)

(** The default random generator, as the tape of the Bernoulli outcomes
    it will produce ([true]: the element is kept) and a read position. *)
Record Generator : Type := mkGenerator {
  tape : nat -> bool;
  pos : nat
}.

Definition bernoulli_mask (g : Generator) (n : nat) : list bool * Generator :=
  (map (tape g) (seq (pos g) n), mkGenerator (tape g) (pos g + n)).

(** One element through dropout: zeroed when dropped, scaled by 1/(1-p)
    when kept. *)
Definition dropout_elem (p : R) (keep : bool) (x : R) : R :=
  if keep then x * (1 / (1 - p)) else 0.

Definition dropout_row (p : R) (mask : list bool) (r : list R) : list R :=
  map (fun kx => dropout_elem p (fst kx) (snd kx)) (combine mask r).

Fixpoint Dropout_train (p : R) (g : Generator) (m : Matrix)
  : Matrix * Generator :=
  match m with
  | [] => ([], g)
  | r :: m' =>
      let (mask, g1) := bernoulli_mask g (length r) in
      let (out, g2) := Dropout_train p g1 m' in
      (dropout_row p mask r :: out, g2)
  end.

(** [nn.Dropout(p)]: active in training mode only. *)
Definition Dropout_forward (p : R) (training : bool) (g : Generator)
  (m : Matrix) : Matrix * Generator :=
  if training then Dropout_train p g m else (m, g).

(** The distribution of a dropout mask of [n] elements: every element is
    dropped with probability [p], independently of the others.  A finite
    distribution is a list of weighted outcomes. *)
Definition dist (A : Type) : Type := list (R * A).

Fixpoint mask_dist (p : R) (n : nat) : dist (list bool) :=
  match n with
  | O => [(1, [])]
  | S n' =>
      flat_map (fun wm =>
        [((1 - p) * fst wm, true :: snd wm); (p * fst wm, false :: snd wm)])
        (mask_dist p n')
  end.

Definition mass {A : Type} (d : dist A) : R := sum_list (map fst d).

Definition expect {A : Type} (d : dist A) (f : A -> R) : R :=
  sum_list (map (fun wa => fst wa * f (snd wa)) d).

(** The generator that has handed out the outcomes [drawn] and hands out
    the outcomes [mask] next (and keeps every element after them). *)
Definition replay (drawn mask : list bool) : Generator :=
  mkGenerator (fun k => nth k (drawn ++ mask) true) (length drawn).

(** ** The Classifier of "Inference and Validation" *)

Record Classifier : Type := mkClassifier {
  fc1 : Linear;
  fc2 : Linear;
  fc3 : Linear;
  fc4 : Linear;
  training : bool
}.

(** [self.dropout = nn.Dropout(p = 0.2)] *)
Definition dropout_p : R := 2 / 10.

Definition Linear_dims (l : Linear) (i o : nat) : Prop :=
  in_features l = i /\ out_features l = o /\ Linear_wf l.

(** What [__init__] builds, whatever the values of the parameters. *)
Definition Classifier_wf (m : Classifier) : Prop :=
  Linear_dims (fc1 m) 784 256 /\ Linear_dims (fc2 m) 256 128 /\
  Linear_dims (fc3 m) 128 64 /\ Linear_dims (fc4 m) 64 10.

(** [Classifier.forward], first version (no dropout). *)
Definition Classifier_forward (m : Classifier) (x : Tensor) : result Matrix :=
  x <- view_batch x ;;
  x <- Linear_forward (fc1 m) x ;;
  let x := relu x in
  x <- Linear_forward (fc2 m) x ;;
  let x := relu x in
  x <- Linear_forward (fc3 m) x ;;
  let x := relu x in
  x <- Linear_forward (fc4 m) x ;;
  Ok (log_softmax x).

(** [Classifier.forward], second version: dropout after every hidden
    activation. *)
Definition Classifier_forward_dropout (m : Classifier) (g : Generator)
  (x : Tensor) : result (Matrix * Generator) :=
  x <- view_batch x ;;
  x <- Linear_forward (fc1 m) x ;;
  let (x, g) := Dropout_forward dropout_p (training m) g (relu x) in
  x <- Linear_forward (fc2 m) x ;;
  let (x, g) := Dropout_forward dropout_p (training m) g (relu x) in
  x <- Linear_forward (fc3 m) x ;;
  let (x, g) := Dropout_forward dropout_p (training m) g (relu x) in
  x <- Linear_forward (fc4 m) x ;;
  Ok (log_softmax x, g).

(** The raw class scores: the affine layers with ReLU in between and
    nothing after the last one.  This is the predictor as the
    specification words it, to be compared with [Classifier_forward]. *)
Definition Classifier_logits (m : Classifier) (x : Tensor) : result Matrix :=
  x <- view_batch x ;;
  x <- Linear_forward (fc1 m) x ;;
  x <- Linear_forward (fc2 m) (relu x) ;;
  x <- Linear_forward (fc3 m) (relu x) ;;
  Linear_forward (fc4 m) (relu x).

(** ** The nn.Sequential model of "Training Neural Networks" *)

Inductive Layer : Type :=
| nn_Linear (l : Linear)
| nn_ReLU
| nn_LogSoftmax.   (* dim = 1 *)

Definition Sequential : Type := list Layer.

Definition Layer_forward (l : Layer) (x : Matrix) : result Matrix :=
  match l with
  | nn_Linear l => Linear_forward l x
  | nn_ReLU => Ok (relu x)
  | nn_LogSoftmax => Ok (log_softmax x)
  end.

Fixpoint Sequential_forward (s : Sequential) (x : Matrix) : result Matrix :=
  match s with
  | [] => Ok x
  | l :: s' => y <- Layer_forward l x ;; Sequential_forward s' y
  end.

(** [nn.Sequential(nn.Linear(784, 128), nn.ReLU(), nn.Linear(128, 64),
    nn.ReLU(), nn.Linear(64, 10), nn.LogSoftmax(dim = 1))] *)
Definition mnist_model (l0 l2 l4 : Linear) : Sequential :=
  [nn_Linear l0; nn_ReLU; nn_Linear l2; nn_ReLU; nn_Linear l4; nn_LogSoftmax].

Definition mnist_model_wf (s : Sequential) : Prop :=
  exists l0 l2 l4, s = mnist_model l0 l2 l4 /\
    Linear_dims l0 784 128 /\ Linear_dims l2 128 64 /\ Linear_dims l4 64 10.

(** The loop flattens the images itself before it calls the model:
    [images = images.view(images.shape[0], -1); output = model(images)]. *)
Definition flatten_and_call (s : Sequential) (x : Tensor) : result Matrix :=
  images <- view_batch x ;; Sequential_forward s images.

(** The same network without its last module: the raw scores. *)
Definition mnist_logits (l0 l2 l4 : Linear) : Sequential :=
  [nn_Linear l0; nn_ReLU; nn_Linear l2; nn_ReLU; nn_Linear l4].

(** ** model.parameters() *)

Definition Linear_parameters (l : Linear) : list Param := [weight l; bias l].

(** Writing a list of parameters back into a layer; the rest is returned. *)
Definition Linear_load (l : Linear) (ps : list Param) : Linear * list Param :=
  match ps with
  | w :: b :: rest => (mkLinear (in_features l) (out_features l) w b, rest)
  | _ => (l, [])
  end.

Definition Classifier_parameters (m : Classifier) : list Param :=
  Linear_parameters (fc1 m) ++ Linear_parameters (fc2 m) ++
  Linear_parameters (fc3 m) ++ Linear_parameters (fc4 m).

Definition Classifier_load (m : Classifier) (ps : list Param) : Classifier :=
  let (l1, ps) := Linear_load (fc1 m) ps in
  let (l2, ps) := Linear_load (fc2 m) ps in
  let (l3, ps) := Linear_load (fc3 m) ps in
  let (l4, ps) := Linear_load (fc4 m) ps in
  mkClassifier l1 l2 l3 l4 (training m).

Definition Layer_parameters (l : Layer) : list Param :=
  match l with
  | nn_Linear l => Linear_parameters l
  | _ => []
  end.

Definition Sequential_parameters (s : Sequential) : list Param :=
  flat_map Layer_parameters s.

Fixpoint Sequential_load (s : Sequential) (ps : list Param) : Sequential :=
  match s with
  | [] => []
  | nn_Linear l :: s' =>
      let (l', ps') := Linear_load l ps in nn_Linear l' :: Sequential_load s'
        ps'
  | l :: s' => l :: Sequential_load s' ps
  end.

(** What the optimizer and the autograd engine need from a module: its
    parameter tensors, in registration order, which they update in place. *)
Class Module (M : Type) : Type := {
  parameters : M -> list Param;
  load_parameters : M -> list Param -> M
}.

#[export] Instance Classifier_Module : Module Classifier :=
  {| parameters := Classifier_parameters; load_parameters := Classifier_load |}.

#[export] Instance Sequential_Module : Module Sequential :=
  {| parameters := Sequential_parameters; load_parameters := Sequential_load |}.

Definition update_parameters {M : Type} `{Module M}
  (f : list Param -> list Param) (m : M) : M :=
  load_parameters m (f (parameters m)).

(** ** Gradient buffers *)

Definition map2 {A B C : Type} (f : A -> B -> C) (u : list A) (v : list B)
  : list C :=
  map (fun ab => f (fst ab) (snd ab)) (combine u v).

Definition zeros_like (l : list R) : list R := map (fun _ => 0) l.

(** [optimizer.zero_grad()]: every existing buffer is filled with zeros;
    a buffer that is still [None] is left alone. *)
Definition zero_grad_param (p : Param) : Param :=
  match grad p with
  | None => p
  | Some g => mkParam (pshape p) (pdata p) (Some (zeros_like g))
  end.

(** What a backward pass does to one parameter: the new gradient is stored
    when the buffer is [None] and added to the buffer otherwise. *)
Definition accumulate_grad (p : Param) (d : list R) : Param :=
  mkParam (pshape p) (pdata p)
    (Some (match grad p with
           | None => d
           | Some g => map2 Rplus g d
           end)).

Fixpoint accumulate_grads (ps : list Param) (ds : list (list R))
  : list Param :=
  match ps, ds with
  | p :: ps', d :: ds' => accumulate_grad p d :: accumulate_grads ps' ds'
  | _, _ => ps
  end.

(** ** Optimizers *)

Class Optimizer (O : Type) : Type := {
  optimizer_update : O -> list Param -> list Param * O
}.

(** [optim.SGD(params, lr)], with the defaults momentum = 0, dampening = 0,
    weight_decay = 0: [p.data.add_(-lr, p.grad)]. *)
Record SGD : Type := mkSGD { sgd_lr : R }.

Definition SGD_update (lr : R) (p : Param) : Param :=
  match grad p with
  | None => p
  | Some d_p =>
      mkParam (pshape p) (map2 (fun w d => w + (- lr) * d) (pdata p) d_p)
        (grad p)
  end.

Definition SGD_step (o : SGD) (ps : list Param) : list Param * SGD :=
  (map (SGD_update (sgd_lr o)) ps, o).

#[export] Instance SGD_Optimizer : Optimizer SGD :=
  {| optimizer_update := SGD_step |}.

(** [optim.Adam(params, lr)], with the defaults betas = (0.9, 0.999),
    eps = 1e-8, weight_decay = 0, amsgrad = False.  The state of a parameter
    is created at its first update. *)
Record AdamState : Type := mkAdamState {
  step_count : nat;
  exp_avg : list R;
  exp_avg_sq : list R
}.

Record Adam : Type := mkAdam {
  adam_lr : R;
  beta1 : R;
  beta2 : R;
  eps : R;
  state : list (option AdamState)
}.

Definition optim_Adam (params : list Param) (lr : R) : Adam :=
  mkAdam lr (9 / 10) (999 / 1000) (1 / 100000000)
    (map (fun _ => None) params).

Definition Adam_update (o : Adam) (p : Param) (st : option AdamState)
  : Param * option AdamState :=
  match grad p with
  | None => (p, st)
  | Some g =>
      let s0 := match st with
                | Some s => s
                | None => mkAdamState 0 (zeros_like (pdata p))
                            (zeros_like (pdata p))
                end in
      let t := S (step_count s0) in
      let m := map2 (fun a d => a * beta1 o + (1 - beta1 o) * d)
                 (exp_avg s0) g in
      let v := map2 (fun a d => a * beta2 o + (1 - beta2 o) * d * d)
                 (exp_avg_sq s0) g in
      let denom := map (fun a => sqrt a + eps o) v in
      let bias_correction1 := 1 - beta1 o ^ t in
      let bias_correction2 := 1 - beta2 o ^ t in
      let step_size := adam_lr o * sqrt bias_correction2 / bias_correction1 in
      (mkParam (pshape p)
         (map2 (fun w q => w + (- step_size) * q) (pdata p)
            (map2 Rdiv m denom))
         (grad p),
       Some (mkAdamState t m v))
  end.

Fixpoint Adam_updates (o : Adam) (ps : list Param)
  (sts : list (option AdamState)) : list Param * list (option AdamState) :=
  match ps, sts with
  | p :: ps', st :: sts' =>
      let (p', st') := Adam_update o p st in
      let (ps'', sts'') := Adam_updates o ps' sts' in
      (p' :: ps'', st' :: sts'')
  | _, _ => (ps, sts)
  end.

Definition Adam_step (o : Adam) (ps : list Param) : list Param * Adam :=
  let (ps', sts') := Adam_updates o ps (state o) in
  (ps', mkAdam (adam_lr o) (beta1 o) (beta2 o) (eps o) sts').

#[export] Instance Adam_Optimizer : Optimizer Adam :=
  {| optimizer_update := Adam_step |}.

(** ** Accuracy *)

(** [k] is an arg-max of the row [r]. *)
Definition is_argmax (r : list R) (k : nat) : Prop :=
  (k < length r)%nat /\
  forall j, (j < length r)%nat -> nth j r 0 <= nth k r 0.

(** [topk(1, dim = 1)] on one row returns the largest value and an index
    that holds it.  When several elements hold the largest value the
    documentation does not say which of their indices is returned, and it
    is not the first one in general; the choice is therefore left open:
    every statement below holds for any [topk_index] that returns the
    index of a largest element. *)
Class Topk : Type := {
  topk_index : list R -> nat;
  topk_index_max : forall r, r <> [] -> is_argmax r (topk_index r)
}.

Definition top1_row {Tk : Topk} (r : list R) : R * nat :=
  (nth (topk_index r) r 0, topk_index r).

Definition topk1 {Tk : Topk} (m : Matrix) : result (list R * list nat) :=
  if forallb (fun r => (1 <=? length r)%nat) m
  then Ok (map (fun r => fst (top1_row r)) m,
           map (fun r => snd (top1_row r)) m)
  else Err IndexError.

(** One admissible choice, used to run the loops on concrete data: the
    first index that holds the largest value. *)
Fixpoint argmax_from (bi : nat) (b : R) (i : nat) (r : list R) : R * nat :=
  match r with
  | [] => (b, bi)
  | x :: r' =>
      if Rlt_dec b x then argmax_from i x (S i) r'
      else argmax_from bi b (S i) r'
  end.

Definition first_argmax (r : list R) : nat :=
  match r with
  | [] => 0%nat
  | x :: r' => snd (argmax_from 0 x 1 r')
  end.

(** [top_class == labels.view( *top_class.shape )] *)
Definition equals (top_class labels : list nat) : result (list bool) :=
  if (length labels =? length top_class)%nat
  then Ok (map2 Nat.eqb top_class labels)
  else Err ViewError.

(** [torch.mean(_.type(torch.FloatTensor))] *)
Definition as_float (b : bool) : R := if b then 1 else 0.

Definition mean (l : list R) : R := sum_list l / INR (length l).

Definition batch_accuracy {Tk : Topk}
  (log_ps : Matrix) (labels : list nat) : result R :=
  let probabilities := mexp log_ps in
  tk <- topk1 probabilities ;;
  equality_tensor <- equals (snd tk) labels ;;
  Ok (mean (map as_float equality_tensor)).

(** ** Data loaders *)

Definition Batch : Type := (Tensor * list nat)%type.

(** A [DataLoader]: [len(loader)] and the batches of its k-th iteration
    (with [shuffle = True] every iteration yields the data in a new order). *)
Record DataLoader : Type := mkDataLoader {
  num_batches : nat;
  iterate : nat -> list Batch
}.

Definition DataLoader_wf (d : DataLoader) : Prop :=
  forall k, length (iterate d k) = num_batches d.

(** ** The state of a notebook run *)

(** What the run does, in order; the framework calls record themselves. *)
Inductive event : Type :=
| EvZeroGrad                      (* optimizer.zero_grad() *)
| EvForward (grad_mode : bool)    (* model(images) *)
| EvLoss                          (* criterion(output, labels) *)
| EvBackward                      (* loss.backward() *)
| EvStep                          (* optimizer.step() *)
| EvEvalMode                      (* model.eval() *)
| EvTrainMode                     (* model.train() *)
| EvAccuracy                      (* accuracy += ... *)
| EvPrint (epoch : nat).          (* print(...) at the end of an epoch *)

Inductive Line : Type :=
| TrainingLoss (training_loss : R)
| Summary (epoch epochs : nat) (training_loss test_loss test_accuracy : R).

Record World (M O : Type) : Type := mkWorld {
  model : M;
  optimizer : O;
  generator : Generator;
  grad_enabled : bool;
  running_loss : R;
  test_loss : R;
  accuracy : R;
  stdout : list Line;
  trace : list event
}.

Arguments mkWorld {M O}.
Arguments model {M O}.
Arguments optimizer {M O}.
Arguments generator {M O}.
Arguments grad_enabled {M O}.
Arguments running_loss {M O}.
Arguments test_loss {M O}.
Arguments accuracy {M O}.
Arguments stdout {M O}.
Arguments trace {M O}.

Definition set_model {M O} (m : M) (w : World M O) : World M O :=
  mkWorld m (optimizer w) (generator w) (grad_enabled w) (running_loss w)
    (test_loss w) (accuracy w) (stdout w) (trace w).

Definition set_optimizer {M O} (o : O) (w : World M O) : World M O :=
  mkWorld (model w) o (generator w) (grad_enabled w) (running_loss w)
    (test_loss w) (accuracy w) (stdout w) (trace w).

Definition set_generator {M O} (g : Generator) (w : World M O) : World M O :=
  mkWorld (model w) (optimizer w) g (grad_enabled w) (running_loss w)
    (test_loss w) (accuracy w) (stdout w) (trace w).

Definition set_grad_enabled {M O} (b : bool) (w : World M O) : World M O :=
  mkWorld (model w) (optimizer w) (generator w) b (running_loss w)
    (test_loss w) (accuracy w) (stdout w) (trace w).

Definition set_running_loss {M O} (x : R) (w : World M O) : World M O :=
  mkWorld (model w) (optimizer w) (generator w) (grad_enabled w) x
    (test_loss w) (accuracy w) (stdout w) (trace w).

Definition set_test_loss {M O} (x : R) (w : World M O) : World M O :=
  mkWorld (model w) (optimizer w) (generator w) (grad_enabled w)
    (running_loss w) x (accuracy w) (stdout w) (trace w).

Definition set_accuracy {M O} (x : R) (w : World M O) : World M O :=
  mkWorld (model w) (optimizer w) (generator w) (grad_enabled w)
    (running_loss w) (test_loss w) x (stdout w) (trace w).

Definition set_stdout {M O} (l : list Line) (w : World M O) : World M O :=
  mkWorld (model w) (optimizer w) (generator w) (grad_enabled w)
    (running_loss w) (test_loss w) (accuracy w) l (trace w).

Definition set_trace {M O} (t : list event) (w : World M O) : World M O :=
  mkWorld (model w) (optimizer w) (generator w) (grad_enabled w)
    (running_loss w) (test_loss w) (accuracy w) (stdout w) t.

(** A statement of the notebook: it changes the world or raises. *)
Definition Run (W A : Type) : Type := W -> result (A * W).

Definition ret {W A : Type} (a : A) : Run W A := fun w => Ok (a, w).

Definition then_ {W A B : Type} (c : Run W A) (k : A -> Run W B) : Run W B :=
  fun w =>
    match c w with
    | Ok (a, w') => k a w'
    | Err e => Err e
    end.

Notation "x <~ c ;; k" := (then_ c (fun x => k))
  (at level 61, c at next level, right associativity).
Notation "c >> k" := (then_ c (fun _ => k))
  (at level 61, right associativity).

Definition lift {W A : Type} (r : result A) : Run W A :=
  fun w => match r with Ok a => Ok (a, w) | Err e => Err e end.

Definition modify {W : Type} (f : W -> W) : Run W unit :=
  fun w => Ok (tt, f w).

Definition gets {W A : Type} (f : W -> A) : Run W A := fun w => Ok (f w, w).

(** [for x in l: body] (no [break] in these notebooks, so the [else]
    branch of a loop is simply what follows it). *)
Fixpoint for_each {W B : Type} (l : list B) (body : B -> Run W unit)
  : Run W unit :=
  match l with
  | [] => ret tt
  | x :: l' => body x >> for_each l' body
  end.

(** Python's [x / n] for a number [x] and [n = len(loader)]. *)
Definition py_div (x : R) (n : nat) : result R :=
  if (n =? 0)%nat then Err ZeroDivisionError else Ok (x / INR n).

(** What a forward pass records for the backward pass, when gradients are
    enabled: the model, the generator and the input it ran on. *)
Record Recorded (M X : Type) : Type := mkRecorded {
  at_model : M;
  at_generator : Generator;
  at_input : X
}.

Arguments mkRecorded {M X}.
Arguments at_model {M X}.
Arguments at_generator {M X}.
Arguments at_input {M X}.

Record Output (M X : Type) : Type := mkOutput {
  value : Matrix;
  recorded : option (Recorded M X)
}.

Arguments mkOutput {M X}.
Arguments value {M X}.
Arguments recorded {M X}.

Record Loss (M X : Type) : Type := mkLoss {
  item : R;
  grad_fn : option (Recorded M X * list nat)
}.

Arguments mkLoss {M X}.
Arguments item {M X}.
Arguments grad_fn {M X}.

Section Framework.

Context {M O X : Type} {Mod : Module M} {Opt : Optimizer O} {Tk : Topk}.

(** The forward function of the model and the gradients that reverse-mode
    differentiation computes for a recorded forward pass and its labels,
    one per parameter tensor. *)
Variable forward : M -> Generator -> X -> result (Matrix * Generator).
Variable autograd : Recorded M X -> list nat -> list (list R).

Definition emit (e : event) : Run (World M O) unit :=
  modify (fun w => set_trace (trace w ++ [e]) w).

Definition optimizer_zero_grad : Run (World M O) unit :=
  modify (fun w =>
    set_model (update_parameters (map zero_grad_param) (model w)) w) >>
  emit EvZeroGrad.

Definition call_model (x : X) : Run (World M O) (Output M X) :=
  fun w =>
    match forward (model w) (generator w) x with
    | Err e => Err e
    | Ok (out, g) =>
        let rec := if grad_enabled w
                   then Some (mkRecorded (model w) (generator w) x)
                   else None in
        Ok (mkOutput out rec,
            set_trace (trace w ++ [EvForward (grad_enabled w)])
              (set_generator g w))
    end.

Definition criterion (o : Output M X) (labels : list nat)
  : Run (World M O) (Loss M X) :=
  l <~ lift (NLLLoss (value o) labels) ;;
  emit EvLoss >>
  ret (mkLoss l (option_map (fun r => (r, labels)) (recorded o))).

Definition backward (l : Loss M X) : Run (World M O) unit :=
  match grad_fn l with
  | None => fun _ => Err NoGradFn
  | Some (r, labels) =>
      modify (fun w =>
        set_model
          (update_parameters
             (fun ps => accumulate_grads ps (autograd r labels)) (model w))
          w) >>
      emit EvBackward
  end.

Definition optimizer_step : Run (World M O) unit :=
  modify (fun w =>
    let (ps, o) := optimizer_update (optimizer w) (parameters (model w)) in
    set_optimizer o (set_model (load_parameters (model w) ps) w)) >>
  emit EvStep.

(** [with torch.no_grad(): body] *)
Definition no_grad {A : Type} (body : Run (World M O) A)
  : Run (World M O) A :=
  fun w =>
    match body (set_grad_enabled false w) with
    | Ok (a, w') => Ok (a, set_grad_enabled (grad_enabled w) w')
    | Err e => Err e
    end.

Definition print (e : nat) (l : Line) : Run (World M O) unit :=
  modify (fun w => set_stdout (stdout w ++ [l]) w) >> emit (EvPrint e).

(** The first three statements of the body of the training loop: what
    it does before it calls [backward]. *)
Definition before_backward (images : X) (labels : list nat)
  : Run (World M O) (Loss M X) :=
  optimizer_zero_grad >>
  output <~ call_model images ;;
  criterion output labels.

(** The body of the training loop over the batches. *)
Definition train_batch (images : X) (labels : list nat)
  : Run (World M O) unit :=
  loss <~ before_backward images labels ;;
  backward loss >>
  optimizer_step >>
  modify (fun w => set_running_loss (running_loss w + item loss) w).

(** The body of the validation loop over the batches. *)
Definition validate_batch (images : X) (labels : list nat)
  : Run (World M O) unit :=
  test_log_probabilities <~ call_model images ;;
  l <~ criterion test_log_probabilities labels ;;
  modify (fun w => set_test_loss (test_loss w + item l) w) >>
  a <~ lift (batch_accuracy (value test_log_probabilities) labels) ;;
  modify (fun w => set_accuracy (accuracy w + a) w) >>
  emit EvAccuracy.

Definition print_summary (e epochs : nat) (trainloader testloader : DataLoader)
  : Run (World M O) unit :=
  w <~ gets (fun w => w) ;;
  a <~ lift (py_div (running_loss w) (num_batches trainloader)) ;;
  b <~ lift (py_div (test_loss w) (num_batches testloader)) ;;
  c <~ lift (py_div (accuracy w) (num_batches testloader)) ;;
  print e (Summary (e + 1) epochs a b c).

End Framework.

(** ** The three training loops *)

(** "Training Neural Networks": SGD on the Sequential model, which gets the
    images flattened by the loop itself. *)
Definition mnist_forward (m : Sequential) (g : Generator) (x : Matrix)
  : result (Matrix * Generator) :=
  out <- Sequential_forward m x ;; Ok (out, g).

(** The body of the loop over the training batches. *)
Definition mnist_batch
  (autograd : Recorded Sequential Matrix -> list nat -> list (list R))
  (b : Batch) : Run (World Sequential SGD) unit :=
  images <~ lift (view_batch (fst b)) ;;
  train_batch mnist_forward autograd images (snd b).

(** One epoch: the body of [for e in range(epochs)]. *)
Definition train_mnist_epoch
  (autograd : Recorded Sequential Matrix -> list nat -> list (list R))
  (trainloader : DataLoader) (e : nat) : Run (World Sequential SGD) unit :=
  modify (set_running_loss 0) >>
  for_each (iterate trainloader e) (mnist_batch autograd) >>
  w <~ gets (fun w => w) ;;
  a <~ lift (py_div (running_loss w) (num_batches trainloader)) ;;
  print e (TrainingLoss a).

Definition train_mnist
  (autograd : Recorded Sequential Matrix -> list nat -> list (list R))
  (epochs : nat) (trainloader : DataLoader)
  : Run (World Sequential SGD) unit :=
  for_each (seq 0 epochs) (train_mnist_epoch autograd trainloader).

(** "Inference and Validation", first loop: Adam on the Classifier without
    dropout, validated under [no_grad] after the batches of every epoch. *)
Definition plain_forward (m : Classifier) (g : Generator) (x : Tensor)
  : result (Matrix * Generator) :=
  out <- Classifier_forward m x ;; Ok (out, g).

(** The [else:] block of an epoch: the validation pass and the report. *)
Definition evaluate {Tk : Topk}
  (e epochs : nat) (trainloader testloader : DataLoader)
  : Run (World Classifier Adam) unit :=
  modify (set_test_loss 0) >>
  modify (set_accuracy 0) >>
  no_grad (
    for_each (iterate testloader e) (fun b =>
      validate_batch plain_forward (fst b) (snd b)) >>
    print_summary e epochs trainloader testloader).

(** One epoch: the body of [for e in range(epochs)]. *)
Definition train_validate_epoch {Tk : Topk}
  (autograd : Recorded Classifier Tensor -> list nat -> list (list R))
  (epochs : nat) (trainloader testloader : DataLoader) (e : nat)
  : Run (World Classifier Adam) unit :=
  modify (set_running_loss 0) >>
  for_each (iterate trainloader e) (fun b =>
    train_batch plain_forward autograd (fst b) (snd b)) >>
  evaluate e epochs trainloader testloader.

Definition train_validate {Tk : Topk}
  (autograd : Recorded Classifier Tensor -> list nat -> list (list R))
  (epochs : nat) (trainloader testloader : DataLoader)
  : Run (World Classifier Adam) unit :=
  for_each (seq 0 epochs)
    (train_validate_epoch autograd epochs trainloader testloader).

(** [model.eval()] and [model.train()] *)
Definition set_training (b : bool) (m : Classifier) : Classifier :=
  mkClassifier (fc1 m) (fc2 m) (fc3 m) (fc4 m) b.

Definition model_eval {O : Type} : Run (World Classifier O) unit :=
  modify (fun w => set_model (set_training false (model w)) w) >>
  emit EvEvalMode.

Definition model_train {O : Type} : Run (World Classifier O) unit :=
  modify (fun w => set_model (set_training true (model w)) w) >>
  emit EvTrainMode.

(** "Inference and Validation", second loop: the Classifier with dropout,
    put in evaluation mode for the validation and back in training mode
    for the next epoch. *)
Definition evaluate_dropout {Tk : Topk} (e epochs : nat)
  (trainloader testloader : DataLoader) : Run (World Classifier Adam) unit :=
  modify (set_test_loss 0) >>
  modify (set_accuracy 0) >>
  no_grad (
    model_eval >>
    for_each (iterate testloader e) (fun b =>
      validate_batch Classifier_forward_dropout (fst b) (snd b)) >>
    print_summary e epochs trainloader testloader).

(** One epoch: the body of [for e in range(epochs)]. *)
Definition train_validate_dropout_epoch {Tk : Topk}
  (autograd : Recorded Classifier Tensor -> list nat -> list (list R))
  (epochs : nat) (trainloader testloader : DataLoader) (e : nat)
  : Run (World Classifier Adam) unit :=
  modify (set_running_loss 0) >>
  for_each (iterate trainloader e) (fun b =>
    train_batch Classifier_forward_dropout autograd (fst b) (snd b)) >>
  evaluate_dropout e epochs trainloader testloader >>
  model_train.

Definition train_validate_dropout {Tk : Topk}
  (autograd : Recorded Classifier Tensor -> list nat -> list (list R))
  (epochs : nat) (trainloader testloader : DataLoader)
  : Run (World Classifier Adam) unit :=
  for_each (seq 0 epochs)
    (train_validate_dropout_epoch autograd epochs trainloader testloader).

(** The world in which a training cell starts: a fresh model in training
    mode, a fresh optimizer, gradients enabled. *)
Definition start {M O : Type} (m : M) (o : O) (g : Generator) : World M O :=
  mkWorld m o g true 0 0 0 [] [].

(** ** The cells that run the loops *)

(** [optimizer = optim.SGD(model.parameters(), lr = 0.003); epochs = 5] *)
Definition run_mnist
  (autograd : Recorded Sequential Matrix -> list nat -> list (list R))
  (model0 : Sequential) (g : Generator) (trainloader : DataLoader)
  : result (unit * World Sequential SGD) :=
  train_mnist autograd 5 trainloader (start model0 (mkSGD (3 / 1000)) g).

(** [optimizer = optim.Adam(model.parameters(), lr = 0.003); epochs = 30] *)
Definition run_validate {Tk : Topk}
  (autograd : Recorded Classifier Tensor -> list nat -> list (list R))
  (model0 : Classifier) (g : Generator) (trainloader testloader : DataLoader)
  : result (unit * World Classifier Adam) :=
  train_validate autograd 30 trainloader testloader
    (start model0 (optim_Adam (parameters model0) (3 / 1000)) g).


(** ** What the statements below assume of the data and of autograd *)

(** A batch of images of 784 elements each, with one label below 10 per
    image. *)
Definition Batch_valid (b : Batch) : Prop :=
  inferred_size (fst b) = Ok 784%nat /\
  length (snd b) = hd 0%nat (shape (fst b)) /\
  Forall (fun y => (y < 10)%nat) (snd b).

Definition DataLoader_valid (d : DataLoader) : Prop :=
  DataLoader_wf d /\ num_batches d <> 0%nat /\
  forall k, Forall Batch_valid (iterate d k).

(** Reverse-mode differentiation returns one gradient per parameter
    tensor, of the size of that tensor. *)
Definition autograd_wf {M X : Type} {Mod : Module M}
  (autograd : Recorded M X -> list nat -> list (list R)) : Prop :=
  forall r labels,
    Forall2 (fun p d => length d = length (pdata p))
      (parameters (at_model r)) (autograd r labels).

(** [q] is a well-formed parameter of the shape of [p]. *)
Definition same_shape (p q : Param) : Prop :=
  pshape q = pshape p /\ Param_wf q.

Definition sizes (ps : list Param) : list nat :=
  map (fun p => length (pdata p)) ps.

(** The state Adam keeps matches the parameters it was built for. *)
Definition AdamState_wf (n : nat) (st : option AdamState) : Prop :=
  match st with
  | None => True
  | Some s => length (exp_avg s) = n /\ length (exp_avg_sq s) = n
  end.

Definition Adam_wf (o : Adam) (ns : list nat) : Prop :=
  Forall2 AdamState_wf ns (state o).

(** The invariant of a run: a well-formed model and an optimizer state
    that fits its parameters. *)
Definition World_ok {M O : Type} {Mod : Module M} (wfM : M -> Prop)
  (wfO : O -> list nat -> Prop) (w : World M O) : Prop :=
  wfM (model w) /\ wfO (optimizer w) (sizes (parameters (model w))).

Definition Classifier_world_ok (w : World Classifier Adam) : Prop :=
  World_ok Classifier_wf Adam_wf w /\ grad_enabled w = true.

Definition mnist_world_ok (w : World Sequential SGD) : Prop :=
  World_ok mnist_model_wf (fun _ _ => True) w /\ grad_enabled w = true.

(** The gradients that the backward pass of a training batch computes: the
    forward pass runs on the model as [zero_grad] left it. *)
Definition batch_gradient {M O X : Type} {Mod : Module M}
  (autograd : Recorded M X -> list nat -> list (list R))
  (w : World M O) (images : X) (labels : list nat) : list (list R) :=
  autograd
    (mkRecorded (update_parameters (map zero_grad_param) (model w))
       (generator w) images)
    labels.

(** The parameters with the given gradients in their buffers. *)
Definition with_grads (ps : list Param) (ds : list (list R)) : list Param :=
  map2 (fun p d => mkParam (pshape p) (pdata p) (Some d)) ps ds.

(** The plain gradient-descent rule on one parameter tensor. *)
Definition gradient_descent (alpha : R) (p : Param) (g : list R) : list R :=
  map2 (fun w d => w - alpha * d) (pdata p) g.



(** ** The order of the framework calls *)

Definition train_events : list event :=
  [EvZeroGrad; EvForward true; EvLoss; EvBackward; EvStep].

Definition eval_events : list event :=
  [EvForward false; EvLoss; EvAccuracy].

(** One epoch of the loops of "Inference and Validation"; [mode] tells
    whether the loop switches the model to evaluation mode and back. *)
Definition epoch_events (mode : bool) (trainloader testloader : DataLoader)
  (e : nat) : list event :=
  concat (repeat train_events (num_batches trainloader)) ++
  (if mode then [EvEvalMode] else []) ++
  concat (repeat eval_events (num_batches testloader)) ++
  [EvPrint e] ++
  (if mode then [EvTrainMode] else []).

(** One epoch of the loop of "Training Neural Networks". *)
Definition mnist_epoch_events (trainloader : DataLoader) (e : nat)
  : list event :=
  concat (repeat train_events (num_batches trainloader)) ++ [EvPrint e].

Definition schedule (epoch : nat -> list event) (epochs : nat) : list event :=
  flat_map epoch (seq 0 epochs).

(** A trace respects the gradient discipline when every backward pass
    finds the buffers as [zero_grad] left them: [clean] is set by
    [zero_grad] and cleared by a backward pass. *)
Fixpoint zeroed_before_backward (clean : bool) (t : list event) : bool :=
  match t with
  | [] => true
  | EvZeroGrad :: t' => zeroed_before_backward true t'
  | EvBackward :: t' => clean && zeroed_before_backward false t'
  | _ :: t' => zeroed_before_backward clean t'
  end.

(** A trace never updates the parameters without a backward pass on
    freshly zeroed buffers since the last update. *)
Fixpoint step_after_backward (ready : bool) (t : list event) : bool :=
  match t with
  | [] => true
  | EvBackward :: t' => step_after_backward true t'
  | EvStep :: t' => ready && step_after_backward false t'
  | EvZeroGrad :: t' => step_after_backward false t'
  | _ :: t' => step_after_backward ready t'
  end.

(** ** Accuracy, as the specification words it *)

(** The class the validation loop predicts for a row of log-probabilities. *)
Definition predicted_class {Tk : Topk} (log_p : list R) : nat :=
  snd (top1_row (map exp log_p)).

(** The number of rows whose predicted class is the true label. *)
Definition correct_rows {Tk : Topk}
  (log_ps : Matrix) (labels : list nat) : nat :=
  length (filter (fun rl => (predicted_class (fst rl) =? snd rl)%nat)
            (combine log_ps labels)).

(** The accuracy of one validation batch, as the specification words it:
    the fraction of the rows whose predicted class is the true label. *)
Definition batch_fraction_correct {Tk : Topk}
  (m : Classifier) (b : Batch) (a : R) : Prop :=
  exists log_ps,
    Classifier_forward m (fst b) = Ok log_ps /\
    a = INR (correct_rows log_ps (snd b)) / INR (length (snd b)) /\
    Forall (fun r => is_argmax (map exp r) (predicted_class r)) log_ps.

(** The loss of one validation batch. *)
Definition batch_loss (m : Classifier) (b : Batch) (l : R) : Prop :=
  exists log_ps,
    Classifier_forward m (fst b) = Ok log_ps /\ NLLLoss log_ps (snd b) = Ok l.

(** Two models hold the same parameter values (their gradient buffers and
    their mode may differ). *)
Definition same_values (m1 m2 : Classifier) : Prop :=
  map pdata (parameters m1) = map pdata (parameters m2).

(** ** The first index of the largest value *)

(** [first_argmax] is an admissible choice for [topk]. *)
Definition first_argmax_Topk : Topk.
Proof.
  refine {| topk_index := first_argmax |}.
  assert (G : forall (r pre : list R) (bi : nat) (b : R),
            (bi < length pre)%nat -> nth bi (pre ++ r) 0 = b ->
            (forall j, (j < length pre)%nat -> nth j (pre ++ r) 0 <= b) ->
            is_argmax (pre ++ r) (snd (argmax_from bi b (length pre) r))).
  { induction r as [|x r IH]; intros pre bi b Hbi Hb Hle; simpl.
    - rewrite app_nil_r in *. split; [exact Hbi|]. intros j Hj.
      rewrite Hb. apply Hle. exact Hj.
    - assert (Hx : nth (length pre) (pre ++ x :: r) 0 = x)
        by (rewrite app_nth2, Nat.sub_diag by lia; reflexivity).
      assert (E : pre ++ x :: r = (pre ++ [x]) ++ r)
        by (rewrite <- app_assoc; reflexivity).
      assert (L : length (pre ++ [x]) = S (length pre))
        by (rewrite length_app; simpl; lia).
      destruct (Rlt_dec b x) as [Hlt|Hge].
      + specialize (IH (pre ++ [x]) (length pre) x).
        rewrite L, <- E in IH. apply IH; [lia | exact Hx |].
        intros j Hj. destruct (Nat.eq_dec j (length pre)) as [->|Hne].
        * rewrite Hx. lra.
        * specialize (Hle j ltac:(lia)). lra.
      + specialize (IH (pre ++ [x]) bi b).
        rewrite L, <- E in IH. apply IH; [lia | exact Hb |].
        intros j Hj. destruct (Nat.eq_dec j (length pre)) as [->|Hne].
        * rewrite Hx. lra.
        * apply Hle. lia. }
  intros [|x r] Hr; [congruence|].
  apply (G r [x] 0%nat x); [simpl; lia | reflexivity |].
  intros j Hj. simpl in Hj. assert (j = 0%nat) as -> by lia. simpl. lra.
Defined.

(** ** A zero-initialised network and an all-zero image *)

Definition zero_initialized (m : Classifier) : Prop :=
  Forall (fun p => Forall (eq 0) (pdata p)) (parameters m).

Definition zero_param (s : list nat) : Param :=
  mkParam s (repeat 0 (numel s)) None.

Definition zero_linear (i o : nat) : Linear :=
  mkLinear i o (zero_param [o; i]) (zero_param [o]).

Definition zero_classifier : Classifier :=
  mkClassifier (zero_linear 784 256) (zero_linear 256 128)
    (zero_linear 128 64) (zero_linear 64 10) true.

Definition zero_mnist : Sequential :=
  mnist_model (zero_linear 784 128) (zero_linear 128 64) (zero_linear 64 10).

(** A stand-in for reverse-mode differentiation that returns the same
    gradient [c] for every element of every parameter tensor. *)
Definition constant_autograd {M X : Type} {Mod : Module M} (c : R)
  (r : Recorded M X) (labels : list nat) : list (list R) :=
  map (fun p => map (fun _ => c) (pdata p)) (parameters (at_model r)).

(** One image of 1 x 28 x 28 zeros. *)
Definition zero_image : Tensor := mkTensor [1; 1; 28; 28]%nat (repeat 0 784).

(** A loader that yields the zero image with the label 3, once per
    iteration. *)
Definition zero_loader : DataLoader :=
  mkDataLoader 1 (fun _ => [(zero_image, [3%nat])]).

(** A generator that keeps every element. *)
Definition keep_all : Generator := mkGenerator (fun _ => true) 0.

(** A generator that keeps the elements at even positions and drops the
    others. *)
Definition alternating : Generator := mkGenerator Nat.even 0.

(** A parameter tensor holding 0 whose gradient buffer holds 2. *)
Definition sample_param : Param := mkParam [1%nat] [0] (Some [2]).

(** ** The cross-entropy criterion *)

(** [nn.CrossEntropyLoss()]: "this criterion combines [nn.LogSoftmax()] and
    [nn.NLLLoss()] in one single class"; its input holds raw scores. *)
Definition CrossEntropyLoss (input : Matrix) (target : list nat) : result R :=
  NLLLoss (log_softmax input) target.

(** The first cell on losses of "Training Neural Networks": the model
    returns the logits and the criterion is the cross entropy. *)
Definition loss_of_logits (l0 l2 l4 : Linear) (b : Batch) : result R :=
  images <- view_batch (fst b) ;;
  logits <- Sequential_forward (mnist_logits l0 l2 l4) images ;;
  CrossEntropyLoss logits (snd b).

(** The second one: the model ends with [nn.LogSoftmax(dim = 1)] and the
    criterion is the negative log likelihood. *)
Definition loss_of_log_probabilities (l0 l2 l4 : Linear) (b : Batch)
  : result R :=
  images <- view_batch (fst b) ;;
  logits <- Sequential_forward (mnist_model l0 l2 l4) images ;;
  NLLLoss logits (snd b).

(** A row without ties for the first place: one element is strictly larger
    than all the others. *)
Definition unique_max (r : list R) : Prop :=
  exists k, (k < length r)%nat /\
    forall j, (j < length r)%nat -> j <> k -> nth j r 0 < nth k r 0.

(** The accuracy of a batch computed from any scores, without the
    exponential: [topk], the comparison with the labels and the mean. *)
Definition accuracy_of_scores {Tk : Topk} (scores : Matrix) (labels : list nat)
  : result R :=
  tk <- topk1 scores ;;
  equality_tensor <- equals (snd tk) labels ;;
  Ok (mean (map as_float equality_tensor)).

(** The number of rows of a validation batch that the model classifies
    correctly. *)
Definition correct_in_batch {Tk : Topk} (m : Classifier) (b : Batch) : nat :=
  match Classifier_forward m (fst b) with
  | Ok log_ps => correct_rows log_ps (snd b)
  | Err _ => 0%nat
  end.

(** ** Loading the data *)

(** A grey-level image as the data set keeps it: one byte per pixel, row
    after row. *)
Definition Image : Type := list Byte.byte.

(** [transforms.ToTensor()]: a tensor of shape (C, H, W) with values in
    [0, 1]; a grey-level image has one channel. *)
Definition ToTensor (pic : Image) : list (list R) :=
  [map (fun b => INR (Byte.to_nat b) / 255) pic].

(** [transforms.Normalize(mean, std)], in place:
    [for t, m, s in zip(tensor, mean, std): t.sub_(m).div_(s)].  The zip
    stops with the shortest of the three, so the three means given for a
    one-channel image normalise that channel and a channel without a mean
    would be left as it is. *)
Fixpoint Normalize (mean std : list R) (tensor : list (list R))
  : list (list R) :=
  match tensor, mean, std with
  | t :: tensor', m :: mean', s :: std' =>
      map (fun v => (v - m) / s) t :: Normalize mean' std' tensor'
  | _, _, _ => tensor
  end.

(** [transforms.Compose([transforms.ToTensor(),
    transforms.Normalize((0.5, 0.5, 0.5), (0.5, 0.5, 0.5))])] *)
Definition transform (pic : Image) : list (list R) :=
  Normalize [5 / 10; 5 / 10; 5 / 10] [5 / 10; 5 / 10; 5 / 10] (ToTensor pic).

(** [datasets.MNIST] and [datasets.FashionMNIST]: images with their class. *)
Definition MNIST : Type := list (Image * nat).

(** The files of these data sets hold 28 x 28 bytes per image and ten
    classes. *)
Definition MNIST_wf (dataset : MNIST) : Prop :=
  Forall (fun it => length (fst it) = 784%nat /\ (snd it < 10)%nat) dataset.

(** What [dataset[index]] returns for an example: the transformed image,
    of shape (1, 28, 28), and its class. *)
Definition dataset_item (example : Image * nat) : Tensor * nat :=
  (mkTensor [1; 28; 28]%nat (concat (transform (fst example))), snd example).

Definition getitem (dataset : MNIST) (index : nat) : result (Tensor * nat) :=
  match nth_error dataset index with
  | Some example => Ok (dataset_item example)
  | None => Err IndexError
  end.

(** [BatchSampler(sampler, batch_size, drop_last = False)]: the indices
    are collected in [batch], which is yielded whenever it is full, and at
    the end when it is not empty. *)
Fixpoint BatchSampler_from (batch_size : nat) (sampler batch : list nat)
  : list (list nat) :=
  match sampler with
  | [] => if (0 <? length batch)%nat then [batch] else []
  | idx :: sampler' =>
      let batch := batch ++ [idx] in
      if (length batch =? batch_size)%nat
      then batch :: BatchSampler_from batch_size sampler' []
      else BatchSampler_from batch_size sampler' batch
  end.

Definition BatchSampler (batch_size : nat) (sampler : list nat)
  : list (list nat) :=
  BatchSampler_from batch_size sampler [].

Fixpoint mapM {A B : Type} (f : A -> result B) (l : list A)
  : result (list B) :=
  match l with
  | [] => Ok []
  | a :: l' => b <- f a ;; bs <- mapM f l' ;; Ok (b :: bs)
  end.

Definition same_shapeb (s t : list nat) : bool :=
  if list_eq_dec Nat.eq_dec s t then true else false.

(** [default_collate]: the images are stacked along a new first dimension
    ([torch.stack] wants tensors of one shape) and the classes are put in
    one tensor. *)
Definition default_collate (batch : list (Tensor * nat)) : result Batch :=
  match batch with
  | [] => Err IndexError
  | (t0, _) :: _ =>
      if forallb (fun it => same_shapeb (shape (fst it)) (shape t0)) batch
      then Ok (mkTensor (length batch :: shape t0)
                 (concat (map (fun it => data (fst it)) batch)),
               map snd batch)
      else Err SizeMismatch
  end.

(** [len(loader)], for [DataLoader(dataset, batch_size, shuffle = True)] *)
Definition DataLoader_len (dataset : MNIST) (batch_size : nat) : nat :=
  ((length dataset + batch_size - 1) / batch_size)%nat.

(** One iteration over the loader, when the random sampler draws the
    order [indices]. *)
Definition DataLoader_iter (dataset : MNIST) (batch_size : nat)
  (indices : list nat) : result (list Batch) :=
  mapM (fun batch_indices =>
          batch <- mapM (getitem dataset) batch_indices ;;
          default_collate batch)
       (BatchSampler batch_size indices).

(** [loader] is [DataLoader(dataset, batch_size = 64, shuffle = True)],
    [randperm k] being the permutation of [range(len(dataset))] that the
    sampler draws for the k-th iteration. *)
Definition is_DataLoader (dataset : MNIST) (randperm : nat -> list nat)
  (loader : DataLoader) : Prop :=
  (forall k, Permutation (randperm k) (seq 0 (length dataset))) /\
  num_batches loader = DataLoader_len dataset 64 /\
  forall k, DataLoader_iter dataset 64 (randperm k) = Ok (iterate loader k).

(** The examples of a batch of images of 784 elements: the rows of the
    flattened images with their classes. *)
Definition examples_of (b : Batch) : list (list R * nat) :=
  combine (chunks 784 (length (snd b)) (data (fst b))) (snd b).

(** The loader over a data set when the sampler draws the given orders. *)
Definition DataLoader_of (dataset : MNIST) (randperm : nat -> list nat)
  : DataLoader :=
  mkDataLoader (DataLoader_len dataset 64)
    (fun k => match DataLoader_iter dataset 64 (randperm k) with
              | Ok batches => batches
              | Err _ => []
              end).

(** A data set of one black image of class 3. *)
Definition black_image : Image := repeat Byte.x00 784.

Definition one_example : MNIST := [(black_image, 3%nat)].

(** The batch the loader builds from the examples at the given indices. *)
Definition pixels_at (dataset : MNIST) (i : nat) : list R :=
  concat (transform (fst (nth i dataset ([], 0%nat)))).

Definition class_at (dataset : MNIST) (i : nat) : nat :=
  snd (nth i dataset ([], 0%nat)).

Definition fetch_batch (dataset : MNIST) (batch_indices : list nat) : Batch :=
  (mkTensor (length batch_indices :: [1; 28; 28]%nat)
     (concat (map (pixels_at dataset) batch_indices)),
   map (class_at dataset) batch_indices).

(** ** Autograd on [x ** 2] and [mean] *)

(** The functions of a backward graph: each one holds what it saved in the
    forward pass and the function it passes its result to;
    [AccumulateGrad] adds what it receives to the [.grad] of a leaf. *)
Inductive Node : Type :=
| AccumulateGrad
| PowBackward0 (self : list R) (exponent : nat) (next : Node)
| MeanBackward0 (self_numel : nat) (next : Node).

(** A tensor with its history. *)
Record Var : Type := mkVar {
  var_data : list R;
  var_requires_grad : bool;
  var_grad_fn : option Node
}.

(** [torch.randn(2, 2, requires_grad = True)], for the values drawn. *)
Definition leaf (values : list R) : Var := mkVar values true None.

(** Where a tensor sends its gradient: to its [grad_fn] when it is a
    result, to the accumulation in [.grad] when it is a leaf that requires
    grad, nowhere otherwise. *)
Definition gradient_edge (v : Var) : option Node :=
  match var_grad_fn v with
  | Some fn => Some fn
  | None => if var_requires_grad v then Some AccumulateGrad else None
  end.

(** [x ** exponent] *)
Definition Var_pow (x : Var) (exponent : nat) : Var :=
  mkVar (map (fun a => a ^ exponent) (var_data x))
    (var_requires_grad x)
    (option_map (PowBackward0 (var_data x) exponent) (gradient_edge x)).

(** [y.mean()] *)
Definition Var_mean (y : Var) : Var :=
  mkVar [mean (var_data y)]
    (var_requires_grad y)
    (option_map (MeanBackward0 (length (var_data y))) (gradient_edge y)).

(** What a backward function sends on: [grad * exponent *
    self ** (exponent - 1)] for a power, [grad / numel] in every position
    for a mean. *)
Fixpoint Node_apply (fn : Node) (grad : list R) : list R :=
  match fn with
  | AccumulateGrad => grad
  | PowBackward0 self exponent next =>
      Node_apply next
        (map2 (fun g a => g * (INR exponent * a ^ (exponent - 1))) grad self)
  | MeanBackward0 n next =>
      Node_apply next (repeat (hd 0 grad / INR n) n)
  end.

(** [z.backward()] for a scalar [z]: the gradient 1 goes through the graph
    and what reaches the leaf is stored in its [.grad], or added to it.
    A tensor without history raises. *)
Definition Var_backward (z : Var) (leaf_grad : option (list R))
  : result (option (list R)) :=
  match var_grad_fn z with
  | None => Err NoGradFn
  | Some fn =>
      let g := Node_apply fn [1] in
      Ok (Some (match leaf_grad with
                | None => g
                | Some old => map2 Rplus old g
                end))
  end.

(** The cells on autograd: [x = torch.randn(2, 2, requires_grad = True);
    y = x ** 2; z = y.mean(); print(x.grad); z.backward(); print(x.grad);
    print(x / 2)].  The three printed values are returned. *)
Definition gradient_cells (values : list R)
  : result (option (list R) * option (list R) * list R) :=
  let x := leaf values in
  let y := Var_pow x 2 in
  let z := Var_mean y in
  let before : option (list R) := None in
  after <- Var_backward z before ;;
  Ok (before, after, map (fun a => a / 2) values).

(** The value of [z] as a function of the i-th element of [x]. *)
Definition mean_square_at (values : list R) (i : nat) (t : R) : R :=
  hd 0 (var_data
          (Var_mean
             (Var_pow (leaf (firstn i values ++ t :: skipn (S i) values)) 2))).

(** ** The cells on one backward pass and on one training step *)

(** [logits = model(images); loss = criterion(logits, labels);
    loss.backward()], on the flattened images of a batch. *)
Definition backward_pass
  (autograd : Recorded Sequential Matrix -> list nat -> list (list R))
  (b : Batch) : Run (World Sequential SGD) unit :=
  images <~ lift (view_batch (fst b)) ;;
  logits <~ call_model mnist_forward images ;;
  loss <~ criterion logits (snd b) ;;
  backward autograd loss.

(** [x.resize_(sizes)], in place, on a contiguous tensor: the elements are
    kept in order; when there are too many the last ones are dropped, when
    there are too few the storage grows and the new memory is not
    initialised ([uninitialized] is what it happens to hold). *)
Definition resize_ (uninitialized : nat -> R) (x : Tensor) (sizes : list nat)
  : Tensor :=
  mkTensor sizes
    (firstn (numel sizes)
       (data x ++
        map uninitialized (seq 0 (numel sizes - length (data x))))).

(** The cell that takes one training step: [images.resize_(64, 784);
    optimizer.zero_grad(); output = model(images);
    loss = criterion(output, labels); loss.backward(); optimizer.step()]. *)
Definition one_step
  (autograd : Recorded Sequential Matrix -> list nat -> list (list R))
  (uninitialized : nat -> R) (b : Batch) : Run (World Sequential SGD) unit :=
  let images := resize_ uninitialized (fst b) [64; 784]%nat in
  optimizer_zero_grad >>
  output <~ call_model mnist_forward (chunks 784 64 (data images)) ;;
  loss <~ criterion output (snd b) ;;
  backward autograd loss >>
  optimizer_step.

(** ** Inference on one image *)

(** [images[0]]: the first image of a batch. *)
Definition select0 (images : Tensor) : result Tensor :=
  match shape images with
  | [] => Err IndexError
  | b :: rest =>
      if (b =? 0)%nat then Err IndexError
      else Ok (mkTensor rest (firstn (numel rest) (data images)))
  end.

(** [img.view(1, 784)] *)
Definition view_1_784 (img : Tensor) : result Tensor :=
  if (length (data img) =? 784)%nat
  then Ok (mkTensor [1; 784]%nat (data img))
  else Err ViewError.

(** The last cell of "Inference and Validation": [model.eval();
    img = images[0]; img = img.view(1, 784); with torch.no_grad():
    output = model.forward(img); ps = torch.exp(output)]. *)
Definition inference (images : Tensor) : Run (World Classifier Adam) Matrix :=
  model_eval >>
  img <~ lift (select0 images) ;;
  img <~ lift (view_1_784 img) ;;
  output <~ no_grad (call_model Classifier_forward_dropout img) ;;
  ret (mexp (value output)).

(** The last cell of "Training Neural Networks":
    [img = images[0].view(1, 784); with torch.no_grad(): logps = model(img);
    ps = torch.exp(logps)].  A tensor of shape (1, 784) has one row. *)
Definition mnist_inference (images : Tensor)
  : Run (World Sequential SGD) Matrix :=
  img <~ lift (select0 images) ;;
  img <~ lift (view_1_784 img) ;;
  logps <~ no_grad (call_model mnist_forward [data img]) ;;
  ret (mexp (value logps)).

(** What the forward pass of the Classifier does to one flattened image. *)
Definition Classifier_row (m : Classifier) (x : list R) : list R :=
  log_softmax_row
    (Linear_row (fc4 m)
       (map (Rmax 0)
          (Linear_row (fc3 m)
             (map (Rmax 0)
                (Linear_row (fc2 m)
                   (map (Rmax 0) (Linear_row (fc1 m) x))))))).

(** ** The figures of a report *)

(** The figures of a printed line are in range: the losses are strictly
    positive and the accuracy lies between 0 and 1. *)
Definition Line_in_range (l : Line) : Prop :=
  match l with
  | TrainingLoss a => 0 < a
  | Summary _ _ a b c => 0 < a /\ 0 < b /\ 0 <= c <= 1
  end.

(** ** Tactics *)

Ltac invert_Forall2 :=
  repeat match goal with
         | H : Forall2 _ (_ :: _) _ |- _ => inversion H; subst; clear H
         | H : Forall2 _ [] _ |- _ => inversion H; subst; clear H
         end.

Ltac world_simpl :=
  cbn [model optimizer generator grad_enabled running_loss test_loss accuracy
       stdout trace set_model set_optimizer set_generator set_grad_enabled
       set_running_loss set_test_loss set_accuracy set_stdout set_trace
       value recorded item grad_fn option_map fst snd].

Ltac run_unfold :=
  unfold train_batch, before_backward, validate_batch, print_summary, print,
    optimizer_zero_grad, call_model, criterion, backward, optimizer_step,
    model_eval, model_train, no_grad, emit, then_, modify, gets, lift, ret.

(** * Properties *)

(** ** The primitives on small inputs *)

Example view_batch_example :
  view_batch (mkTensor [2; 1; 2]%nat [1; 2; 3; 4]) = Ok [[1; 2]; [3; 4]].
Proof. reflexivity. Qed.

Example view_batch_scalar : view_batch (mkTensor [] [1]) = Err IndexError.
Proof. reflexivity. Qed.

Example view_batch_empty_batch :
  view_batch (mkTensor [0; 784]%nat []) = Err ViewError.
Proof. reflexivity. Qed.

Example Linear_forward_example :
  Linear_forward
    (mkLinear 2 1 (mkParam [1; 2]%nat [1; 2] None) (mkParam [1%nat] [10] None))
    [[3; 4]; [0; 0]]
  = Ok [[21]; [10]].
Proof.
  unfold Linear_forward, Linear_row, weight_rows, dot. simpl.
  repeat f_equal; lra.
Qed.

Example Linear_forward_wrong_width :
  Linear_forward
    (mkLinear 2 1 (mkParam [1; 2]%nat [1; 2] None) (mkParam [1%nat] [10] None))
    [[3; 4; 5]]
  = Err SizeMismatch.
Proof. reflexivity. Qed.

Example relu_example : relu [[-1; 2]; [0; -3]] = [[0; 2]; [0; 0]].
Proof.
  unfold relu. simpl.
  rewrite (Rmax_left 0 (-1)), (Rmax_right 0 2), (Rmax_left 0 0),
    (Rmax_left 0 (-3)) by lra.
  reflexivity.
Qed.

Example NLLLoss_example :
  NLLLoss [[-1; -2]; [-3; -4]] [0; 1]%nat = Ok (5 / 2).
Proof. unfold NLLLoss. simpl. f_equal. lra. Qed.

Example NLLLoss_label_out_of_range :
  NLLLoss [[-1; -2]] [2%nat] = Err TargetError.
Proof. reflexivity. Qed.

Example dropout_row_example :
  dropout_row dropout_p [true; false; true] [4; 8; 0] = [5; 0; 0].
Proof.
  unfold dropout_row, dropout_elem, dropout_p. simpl. repeat f_equal; lra.
Qed.

Example bernoulli_mask_example :
  bernoulli_mask (mkGenerator (fun n => Nat.even n) 3) 4
  = ([false; true; false; true], mkGenerator (fun n => Nat.even n) 7).
Proof. reflexivity. Qed.

Example top1_row_example :
  top1_row (Tk := first_argmax_Topk) [1; 3; 2; 3] = (3, 1%nat).
Proof.
  unfold top1_row. simpl.
  destruct (Rlt_dec 1 3); [|lra]. destruct (Rlt_dec 3 2); [lra|].
  destruct (Rlt_dec 3 3); [lra|]. reflexivity.
Qed.

Example SGD_update_example :
  SGD_update (1 / 10) (mkParam [2%nat] [1; 2] (Some [10; -10]))
  = mkParam [2%nat] [0; 3] (Some [10; -10]).
Proof. unfold SGD_update, map2. simpl. repeat f_equal; lra. Qed.

Example zero_grad_example :
  map zero_grad_param
    [mkParam [2%nat] [1; 2] (Some [10; -10]); mkParam [1%nat] [5] None]
  = [mkParam [2%nat] [1; 2] (Some [0; 0]); mkParam [1%nat] [5] None].
Proof. reflexivity. Qed.

(** Without [zero_grad] a second backward pass adds to the first. *)
Example accumulate_grad_example :
  accumulate_grad (accumulate_grad (mkParam [1%nat] [5] None) [1]) [2]
  = mkParam [1%nat] [5] (Some [3]).
Proof. unfold accumulate_grad, map2. simpl. repeat f_equal; lra. Qed.

(** The gradient discipline is a real constraint on traces. *)
Example backward_without_zero_grad :
  zeroed_before_backward false
    [EvZeroGrad; EvForward true; EvLoss; EvBackward; EvStep;
     EvForward true; EvLoss; EvBackward; EvStep] = false.
Proof. reflexivity. Qed.

Example step_without_backward :
  step_after_backward false [EvZeroGrad; EvForward true; EvLoss; EvStep]
  = false.
Proof. reflexivity. Qed.

(** ** Sums, exponentials and log-softmax *)

Lemma sum_list_app (u v : list R) :
  sum_list (u ++ v) = sum_list u + sum_list v.
Proof.
  induction u as [|a u IH]; simpl; [lra | rewrite IH; lra].
Qed.

Lemma sum_list_scale (c : R) (f : R -> R) (l : list R) :
  sum_list (map (fun x => f x * c) l) = sum_list (map f l) * c.
Proof.
  induction l as [|a l IH]; simpl; [lra | rewrite IH; lra].
Qed.

Lemma sum_exp_pos (f : R -> R) (l : list R) :
  l <> [] -> 0 < sum_list (map (fun x => exp (f x)) l).
Proof.
  intros Hl. destruct l as [|a l]; [congruence|]. clear Hl.
  revert a. induction l as [|b l IH]; intros a; simpl.
  - pose proof (exp_pos (f a)). lra.
  - pose proof (exp_pos (f a)). specialize (IH b). simpl in IH. lra.
Qed.

Lemma sum_list_ext (f g : R -> R) (l : list R) :
  (forall x, In x l -> f x = g x) ->
  sum_list (map f l) = sum_list (map g l).
Proof.
  induction l as [|a l IH]; simpl; intros H; [reflexivity|].
  rewrite H by (left; reflexivity). rewrite IH; [reflexivity|].
  intros x Hx. apply H. right. exact Hx.
Qed.

(** The exponentials of a log-softmax row add up to one. *)
Lemma log_softmax_row_normalized (r : list R) :
  r <> [] -> sum_list (map exp (log_softmax_row r)) = 1.
Proof.
  intros Hr. unfold log_softmax_row.
  set (M := row_max r).
  set (S := sum_list (map (fun x => exp (x - M)) r)).
  assert (HS : 0 < S) by (apply (sum_exp_pos (fun x => x - M)); exact Hr).
  rewrite map_map.
  rewrite (sum_list_ext _ (fun x => exp (x - M) * / S)).
  - rewrite (sum_list_scale (/ S) (fun x => exp (x - M))).
    fold S. field. lra.
  - intros x _. unfold Rminus at 1. rewrite exp_plus, exp_Ropp, exp_ln by exact
    HS.
    reflexivity.
Qed.

(** The stable normaliser is the logarithm of the sum of the exponentials
    of the raw scores. *)
Lemma log_softmax_row_logsumexp (r : list R) :
  r <> [] ->
  log_softmax_row r = map (fun x => x - ln (sum_list (map exp r))) r.
Proof.
  intros Hr. unfold log_softmax_row.
  set (M := row_max r).
  assert (HS : 0 < sum_list (map (fun x => exp (x - M)) r))
    by (apply (sum_exp_pos (fun x => x - M)); exact Hr).
  assert (E : sum_list (map exp r)
              = sum_list (map (fun x => exp (x - M)) r) * exp M).
  { rewrite <- (sum_list_scale (exp M) (fun x => exp (x - M))).
    apply sum_list_ext. intros x _. rewrite <- exp_plus. f_equal. lra. }
  rewrite E, ln_mult, ln_exp by (try exact HS; apply exp_pos).
  apply map_ext. intros x. lra.
Qed.

Lemma log_softmax_row_length (r : list R) :
  length (log_softmax_row r) = length r.
Proof. unfold log_softmax_row. apply length_map. Qed.

(** ** Shapes *)

Lemma chunks_length (c b : nat) (l : list R) : length (chunks c b l) = b.
Proof.
  revert l. induction b as [|b IH]; intros l; simpl; [reflexivity|].
  rewrite IH. reflexivity.
Qed.

Lemma chunks_rows (c b : nat) (l : list R) :
  (b * c <= length l)%nat -> Forall (fun r => length r = c) (chunks c b l).
Proof.
  revert l. induction b as [|b IH]; intros l Hl; simpl; constructor.
  - rewrite length_firstn. simpl in Hl. lia.
  - apply IH. rewrite length_skipn. simpl in Hl. lia.
Qed.

Lemma Forall_length_forallb (c : nat) (m : Matrix) :
  Forall (fun r => length r = c) m ->
  forallb (fun r => (length r =? c)%nat) m = true.
Proof.
  intros H. apply forallb_forall. intros r Hr.
  rewrite Forall_forall in H. apply Nat.eqb_eq. apply H. exact Hr.
Qed.

Lemma Linear_row_length (l : Linear) (x : list R) :
  Linear_wf l -> length (Linear_row l x) = out_features l.
Proof.
  intros (Hw & Hb & [Hwn _] & [Hbn _]). unfold Linear_row, weight_rows.
  rewrite length_map, length_combine, chunks_length.
  rewrite Hbn, Hb. simpl. lia.
Qed.

Lemma Linear_forward_ok (l : Linear) (i o b : nat) (m : Matrix) :
  Linear_dims l i o -> has_shape m b i ->
  Linear_forward l m = Ok (map (Linear_row l) m) /\
  has_shape (map (Linear_row l) m) b o.
Proof.
  intros (Hi & Ho & Hwf) [Hb Hrows]. unfold Linear_forward.
  rewrite Hi, (Forall_length_forallb i m Hrows). split; [reflexivity|].
  split; [rewrite length_map; exact Hb|].
  apply Forall_map. apply Forall_forall. intros r _.
  rewrite Linear_row_length by exact Hwf. exact Ho.
Qed.

Lemma Linear_forward_mismatch (l : Linear) (c b : nat) (m : Matrix) :
  has_shape m b c -> b <> 0%nat -> c <> in_features l ->
  Linear_forward l m = Err SizeMismatch.
Proof.
  intros [Hb Hrows] Hb0 Hc. unfold Linear_forward.
  destruct m as [|r m]; [simpl in Hb; congruence|].
  simpl. inversion Hrows as [|? ? Hr _]; subst.
  destruct (Nat.eqb_spec (length r) (in_features l)); [congruence|].
  reflexivity.
Qed.

Lemma relu_shape (m : Matrix) (b c : nat) :
  has_shape m b c -> has_shape (relu m) b c.
Proof.
  intros [Hb Hrows]. unfold relu. split; [rewrite length_map; exact Hb|].
  apply Forall_map. revert Hrows. apply Forall_impl.
  intros r Hr. rewrite length_map. exact Hr.
Qed.

Lemma log_softmax_shape (m : Matrix) (b c : nat) :
  has_shape m b c -> has_shape (log_softmax m) b c.
Proof.
  intros [Hb Hrows]. unfold log_softmax. split; [rewrite length_map; exact Hb|].
  apply Forall_map. revert Hrows. apply Forall_impl.
  intros r Hr. rewrite log_softmax_row_length. exact Hr.
Qed.

Lemma inferred_size_inv (x : Tensor) (c : nat) :
  inferred_size x = Ok c ->
  hd 0%nat (shape x) <> 0%nat /\
  length (data x) = (hd 0%nat (shape x) * c)%nat.
Proof.
  unfold inferred_size. destruct (shape x) as [|b s]; [discriminate|].
  simpl. destruct (Nat.eqb_spec b 0); [discriminate|].
  destruct (Nat.eqb_spec (length (data x) mod b) 0); [|discriminate].
  intros H. injection H as <-. split; [assumption|].
  pose proof (Nat.div_mod_eq (length (data x)) b). lia.
Qed.

Lemma view_batch_ok (x : Tensor) (c : nat) :
  inferred_size x = Ok c ->
  exists m, view_batch x = Ok m /\ has_shape m (hd 0%nat (shape x)) c.
Proof.
  intros H. unfold view_batch. rewrite H. simpl.
  destruct (inferred_size_inv x c H) as [_ Hn].
  eexists. split; [reflexivity|]. split.
  - apply chunks_length.
  - apply chunks_rows. lia.
Qed.

(** ** The forward passes *)

Lemma Classifier_forward_logits (m : Classifier) (x : Tensor) :
  Classifier_forward m x = (z <- Classifier_logits m x ;; Ok (log_softmax z)).
Proof.
  unfold Classifier_forward, Classifier_logits.
  destruct (view_batch x) as [x0|]; simpl; [|reflexivity].
  destruct (Linear_forward (fc1 m) x0) as [x1|]; simpl; [|reflexivity].
  destruct (Linear_forward (fc2 m) (relu x1)) as [x2|]; simpl; [|reflexivity].
  destruct (Linear_forward (fc3 m) (relu x2)) as [x3|]; simpl; reflexivity.
Qed.

Lemma Classifier_logits_ok (m : Classifier) (x : Tensor) :
  Classifier_wf m -> inferred_size x = Ok 784%nat ->
  exists z, Classifier_logits m x = Ok z /\
            has_shape z (hd 0%nat (shape x)) 10.
Proof.
  intros (H1 & H2 & H3 & H4) Hx.
  destruct (view_batch_ok x _ Hx) as (x0 & Hv & S0).
  unfold Classifier_logits. rewrite Hv. simpl.
  destruct (Linear_forward_ok _ _ _ _ _ H1 S0) as [E1 S1].
  rewrite E1. simpl. apply relu_shape in S1.
  destruct (Linear_forward_ok _ _ _ _ _ H2 S1) as [E2 S2].
  rewrite E2. simpl. apply relu_shape in S2.
  destruct (Linear_forward_ok _ _ _ _ _ H3 S2) as [E3 S3].
  rewrite E3. simpl. apply relu_shape in S3.
  destruct (Linear_forward_ok _ _ _ _ _ H4 S3) as [E4 S4].
  eexists. split; [exact E4 | exact S4].
Qed.

Lemma Classifier_forward_ok (m : Classifier) (x : Tensor) :
  Classifier_wf m -> inferred_size x = Ok 784%nat ->
  exists out, Classifier_forward m x = Ok out /\
              has_shape out (hd 0%nat (shape x)) 10.
Proof.
  intros Hm Hx. destruct (Classifier_logits_ok m x Hm Hx) as (z & Hz & Sz).
  exists (log_softmax z). rewrite Classifier_forward_logits, Hz. simpl.
  split; [reflexivity | apply log_softmax_shape; exact Sz].
Qed.

Lemma Classifier_forward_mismatch (m : Classifier) (x : Tensor) (c : nat) :
  in_features (fc1 m) = 784%nat -> inferred_size x = Ok c -> c <> 784%nat ->
  Classifier_forward m x = Err SizeMismatch.
Proof.
  intros Hi Hx Hc. destruct (view_batch_ok x _ Hx) as (x0 & Hv & S0).
  destruct (inferred_size_inv x c Hx) as [Hb _].
  unfold Classifier_forward. rewrite Hv. simpl.
  rewrite (Linear_forward_mismatch _ c _ x0 S0 Hb) by (rewrite Hi; exact Hc).
  reflexivity.
Qed.

Lemma dropout_row_length (p : R) (mask : list bool) (r : list R) :
  length mask = length r -> length (dropout_row p mask r) = length r.
Proof.
  intros H. unfold dropout_row. rewrite length_map, length_combine. lia.
Qed.

Lemma Dropout_train_shape (p : R) (m : Matrix) (b c : nat) :
  has_shape m b c ->
  forall g, has_shape (fst (Dropout_train p g m)) b c /\
            snd (Dropout_train p g m)
            = mkGenerator (tape g) (pos g + b * c).
Proof.
  intros [Hb Hrows]. subst b.
  induction Hrows as [|r m Hr Hrows IH]; intros g; simpl.
  - split; [split; [reflexivity | constructor]|].
    destruct g as [t n]. simpl. f_equal. lia.
  - specialize (IH (mkGenerator (tape g) (pos g + length r))).
    destruct (Dropout_train p (mkGenerator (tape g) (pos g + length r)) m)
      as [out g2] eqn:E.
    simpl in *. destruct IH as [[Hlen Hall] Hg]. split.
    + split; [simpl; rewrite Hlen; reflexivity|].
      constructor; [|exact Hall].
      rewrite dropout_row_length; [exact Hr|].
      rewrite length_map, length_seq. reflexivity.
    + rewrite Hg. f_equal. rewrite Hr. lia.
Qed.

Lemma Dropout_forward_shape (p : R) (t : bool) (g : Generator) (m : Matrix)
  (b c : nat) :
  has_shape m b c ->
  has_shape (fst (Dropout_forward p t g m)) b c /\
  snd (Dropout_forward p t g m)
  = if t then mkGenerator (tape g) (pos g + b * c) else g.
Proof.
  intros H. unfold Dropout_forward. destruct t.
  - apply Dropout_train_shape. exact H.
  - simpl. split; [exact H | reflexivity].
Qed.

(** In evaluation mode the dropout version is the plain forward pass and
    leaves the generator alone. *)
Lemma Classifier_forward_dropout_eval (m : Classifier) (g : Generator)
  (x : Tensor) :
  training m = false ->
  Classifier_forward_dropout m g x = plain_forward m g x.
Proof.
  intros Ht. unfold Classifier_forward_dropout, plain_forward,
    Classifier_forward, Dropout_forward. rewrite Ht.
  destruct (view_batch x) as [x0|]; simpl; [|reflexivity].
  destruct (Linear_forward (fc1 m) x0) as [x1|]; simpl; [|reflexivity].
  destruct (Linear_forward (fc2 m) (relu x1)) as [x2|]; simpl; [|reflexivity].
  destruct (Linear_forward (fc3 m) (relu x2)) as [x3|]; simpl; [|reflexivity].
  destruct (Linear_forward (fc4 m) (relu x3)) as [x4|]; simpl; reflexivity.
Qed.

(** The dropout version succeeds on the same inputs, in either mode, and
    reads one Bernoulli outcome per hidden activation. *)
Lemma Classifier_forward_dropout_ok (m : Classifier) (g : Generator)
  (x : Tensor) :
  Classifier_wf m -> inferred_size x = Ok 784%nat ->
  exists h z,
    has_shape h (hd 0%nat (shape x)) 64 /\
    Linear_forward (fc4 m) h = Ok z /\
    has_shape z (hd 0%nat (shape x)) 10 /\
    Classifier_forward_dropout m g x
    = Ok (log_softmax z,
          if training m
          then mkGenerator (tape g)
                 (pos g + hd 0%nat (shape x) * (256 + 128 + 64))
          else g).
Proof.
  intros (H1 & H2 & H3 & H4) Hx.
  destruct (view_batch_ok x _ Hx) as (x0 & Hv & S0).
  set (b := hd 0%nat (shape x)) in *.
  unfold Classifier_forward_dropout. rewrite Hv. simpl.
  destruct (Linear_forward_ok _ _ _ _ _ H1 S0) as [E1 S1].
  rewrite E1. simpl. apply relu_shape in S1.
  destruct (Dropout_forward_shape dropout_p (training m) g _ _ _ S1) as [D1 G1].
  destruct (Dropout_forward dropout_p (training m) g
              (relu (map (Linear_row (fc1 m)) x0))) as [y1 g1].
  simpl in D1, G1.
  destruct (Linear_forward_ok _ _ _ _ _ H2 D1) as [E2 S2].
  rewrite E2. simpl. apply relu_shape in S2.
  destruct (Dropout_forward_shape dropout_p (training m) g1 _ _ _ S2) as
    [D2 G2].
  destruct (Dropout_forward dropout_p (training m) g1
              (relu (map (Linear_row (fc2 m)) y1))) as [y2 g2].
  simpl in D2, G2.
  destruct (Linear_forward_ok _ _ _ _ _ H3 D2) as [E3 S3].
  rewrite E3. simpl. apply relu_shape in S3.
  destruct (Dropout_forward_shape dropout_p (training m) g2 _ _ _ S3) as
    [D3 G3].
  destruct (Dropout_forward dropout_p (training m) g2
              (relu (map (Linear_row (fc3 m)) y2))) as [y3 g3].
  simpl in D3, G3.
  destruct (Linear_forward_ok _ _ _ _ _ H4 D3) as [E4 S4].
  rewrite E4. simpl.
  exists y3, (map (Linear_row (fc4 m)) y3).
  repeat split; try apply D3; try apply S4; try exact E4.
  f_equal. f_equal. subst g3 g2 g1. destruct (training m); [|reflexivity].
  simpl. f_equal. lia.
Qed.

Lemma Sequential_forward_logits (l0 l2 l4 : Linear) (x : Matrix) :
  Sequential_forward (mnist_model l0 l2 l4) x
  = (z <- Sequential_forward (mnist_logits l0 l2 l4) x ;; Ok (log_softmax z)).
Proof.
  unfold mnist_model, mnist_logits. simpl.
  destruct (Linear_forward l0 x) as [x1|]; simpl; [|reflexivity].
  destruct (Linear_forward l2 (relu x1)) as [x2|]; simpl; [|reflexivity].
  destruct (Linear_forward l4 (relu x2)) as [x3|]; simpl; reflexivity.
Qed.

Lemma mnist_logits_ok (l0 l2 l4 : Linear) (x : Matrix) (b : nat) :
  Linear_dims l0 784 128 -> Linear_dims l2 128 64 -> Linear_dims l4 64 10 ->
  has_shape x b 784 ->
  exists z, Sequential_forward (mnist_logits l0 l2 l4) x = Ok z /\
            has_shape z b 10.
Proof.
  intros H0 H2 H4 S0. unfold mnist_logits. simpl.
  destruct (Linear_forward_ok _ _ _ _ _ H0 S0) as [E1 S1].
  rewrite E1. simpl. apply relu_shape in S1.
  destruct (Linear_forward_ok _ _ _ _ _ H2 S1) as [E2 S2].
  rewrite E2. simpl. apply relu_shape in S2.
  destruct (Linear_forward_ok _ _ _ _ _ H4 S2) as [E3 S3].
  rewrite E3. simpl. eexists. split; [reflexivity | exact S3].
Qed.

Lemma mnist_forward_ok (s : Sequential) (x : Matrix) (b : nat) :
  mnist_model_wf s -> has_shape x b 784 ->
  exists out, Sequential_forward s x = Ok out /\ has_shape out b 10.
Proof.
  intros (l0 & l2 & l4 & -> & H0 & H2 & H4) S0.
  destruct (mnist_logits_ok l0 l2 l4 x b H0 H2 H4 S0) as (z & Hz & Sz).
  exists (log_softmax z). rewrite Sequential_forward_logits, Hz. simpl.
  split; [reflexivity | apply log_softmax_shape; exact Sz].
Qed.

(** ** Rows of equal scores and the zero-initialised network *)

Lemma map_const_repeat {A B : Type} (f : A -> B) (c : B) (l : list A) :
  (forall a, In a l -> f a = c) -> map f l = repeat c (length l).
Proof.
  induction l as [|a l IH]; simpl; intros H; [reflexivity|].
  rewrite H by (left; reflexivity). f_equal. apply IH.
  intros b Hb. apply H. right. exact Hb.
Qed.

Lemma sum_list_repeat (c : R) (n : nat) : sum_list (repeat c n) = INR n * c.
Proof.
  induction n as [|n IH]; [simpl; lra|].
  rewrite S_INR. simpl. rewrite IH. lra.
Qed.

Lemma fold_left_Rmax_repeat (c : R) (n : nat) :
  fold_left Rmax (repeat c n) c = c.
Proof.
  induction n as [|n IH]; simpl; [reflexivity|].
  rewrite Rmax_left by lra. exact IH.
Qed.

Lemma row_max_repeat (c : R) (n : nat) : (0 < n)%nat -> row_max (repeat c n) =
  c.
Proof.
  destruct n as [|n]; [lia|]. intros _. simpl. apply fold_left_Rmax_repeat.
Qed.

(** Equal scores give the uniform log-probability -ln(n). *)
Lemma log_softmax_row_uniform (c : R) (n : nat) :
  (0 < n)%nat -> log_softmax_row (repeat c n) = repeat (- ln (INR n)) n.
Proof.
  intros Hn. unfold log_softmax_row. rewrite row_max_repeat by exact Hn.
  rewrite (map_const_repeat (fun x => exp (x - c)) 1).
  - rewrite repeat_length, sum_list_repeat, Rmult_1_r.
    rewrite (map_const_repeat _ (- ln (INR n))).
    + rewrite repeat_length. reflexivity.
    + intros a Ha. apply repeat_spec in Ha. subst a. lra.
  - intros a Ha. apply repeat_spec in Ha. subst a.
    replace (c - c) with 0 by lra. apply exp_0.
Qed.

Lemma nll_terms_uniform (v : R) (n : nat) (z : Matrix) (labels : list nat) :
  Forall (fun r => r = repeat v n) z ->
  length labels = length z -> Forall (fun y => (y < n)%nat) labels ->
  nll_terms z labels = Ok (repeat (- v) (length z)).
Proof.
  intros Hz. revert labels.
  induction Hz as [|r z Hr Hz IH]; intros labels Hlen Hlab.
  - destruct labels; [reflexivity | discriminate].
  - destruct labels as [|y labels]; [discriminate|].
    inversion Hlab as [|? ? Hy Hlab']; subst. simpl.
    rewrite repeat_length.
    destruct (Nat.ltb_spec y n) as [_|]; [|lia].
    rewrite IH by (simpl in Hlen; try lia; assumption). simpl.
    rewrite nth_repeat_lt by exact Hy. reflexivity.
Qed.

Lemma NLLLoss_uniform (v : R) (n : nat) (z : Matrix) (labels : list nat) :
  z <> [] -> Forall (fun r => r = repeat v n) z ->
  length labels = length z -> Forall (fun y => (y < n)%nat) labels ->
  NLLLoss z labels = Ok (- v).
Proof.
  intros Hne Hz Hlen Hlab. unfold NLLLoss.
  rewrite (nll_terms_uniform v n z labels Hz Hlen Hlab). simpl.
  rewrite repeat_length, sum_list_repeat. f_equal. field.
  apply not_0_INR. destruct z; [congruence | simpl; lia].
Qed.

Lemma dot_zero_l (w x : list R) : Forall (eq 0) w -> dot w x = 0.
Proof.
  unfold dot. intros Hw. revert x.
  induction Hw as [|a w Ha Hw IH]; intros x; [reflexivity|].
  destruct x as [|b x]; [reflexivity|]. simpl. rewrite IH. subst a. lra.
Qed.

Lemma Forall_firstn {A : Type} (P : A -> Prop) (n : nat) (l : list A) :
  Forall P l -> Forall P (firstn n l).
Proof.
  intros H. revert n. induction H as [|a l Ha H IH]; intros [|n]; simpl;
    constructor; auto.
Qed.

Lemma Forall_skipn {A : Type} (P : A -> Prop) (n : nat) (l : list A) :
  Forall P l -> Forall P (skipn n l).
Proof.
  intros H. revert n. induction H as [|a l Ha H IH]; intros [|n]; simpl;
    auto.
Qed.

Lemma chunks_Forall (P : R -> Prop) (c b : nat) (l : list R) :
  Forall P l -> Forall (Forall P) (chunks c b l).
Proof.
  revert l. induction b as [|b IH]; intros l H; simpl; constructor.
  - apply Forall_firstn. exact H.
  - apply IH. apply Forall_skipn. exact H.
Qed.

Lemma Linear_row_zero (l : Linear) (x : list R) :
  Linear_wf l ->
  Forall (eq 0) (pdata (weight l)) -> Forall (eq 0) (pdata (bias l)) ->
  Linear_row l x = repeat 0 (out_features l).
Proof.
  intros Hwf Hw Hb. rewrite <- (Linear_row_length l x Hwf).
  unfold Linear_row. rewrite length_map.
  apply map_const_repeat. intros [w b] Hin. simpl.
  pose proof (in_combine_l _ _ _ _ Hin) as Hw'.
  pose proof (in_combine_r _ _ _ _ Hin) as Hb'.
  pose proof (chunks_Forall (eq 0) (in_features l) (out_features l) _ Hw) as
    Hrows.
  rewrite Forall_forall in Hrows, Hb. unfold weight_rows in Hw'.
  rewrite (dot_zero_l w x (Hrows w Hw')), <- (Hb b Hb'). lra.
Qed.

Lemma zero_initialized_inv (m : Classifier) :
  zero_initialized m ->
  Forall (eq 0) (pdata (weight (fc4 m))) /\ Forall (eq 0) (pdata (bias (fc4
    m))).
Proof.
  unfold zero_initialized. simpl. unfold Classifier_parameters,
    Linear_parameters.
  simpl. intros H. rewrite Forall_forall in H. split; apply H; simpl; tauto.
Qed.

(** With zero weights and biases the last layer returns zeros, whatever
    reaches it. *)
Lemma zero_initialized_logits (m : Classifier) (x : Tensor) :
  Classifier_wf m -> zero_initialized m -> inferred_size x = Ok 784%nat ->
  Classifier_logits m x = Ok (repeat (repeat 0 10%nat) (hd 0%nat (shape x))).
Proof.
  intros Hm Hz Hx.
  destruct (Classifier_logits_ok m x Hm Hx) as (z & Ez & [Sb Sr]).
  rewrite Ez. f_equal.
  destruct Hm as (_ & _ & _ & H4). destruct H4 as (_ & Ho & Hwf).
  destruct (zero_initialized_inv m Hz) as [Hw Hb].
  revert Ez. unfold Classifier_logits.
  destruct (view_batch x) as [x0|]; simpl; [|discriminate].
  destruct (Linear_forward (fc1 m) x0) as [x1|]; simpl; [|discriminate].
  destruct (Linear_forward (fc2 m) (relu x1)) as [x2|]; simpl; [|discriminate].
  destruct (Linear_forward (fc3 m) (relu x2)) as [x3|]; simpl; [|discriminate].
  unfold Linear_forward.
  destruct (forallb _ (relu x3)); [|discriminate].
  intros E. injection E as <-. rewrite <- Sb, length_map.
  rewrite <- (length_map (Linear_row (fc4 m)) (relu x3)).
  rewrite length_map.
  apply map_const_repeat. intros r _.
  rewrite (Linear_row_zero (fc4 m) r Hwf Hw Hb), Ho. reflexivity.
Qed.

Lemma zero_linear_dims (i o : nat) : Linear_dims (zero_linear i o) i o.
Proof.
  unfold Linear_dims, Linear_wf, Param_wf, zero_linear, zero_param. simpl.
  rewrite !repeat_length. tauto.
Qed.

Lemma zero_classifier_wf : Classifier_wf zero_classifier.
Proof.
  unfold Classifier_wf, zero_classifier.
  split; [|split; [|split]]; apply zero_linear_dims.
Qed.

Lemma zero_param_zero (s : list nat) : Forall (eq 0) (pdata (zero_param s)).
Proof.
  apply Forall_forall. intros a Ha. unfold zero_param, pdata in Ha.
  apply repeat_spec in Ha. congruence.
Qed.

Lemma zero_classifier_zero : zero_initialized zero_classifier.
Proof.
  unfold zero_initialized.
  change (parameters zero_classifier)
    with [zero_param [256; 784]; zero_param [256];
          zero_param [128; 256]; zero_param [128];
          zero_param [64; 128]; zero_param [64];
          zero_param [10; 64]; zero_param [10]]%nat.
  repeat (apply Forall_cons; [apply zero_param_zero|]). apply Forall_nil.
Qed.

Lemma zero_image_size : inferred_size zero_image = Ok 784%nat.
Proof.
  unfold inferred_size, zero_image. cbn [shape data].
  rewrite repeat_length. reflexivity.
Qed.

(** ** Arg-max and per-batch accuracy *)

(** [topk(1)] returns an arg-max of the row. *)
Lemma top1_row_is_argmax {Tk : Topk} (r : list R) :
  r <> [] -> is_argmax r (snd (top1_row r)) /\
             nth (snd (top1_row r)) r 0 = fst (top1_row r).
Proof.
  intros Hr. unfold top1_row. cbn [fst snd].
  split; [apply topk_index_max; exact Hr | reflexivity].
Qed.

Lemma sum_as_float (l : list bool) :
  sum_list (map as_float l) = INR (length (filter (fun b => b) l)).
Proof.
  induction l as [|[|] l IH]; simpl sum_list; simpl filter.
  - reflexivity.
  - change (length (true :: filter (fun b => b) l))
      with (S (length (filter (fun b => b) l))).
    rewrite S_INR, IH. simpl. lra.
  - rewrite IH. simpl. lra.
Qed.

Lemma filter_map_length {A B : Type} (f : A -> B) (p : B -> bool)
  (l : list A) :
  length (filter p (map f l)) = length (filter (fun a => p (f a)) l).
Proof.
  induction l as [|a l IH]; simpl; [reflexivity|].
  destruct (p (f a)); simpl; rewrite IH; reflexivity.
Qed.

Lemma combine_map_l {A B C : Type} (f : A -> B) (u : list A) (v : list C) :
  combine (map f u) v = map (fun ac => (f (fst ac), snd ac)) (combine u v).
Proof.
  revert v. induction u as [|a u IH]; intros [|c v]; simpl; try reflexivity.
  rewrite IH. reflexivity.
Qed.

Lemma batch_accuracy_value {Tk : Topk}
  (log_ps : Matrix) (labels : list nat) (b c : nat) :
  has_shape log_ps b c -> (0 < c)%nat -> length labels = b ->
  batch_accuracy log_ps labels
  = Ok (INR (correct_rows log_ps labels) / INR b).
Proof.
  intros [Hb Hrows] Hc Hlab. unfold batch_accuracy, topk1, mexp.
  assert (F : forallb (fun r => (1 <=? length r)%nat) (map (map exp) log_ps)
              = true).
  { apply forallb_forall. intros r Hr.
    apply in_map_iff in Hr as (r0 & <- & Hr0).
    rewrite Forall_forall in Hrows. rewrite length_map, (Hrows r0 Hr0).
    apply Nat.leb_le. lia. }
  rewrite F. simpl. unfold equals.
  rewrite !length_map, Hb, Hlab, Nat.eqb_refl. simpl.
  f_equal. unfold mean. rewrite sum_as_float, length_map.
  unfold map2. rewrite !length_map, length_combine, !length_map, Hb, Hlab.
  rewrite Nat.min_id. f_equal. f_equal.
  rewrite (filter_map_length _ (fun b0 => b0)).
  unfold correct_rows, predicted_class.
  rewrite map_map, combine_map_l, filter_map_length. reflexivity.
Qed.

(** ** Dropout *)

Lemma length_concat_uniform {A : Type} (c : nat) (rows : list (list A)) :
  Forall (fun r => length r = c) rows ->
  length (concat rows) = (length rows * c)%nat.
Proof.
  induction 1 as [|r rows Hr _ IH]; [reflexivity|].
  simpl. rewrite length_app, IH, Hr. reflexivity.
Qed.

Lemma dropout_row_nth (p : R) (mask : list bool) (r : list R) (i : nat) :
  length mask = length r -> (i < length r)%nat ->
  nth i (dropout_row p mask r) 0 = dropout_elem p (nth i mask true) (nth i r 0).
Proof.
  revert mask i. induction r as [|x r IH]; intros [|k mask] i Hlen Hi;
    simpl in *; try lia.
  destruct i as [|i]; [reflexivity|]. apply IH; lia.
Qed.

Lemma Dropout_train_rows (p : R) (m : Matrix) (g : Generator) :
  Forall2 (fun r o => exists mask, length mask = length r /\
                                   o = dropout_row p mask r)
    m (fst (Dropout_train p g m)).
Proof.
  revert g. induction m as [|r m IH]; intros g; simpl; [constructor|].
  specialize (IH (mkGenerator (tape g) (pos g + length r))).
  destruct (Dropout_train p (mkGenerator (tape g) (pos g + length r)) m)
    as [out g2]. simpl in *. constructor; [|exact IH].
  eexists. split; [|reflexivity]. rewrite length_map, length_seq. reflexivity.
Qed.

Lemma expect_const {A : Type} (d : dist A) (c : R) :
  expect d (fun _ => c) = c * mass d.
Proof.
  unfold expect, mass. induction d as [|[w a] d IH]; simpl in *; [lra|].
  rewrite IH. lra.
Qed.

Lemma expect_scale {A : Type} (d : dist A) (c : R) (f : A -> R) :
  expect d (fun a => c * f a) = c * expect d f.
Proof.
  unfold expect. induction d as [|[w a] d IH]; simpl in *; [lra|].
  rewrite IH. lra.
Qed.

Lemma expect_mask_cons (p : R) (n : nat) (f : list bool -> R) :
  expect (mask_dist p (S n)) f
  = (1 - p) * expect (mask_dist p n) (fun m => f (true :: m))
    + p * expect (mask_dist p n) (fun m => f (false :: m)).
Proof.
  simpl mask_dist. unfold expect.
  induction (mask_dist p n) as [|[w m] d IH]; simpl in *; [lra|].
  rewrite IH. lra.
Qed.

Lemma mass_mask_dist (p : R) (n : nat) : mass (mask_dist p n) = 1.
Proof.
  assert (E : forall d : dist (list bool), mass d = expect d (fun _ => 1)).
  { intros d. rewrite expect_const. lra. }
  induction n as [|n IH].
  - unfold mass. simpl. lra.
  - rewrite E, expect_mask_cons, <- !E, IH. lra.
Qed.

Lemma expect_ext_swap {A : Type} (d : dist A) (c : R) (f : A -> R) :
  expect d (fun a => f a * c) = expect d (fun a => c * f a).
Proof.
  unfold expect. induction d as [|[w a] d IH]; simpl in *; [lra|].
  rewrite IH. lra.
Qed.

(** Every element of the mask has the same two-point law. *)
Lemma mask_marginal (p : R) (n i : nat) (f : bool -> R) :
  (i < n)%nat ->
  expect (mask_dist p n) (fun m => f (nth i m true))
  = (1 - p) * f true + p * f false.
Proof.
  revert i. induction n as [|n IH]; intros i Hi; [lia|].
  rewrite expect_mask_cons. destruct i as [|i]; simpl nth.
  - rewrite !expect_const, mass_mask_dist. lra.
  - rewrite IH by lia. lra.
Qed.

(** Two different elements of the mask are independent. *)
Lemma mask_independent (p : R) (n i j : nat) (f h : bool -> R) :
  (i < n)%nat -> (j < n)%nat -> i <> j ->
  expect (mask_dist p n) (fun m => f (nth i m true) * h (nth j m true))
  = ((1 - p) * f true + p * f false) * ((1 - p) * h true + p * h false).
Proof.
  revert i j. induction n as [|n IH]; intros i j Hi Hj Hij; [lia|].
  rewrite expect_mask_cons. destruct i as [|i], j as [|j]; simpl nth.
  - congruence.
  - rewrite !expect_scale, (mask_marginal p n j h) by lia. lra.
  - rewrite (expect_ext_swap (mask_dist p n) (h true) (fun m => f (nth i m
    true))).
    rewrite (expect_ext_swap (mask_dist p n) (h false) (fun m => f (nth i m
      true))).
    rewrite !expect_scale, (mask_marginal p n i f) by lia. lra.
  - rewrite IH by lia. lra.
Qed.

(** Dropout keeps the expected value of every activation. *)
Lemma dropout_expectation (p : R) (r : list R) (i : nat) :
  p <> 1 -> (i < length r)%nat ->
  expect (mask_dist p (length r)) (fun m => nth i (dropout_row p m r) 0)
  = nth i r 0.
Proof.
  intros Hp. revert i. induction r as [|x r IH]; intros i Hi; simpl in Hi;
    [lia|].
  simpl length. rewrite expect_mask_cons.
  change (fun m => nth i (dropout_row p (true :: m) (x :: r)) 0)
    with (fun m => nth i (dropout_elem p true x :: dropout_row p m r) 0).
  change (fun m => nth i (dropout_row p (false :: m) (x :: r)) 0)
    with (fun m => nth i (dropout_elem p false x :: dropout_row p m r) 0).
  destruct i as [|i]; simpl nth.
  - rewrite !expect_const, mass_mask_dist. unfold dropout_elem. field. lra.
  - rewrite IH by lia. lra.
Qed.

(** ** Inputs and shapes *)

(** The size inferred for [-1] is the number of elements per example,
    whatever the rank of the input. *)
Lemma inferred_size_shape (x : Tensor) (b : nat) (rest : list nat) :
  Tensor_wf x -> shape x = b :: rest -> b <> 0%nat ->
  inferred_size x = Ok (numel rest).
Proof.
  unfold Tensor_wf, inferred_size. intros Hwf Hs Hb. rewrite Hs in *.
  rewrite Hwf. change (numel (b :: rest)) with (b * numel rest)%nat.
  destruct (Nat.eqb_spec b 0); [congruence|].
  rewrite Nat.mul_comm, Nat.Div0.mod_mul, Nat.div_mul by exact Hb.
  reflexivity.
Qed.

Lemma Classifier_forward_dropout_mismatch (m : Classifier) (g : Generator)
  (x : Tensor) (c : nat) :
  in_features (fc1 m) = 784%nat -> inferred_size x = Ok c -> c <> 784%nat ->
  Classifier_forward_dropout m g x = Err SizeMismatch.
Proof.
  intros Hi Hx Hc. destruct (view_batch_ok x _ Hx) as (x0 & Hv & S0).
  destruct (inferred_size_inv x c Hx) as [Hb _].
  unfold Classifier_forward_dropout. rewrite Hv. simpl.
  rewrite (Linear_forward_mismatch _ c _ x0 S0 Hb) by (rewrite Hi; exact Hc).
  reflexivity.
Qed.

Lemma flatten_and_call_ok (s : Sequential) (x : Tensor) :
  mnist_model_wf s -> inferred_size x = Ok 784%nat ->
  exists out, flatten_and_call s x = Ok out /\
              has_shape out (hd 0%nat (shape x)) 10.
Proof.
  intros Hs Hx. destruct (view_batch_ok x _ Hx) as (x0 & Hv & S0).
  unfold flatten_and_call. rewrite Hv. simpl.
  apply mnist_forward_ok; assumption.
Qed.

Lemma flatten_and_call_mismatch (s : Sequential) (x : Tensor) (c : nat) :
  mnist_model_wf s -> inferred_size x = Ok c -> c <> 784%nat ->
  flatten_and_call s x = Err SizeMismatch.
Proof.
  intros (l0 & l2 & l4 & -> & (Hi & _) & _) Hx Hc.
  destruct (view_batch_ok x _ Hx) as (x0 & Hv & S0).
  destruct (inferred_size_inv x c Hx) as [Hb _].
  unfold flatten_and_call. rewrite Hv. simpl.
  rewrite (Linear_forward_mismatch _ c _ x0 S0 Hb) by (rewrite Hi; exact Hc).
  reflexivity.
Qed.

Lemma zero_mnist_wf : mnist_model_wf zero_mnist.
Proof.
  exists (zero_linear 784 128), (zero_linear 128 64), (zero_linear 64 10).
  split; [reflexivity|]. split; [|split]; apply zero_linear_dims.
Qed.

Lemma zero_image_wf : Tensor_wf zero_image.
Proof.
  unfold Tensor_wf, zero_image. cbn [shape data]. rewrite repeat_length.
  reflexivity.
Qed.

Lemma ln_10_pos : 0 < ln 10.
Proof. rewrite <- ln_1. apply ln_increasing; lra. Qed.

Lemma INR_10 : INR 10 = 10.
Proof. simpl. lra. Qed.

(** ** The predictor and the loss: main statements *)

Lemma rows_nonempty (z : Matrix) (b c : nat) :
  has_shape z b c -> (0 < c)%nat -> forall r, In r z -> r <> [].
Proof.
  intros [_ Hrows] Hc r Hr ->. rewrite Forall_forall in Hrows.
  specialize (Hrows [] Hr). simpl in Hrows. lia.
Qed.

Lemma log_softmax_normalized_rows (z : Matrix) (b c : nat) :
  has_shape z b c -> (0 < c)%nat ->
  Forall (fun r => sum_list (map exp r) = 1) (log_softmax z).
Proof.
  intros Hs Hc. unfold log_softmax. apply Forall_map. apply Forall_forall.
  intros r Hr. apply log_softmax_row_normalized.
  apply (rows_nonempty z b c Hs Hc). exact Hr.
Qed.

(** C5.  Every row of a log-softmax output holds log-probabilities: the
    exponentials of its entries add up to exactly one, and the amount
    subtracted from every score, computed after subtracting the row
    maximum, is the logarithm of the sum of the exponentials of the
    scores. *)
Theorem log_softmax_rows_sum_to_one (z : Matrix) (b c : nat) :
  has_shape z b c -> (0 < c)%nat ->
  Forall (fun r => sum_list (map exp r) = 1) (log_softmax z) /\
  log_softmax z
  = map (fun r => map (fun x => x - ln (sum_list (map exp r))) r) z.
Proof.
  intros Hs Hc. pose proof (rows_nonempty z b c Hs Hc) as Hne. split.
  - unfold log_softmax. apply Forall_map. apply Forall_forall.
    intros r Hr. unfold log_softmax_row.
    set (M := row_max r).
    set (S := sum_list (map (fun x => exp (x - M)) r)).
    assert (HS : 0 < S)
      by (apply (sum_exp_pos (fun x => x - M)); apply Hne; exact Hr).
    rewrite map_map.
    rewrite (sum_list_ext _ (fun x => exp (x - M) * / S)).
    + rewrite (sum_list_scale (/ S) (fun x => exp (x - M))).
      fold S. field. lra.
    + intros x _. unfold Rminus at 1.
      rewrite exp_plus, exp_Ropp, exp_ln by exact HS. reflexivity.
  - unfold log_softmax. apply map_ext_in. intros r Hr.
    apply log_softmax_row_logsumexp. apply Hne. exact Hr.
Qed.

(** On a batch of two rows of three scores. *)
Lemma log_softmax_rows_sum_to_one_witness :
  Forall (fun r => sum_list (map exp r) = 1)
    (log_softmax [[1; 2; 3]; [0; 0; 0]]).
Proof.
  apply (log_softmax_rows_sum_to_one [[1; 2; 3]; [0; 0; 0]] 2 3).
  - split; [reflexivity | repeat constructor].
  - lia.
Defined.

Lemma uniform_rows (z : Matrix) (b n : nat) :
  has_shape z b n -> (0 < n)%nat ->
  Forall (fun r => exists c, Forall (eq c) r) z ->
  log_softmax z = repeat (repeat (- ln (INR n)) n) b.
Proof.
  intros [Hb Hrows] Hn Hconst.
  unfold log_softmax. rewrite <- Hb. apply map_const_repeat.
  intros r Hr. rewrite Forall_forall in Hrows, Hconst.
  destruct (Hconst r Hr) as [c Hc]. apply Forall_eq_repeat in Hc.
  rewrite Hc, (Hrows r Hr). apply log_softmax_row_uniform. exact Hn.
Qed.

Lemma zeros_shape (b n : nat) :
  has_shape (repeat (repeat 0 n) b) b n /\
  Forall (fun r => exists c, Forall (eq c) r) (repeat (repeat 0 n) b).
Proof.
  split; [split; [apply repeat_length|]|].
  - apply Forall_forall. intros r Hr. apply repeat_spec in Hr. subst r.
    apply repeat_length.
  - apply Forall_forall. intros r Hr. apply repeat_spec in Hr. subst r.
    exists 0. apply Forall_forall. intros a Ha. apply repeat_spec in Ha.
    congruence.
Qed.

(** The zero-initialised Classifier returns -ln 10 everywhere. *)
Lemma zero_initialized_forward (m : Classifier) (x : Tensor) :
  Classifier_wf m -> zero_initialized m -> inferred_size x = Ok 784%nat ->
  Classifier_forward m x
  = Ok (repeat (repeat (- ln 10) 10%nat) (hd 0%nat (shape x))).
Proof.
  intros Hm Hz Hx.
  rewrite Classifier_forward_logits, (zero_initialized_logits m x Hm Hz Hx).
  cbn [bind]. destruct (zeros_shape (hd 0%nat (shape x)) 10) as [Hs Hc].
  rewrite (uniform_rows _ _ 10 Hs ltac:(lia) Hc), INR_10. reflexivity.
Qed.

(** C6.  When all the scores of every row are equal, the log-probabilities
    are uniform and the loss is ln(number of classes) for any valid labels;
    in particular a zero-initialised Classifier returns zero scores on any
    image of 784 pixels and its loss is ln 10. *)
Theorem equal_scores_give_uniform_loss :
  (forall (z : Matrix) (labels : list nat) (b n : nat),
     has_shape z b n -> (0 < b)%nat -> (0 < n)%nat ->
     Forall (fun r => exists c, Forall (eq c) r) z ->
     length labels = b -> Forall (fun y => (y < n)%nat) labels ->
     log_softmax z = repeat (repeat (- ln (INR n)) n) b /\
     NLLLoss (log_softmax z) labels = Ok (ln (INR n))) /\
  (forall (m : Classifier) (x : Tensor) (labels : list nat),
     Classifier_wf m -> zero_initialized m -> inferred_size x = Ok 784%nat ->
     length labels = hd 0%nat (shape x) ->
     Forall (fun y => (y < 10)%nat) labels ->
     Classifier_logits m x = Ok (repeat (repeat 0 10%nat) (hd 0%nat (shape x)))
       /\
     Classifier_forward m x
     = Ok (repeat (repeat (- ln 10) 10%nat) (hd 0%nat (shape x))) /\
     (out <- Classifier_forward m x ;; NLLLoss out labels) = Ok (ln 10)).
Proof.
  assert (G : forall (z : Matrix) (labels : list nat) (b n : nat),
     has_shape z b n -> (0 < b)%nat -> (0 < n)%nat ->
     Forall (fun r => exists c, Forall (eq c) r) z ->
     length labels = b -> Forall (fun y => (y < n)%nat) labels ->
     log_softmax z = repeat (repeat (- ln (INR n)) n) b /\
     NLLLoss (log_softmax z) labels = Ok (ln (INR n))).
  { intros z labels b n Hs Hb0 Hn Hconst Hlen Hlab.
    pose proof (uniform_rows z b n Hs Hn Hconst) as E.
    split; [exact E|]. rewrite E.
    rewrite (NLLLoss_uniform (- ln (INR n)) n).
    - f_equal. lra.
    - destruct b; [lia | discriminate].
    - apply Forall_forall. intros r Hr. apply repeat_spec in Hr. exact Hr.
    - rewrite repeat_length. exact Hlen.
    - exact Hlab. }
  split; [exact G|].
  intros m x labels Hm Hz Hx Hlen Hlab.
  pose proof (zero_initialized_logits m x Hm Hz Hx) as El.
  pose proof (zero_initialized_forward m x Hm Hz Hx) as Ef.
  destruct (inferred_size_inv x _ Hx) as [Hb _].
  destruct (zeros_shape (hd 0%nat (shape x)) 10) as [Hs Hc].
  destruct (G (repeat (repeat 0 10%nat) (hd 0%nat (shape x))) labels
              (hd 0%nat (shape x)) 10%nat Hs ltac:(lia) ltac:(lia) Hc Hlen Hlab)
    as [E1 E2].
  rewrite INR_10 in E1, E2.
  split; [exact El|]. split; [exact Ef|].
  rewrite Ef. cbn [bind]. rewrite <- E1. exact E2.
Qed.

(** On the zero-initialised Classifier, the zero image and the label 3. *)
Lemma equal_scores_give_uniform_loss_witness :
  Classifier_logits zero_classifier zero_image = Ok [repeat 0 10%nat] /\
  Classifier_forward zero_classifier zero_image = Ok [repeat (- ln 10) 10%nat]
    /\
  (out <- Classifier_forward zero_classifier zero_image ;; NLLLoss out [3%nat])
  = Ok (ln 10).
Proof.
  apply (proj2 equal_scores_give_uniform_loss zero_classifier zero_image
    [3%nat]).
  - exact zero_classifier_wf.
  - exact zero_classifier_zero.
  - exact zero_image_size.
  - reflexivity.
  - repeat constructor.
Defined.

Lemma empty_batch_view (x : Tensor) (rest : list nat) :
  shape x = 0%nat :: rest -> view_batch x = Err ViewError.
Proof. intros Hs. unfold view_batch, inferred_size. rewrite Hs. reflexivity.
  Qed.

Lemma scalar_view (x : Tensor) :
  shape x = [] -> view_batch x = Err IndexError.
Proof. intros Hs. unfold view_batch, inferred_size. rewrite Hs. reflexivity.
  Qed.

(** What the three forward passes do once [view] has raised. *)
Lemma forward_after_failed_view (m : Classifier) (s : Sequential)
  (g : Generator) (x : Tensor) (e : error) :
  view_batch x = Err e ->
  Classifier_forward m x = Err e /\
  Classifier_forward_dropout m g x = Err e /\
  flatten_and_call s x = Err e.
Proof.
  intros E. unfold Classifier_forward, Classifier_forward_dropout,
    flatten_and_call. rewrite E. repeat split; reflexivity.
Qed.

(** C10, as the code has it.  The forward pass flattens its input first,
    with [view(x.shape[0], -1)].  On a batch of at least one example: with
    784 elements per example, whatever the rank of the input, the output
    has shape (batch, 10); with any other number of elements per example
    the first linear layer raises a size mismatch on the flattened input.
    On a batch of no example [view] itself raises, whatever the number of
    elements per example, and on a tensor without dimensions indexing the
    shape raises: these inputs never reach the first linear layer.  This
    holds for both versions of the Classifier and for the Sequential model
    called on the images that the loop flattened. *)
Theorem forward_accepts_784_per_example (m : Classifier) (l0 l2 l4 : Linear)
  (g : Generator) (x : Tensor) :
  Classifier_wf m ->
  Linear_dims l0 784 128 -> Linear_dims l2 128 64 -> Linear_dims l4 64 10 ->
  Tensor_wf x ->
  (forall b rest,
     shape x = S b :: rest -> numel rest = 784%nat ->
     (exists out, Classifier_forward m x = Ok out /\
                  has_shape out (S b) 10) /\
     (exists out g', Classifier_forward_dropout m g x = Ok (out, g') /\
                     has_shape out (S b) 10) /\
     (exists out, flatten_and_call (mnist_model l0 l2 l4) x = Ok out /\
                  has_shape out (S b) 10)) /\
  (forall b rest,
     shape x = S b :: rest -> numel rest <> 784%nat ->
     exists flat,
       view_batch x = Ok flat /\ has_shape flat (S b) (numel rest) /\
       Linear_forward (fc1 m) flat = Err SizeMismatch /\
       Linear_forward l0 flat = Err SizeMismatch /\
       Classifier_forward m x = Err SizeMismatch /\
       Classifier_forward_dropout m g x = Err SizeMismatch /\
       flatten_and_call (mnist_model l0 l2 l4) x = Err SizeMismatch) /\
  (forall rest,
     shape x = 0%nat :: rest ->
     view_batch x = Err ViewError /\
     Classifier_forward m x = Err ViewError /\
     Classifier_forward_dropout m g x = Err ViewError /\
     flatten_and_call (mnist_model l0 l2 l4) x = Err ViewError) /\
  (shape x = [] ->
     Classifier_forward m x = Err IndexError /\
     Classifier_forward_dropout m g x = Err IndexError /\
     flatten_and_call (mnist_model l0 l2 l4) x = Err IndexError).
Proof.
  intros Hm H0 H2 H4 Hwf.
  assert (Hs : mnist_model_wf (mnist_model l0 l2 l4))
    by (exists l0, l2, l4; tauto).
  split; [|split; [|split]].
  - intros b rest Hshape Hn.
    pose proof (inferred_size_shape x (S b) rest Hwf Hshape
                  (Nat.neq_succ_0 b)) as Hx.
    rewrite Hn in Hx.
    assert (Hb : hd 0%nat (shape x) = S b) by (rewrite Hshape; reflexivity).
    rewrite <- Hb. split; [|split].
    + apply Classifier_forward_ok; assumption.
    + destruct (Classifier_forward_dropout_ok m g x Hm Hx)
        as (h & z & _ & _ & Sz & E).
      eexists _, _. split; [exact E|]. apply log_softmax_shape. exact Sz.
    + apply flatten_and_call_ok; assumption.
  - intros b rest Hshape Hn.
    pose proof (inferred_size_shape x (S b) rest Hwf Hshape
                  (Nat.neq_succ_0 b)) as Hx.
    assert (Hb : hd 0%nat (shape x) = S b) by (rewrite Hshape; reflexivity).
    pose proof Hm as ((Hi & _) & _).
    destruct (view_batch_ok x _ Hx) as (flat & Hv & Sf).
    rewrite Hb in Sf.
    exists flat. split; [exact Hv|]. split; [exact Sf|].
    split; [|split; [|split; [|split]]].
    + apply (Linear_forward_mismatch _ (numel rest) (S b) flat Sf);
        [discriminate | rewrite Hi; exact Hn].
    + apply (Linear_forward_mismatch _ (numel rest) (S b) flat Sf);
        [discriminate | destruct H0 as (-> & _); exact Hn].
    + apply (Classifier_forward_mismatch m x (numel rest)); assumption.
    + apply (Classifier_forward_dropout_mismatch m g x (numel rest));
        assumption.
    + apply (flatten_and_call_mismatch _ x (numel rest)); assumption.
  - intros rest Hshape.
    pose proof (empty_batch_view x rest Hshape) as Hv.
    split; [exact Hv|].
    apply forward_after_failed_view. exact Hv.
  - intros Hshape. apply forward_after_failed_view.
    apply scalar_view. exact Hshape.
Qed.

(** On the zero image, of shape (1, 1, 28, 28), and on a batch of two
    examples of three elements. *)
Lemma forward_accepts_784_per_example_witness :
  (exists out, Classifier_forward zero_classifier zero_image = Ok out /\
               has_shape out 1 10) /\
  Classifier_forward zero_classifier (mkTensor [2; 3]%nat [1; 2; 3; 4; 5; 6])
  = Err SizeMismatch.
Proof.
  split.
  - apply (proj1 (forward_accepts_784_per_example zero_classifier
                    (zero_linear 784 128) (zero_linear 128 64)
                    (zero_linear 64 10) keep_all zero_image
                    zero_classifier_wf (zero_linear_dims 784 128)
                    (zero_linear_dims 128 64) (zero_linear_dims 64 10)
                    zero_image_wf)
             0%nat [1; 28; 28]%nat eq_refl eq_refl).
  - destruct (proj1 (proj2 (forward_accepts_784_per_example zero_classifier
                              (zero_linear 784 128) (zero_linear 128 64)
                              (zero_linear 64 10) keep_all
                              (mkTensor [2; 3]%nat [1; 2; 3; 4; 5; 6])
                              zero_classifier_wf (zero_linear_dims 784 128)
                              (zero_linear_dims 128 64)
                              (zero_linear_dims 64 10) eq_refl))
                1%nat [3]%nat eq_refl ltac:(discriminate))
      as (flat & _ & _ & _ & _ & E & _).
    exact E.
Defined.

(** C10, as stated, fails on a batch of no example.  The empty batch of
    shape (0, 1, 28, 28) is a well-formed tensor with 784 elements per
    example, and the forward pass raises on it: [view] cannot infer the
    size that [-1] stands for.  The empty batch of shape (0, 3) and a
    tensor without dimensions do not hold 784 elements per example, and
    they are rejected by [view] and by [x.shape[0]], not by the first
    linear layer. *)
Lemma forward_rejects_the_empty_batch :
  Tensor_wf (mkTensor [0; 1; 28; 28]%nat []) /\
  numel (tl (shape (mkTensor [0; 1; 28; 28]%nat []))) = 784%nat /\
  Classifier_forward zero_classifier (mkTensor [0; 1; 28; 28]%nat [])
  = Err ViewError /\
  Classifier_forward_dropout zero_classifier keep_all
    (mkTensor [0; 1; 28; 28]%nat []) = Err ViewError /\
  flatten_and_call zero_mnist (mkTensor [0; 1; 28; 28]%nat [])
  = Err ViewError /\
  Tensor_wf (mkTensor [0; 3]%nat []) /\
  Classifier_forward zero_classifier (mkTensor [0; 3]%nat [])
  = Err ViewError /\
  Tensor_wf (mkTensor [] [5]) /\
  Classifier_forward zero_classifier (mkTensor [] [5]) = Err IndexError.
Proof.
  split; [reflexivity|]. split; [reflexivity|].
  split; [reflexivity|]. split; [reflexivity|]. split; [reflexivity|].
  split; [reflexivity|]. split; [reflexivity|]. split; [reflexivity|].
  reflexivity.
Qed.

(** C2, as the code has it.  The Classifier and the Sequential model apply
    affine layers with ReLU after each hidden one and no ReLU after the
    last; but the scores of the last layer go through log-softmax inside
    the forward pass, so what is returned is one normalised row of
    log-probabilities per example, of length 10, and not the raw scores. *)
Theorem forward_is_log_softmax_of_logits (m : Classifier) (l0 l2 l4 : Linear)
  (x : Tensor) (images : Matrix) (b : nat) :
  Classifier_wf m -> inferred_size x = Ok 784%nat ->
  Linear_dims l0 784 128 -> Linear_dims l2 128 64 -> Linear_dims l4 64 10 ->
  has_shape images b 784 ->
  (exists z, Classifier_logits m x = Ok z /\
             Classifier_forward m x = Ok (log_softmax z) /\
             has_shape (log_softmax z) (hd 0%nat (shape x)) 10 /\
             Forall (fun r => sum_list (map exp r) = 1) (log_softmax z)) /\
  (exists z, Sequential_forward (mnist_logits l0 l2 l4) images = Ok z /\
             Sequential_forward (mnist_model l0 l2 l4) images
             = Ok (log_softmax z) /\
             has_shape (log_softmax z) b 10 /\
             Forall (fun r => sum_list (map exp r) = 1) (log_softmax z)).
Proof.
  intros Hm Hx H0 H2 H4 Si. split.
  - destruct (Classifier_logits_ok m x Hm Hx) as (z & Ez & Sz).
    exists z. split; [exact Ez|].
    rewrite Classifier_forward_logits, Ez. split; [reflexivity|].
    split; [apply log_softmax_shape; exact Sz|].
    apply (log_softmax_normalized_rows z _ 10 Sz). lia.
  - destruct (mnist_logits_ok l0 l2 l4 images b H0 H2 H4 Si) as (z & Ez & Sz).
    exists z. split; [exact Ez|].
    rewrite Sequential_forward_logits, Ez. split; [reflexivity|].
    split; [apply log_softmax_shape; exact Sz|].
    apply (log_softmax_normalized_rows z _ 10 Sz). lia.
Qed.

(** On the zero-initialised Classifier and the zero image. *)
Lemma forward_is_log_softmax_of_logits_witness :
  exists z, Classifier_logits zero_classifier zero_image = Ok z /\
            Classifier_forward zero_classifier zero_image
            = Ok (log_softmax z) /\
            has_shape (log_softmax z) 1 10 /\
            Forall (fun r => sum_list (map exp r) = 1) (log_softmax z).
Proof.
  apply (proj1 (forward_is_log_softmax_of_logits zero_classifier
                  (zero_linear 784 128) (zero_linear 128 64)
                  (zero_linear 64 10) zero_image
                  [repeat 0 784] 1
                  zero_classifier_wf zero_image_size
                  (zero_linear_dims 784 128) (zero_linear_dims 128 64)
                  (zero_linear_dims 64 10)
                  (conj eq_refl
                     (Forall_cons _ (repeat_length 0 784) (Forall_nil _))))).
Defined.

(** C2, as stated, fails: on the zero-initialised Classifier and the zero
    image the raw scores are all 0 while the returned values are all
    -ln 10. *)
Lemma forward_does_not_return_logits :
  Classifier_logits zero_classifier zero_image = Ok [repeat 0 10%nat] /\
  Classifier_forward zero_classifier zero_image = Ok [repeat (- ln 10) 10%nat]
    /\
  Classifier_forward zero_classifier zero_image
  <> Classifier_logits zero_classifier zero_image.
Proof.
  pose proof (zero_initialized_logits zero_classifier zero_image
                zero_classifier_wf zero_classifier_zero zero_image_size) as E1.
  pose proof (zero_initialized_forward zero_classifier zero_image
                zero_classifier_wf zero_classifier_zero zero_image_size) as E2.
  change (hd 0%nat (shape zero_image)) with 1%nat in E1, E2.
  change (repeat ?a 1) with [a] in E1, E2.
  split; [exact E1|]. split; [exact E2|].
  rewrite E1, E2. intros H. injection H as H.
  pose proof ln_10_pos. lra.
Qed.

(** *** Dropout inside the forward pass *)

Lemma dropout_row_app (p : R) (m1 m2 : list bool) (r1 r2 : list R) :
  length m1 = length r1 ->
  dropout_row p (m1 ++ m2) (r1 ++ r2)
  = dropout_row p m1 r1 ++ dropout_row p m2 r2.
Proof.
  revert r1. induction m1 as [|k m1 IH]; intros [|x r1] H; simpl in H;
    try discriminate; [reflexivity|].
  unfold dropout_row in *. simpl. rewrite IH by lia. reflexivity.
Qed.

(** Dropout on a whole activation reads one outcome per element, in
    row-major order, from the position of the generator on. *)
Lemma Dropout_train_flat (p : R) (m : Matrix) (g : Generator) :
  concat (fst (Dropout_train p g m))
  = dropout_row p (map (tape g) (seq (pos g) (length (concat m))))
      (concat m).
Proof.
  revert g. induction m as [|r m IH]; intros g; [reflexivity|].
  cbn [Dropout_train bernoulli_mask].
  specialize (IH (mkGenerator (tape g) (pos g + length r))).
  destruct (Dropout_train p (mkGenerator (tape g) (pos g + length r)) m)
    as [out g2].
  cbn [fst concat tape pos] in *. rewrite IH, length_app, seq_app, map_app.
  rewrite dropout_row_app by (rewrite length_map, length_seq; reflexivity).
  reflexivity.
Qed.

(** The generator that replays [mask] hands it out. *)
Lemma bernoulli_mask_replay (drawn mask : list bool) :
  bernoulli_mask (replay drawn mask) (length mask)
  = (mask, mkGenerator (tape (replay drawn mask))
             (length drawn + length mask)).
Proof.
  unfold bernoulli_mask, replay. cbn [tape pos]. f_equal.
  revert drawn. induction mask as [|k mask IH]; intros drawn; [reflexivity|].
  cbn [length seq map]. f_equal.
  - rewrite app_nth2, Nat.sub_diag by lia. reflexivity.
  - specialize (IH (drawn ++ [k])).
    rewrite length_app, Nat.add_1_r, <- app_assoc in IH. exact IH.
Qed.

Lemma mask_dist_length (p : R) (n : nat) (w : R) (mask : list bool) :
  In (w, mask) (mask_dist p n) -> length mask = n.
Proof.
  revert w mask. induction n as [|n IH]; intros w mask H; simpl in H.
  - destruct H as [H|[]]. injection H as _ <-. reflexivity.
  - apply in_flat_map in H as ([w0 m0] & H0 & H).
    specialize (IH _ _ H0). simpl in H.
    destruct H as [H|[H|[]]]; injection H as _ <-; simpl; rewrite IH;
      reflexivity.
Qed.

Lemma expect_ext_in {A : Type} (d : dist A) (f h : A -> R) :
  (forall w a, In (w, a) d -> f a = h a) -> expect d f = expect d h.
Proof.
  unfold expect. induction d as [|[w a] d IH]; intros H; [reflexivity|].
  simpl. rewrite (H w a) by (left; reflexivity). rewrite IH; [reflexivity|].
  intros w0 a0 H0. apply (H w0). right. exact H0.
Qed.

(** What a dropout layer in training mode returns when the generator
    replays [mask]. *)
Lemma Dropout_forward_replay (p : R) (a : Matrix) (drawn mask : list bool) :
  length mask = length (concat a) ->
  concat (fst (Dropout_forward p true (replay drawn mask) a))
  = dropout_row p mask (concat a).
Proof.
  intros H. unfold Dropout_forward. rewrite Dropout_train_flat.
  pose proof (bernoulli_mask_replay drawn mask) as E.
  apply (f_equal fst) in E. unfold bernoulli_mask in E. cbn [fst] in E.
  rewrite H in E. unfold replay in *. cbn [tape pos] in *.
  rewrite E. reflexivity.
Qed.

(** The forward pass in training mode, layer by layer. *)
Lemma Classifier_forward_dropout_train (m : Classifier) (g : Generator)
  (x : Tensor) (b : nat) :
  Classifier_wf m -> inferred_size x = Ok 784%nat ->
  hd 0%nat (shape x) = b -> training m = true ->
  exists x0 z1 h1 z2 h2 z3 h3 z,
    view_batch x = Ok x0 /\
    Linear_forward (fc1 m) x0 = Ok z1 /\
    Dropout_forward dropout_p true g (relu z1)
    = (h1, mkGenerator (tape g) (pos g + b * 256)) /\
    has_shape h1 b 256 /\
    concat h1
    = dropout_row dropout_p (map (tape g) (seq (pos g) (b * 256)))
        (concat (relu z1)) /\
    Linear_forward (fc2 m) h1 = Ok z2 /\
    Dropout_forward dropout_p true
      (mkGenerator (tape g) (pos g + b * 256)) (relu z2)
    = (h2, mkGenerator (tape g) (pos g + b * 256 + b * 128)) /\
    has_shape h2 b 128 /\
    concat h2
    = dropout_row dropout_p
        (map (tape g) (seq (pos g + b * 256) (b * 128)))
        (concat (relu z2)) /\
    Linear_forward (fc3 m) h2 = Ok z3 /\
    Dropout_forward dropout_p true
      (mkGenerator (tape g) (pos g + b * 256 + b * 128)) (relu z3)
    = (h3, mkGenerator (tape g)
             (pos g + b * 256 + b * 128 + b * 64)) /\
    has_shape h3 b 64 /\
    concat h3
    = dropout_row dropout_p
        (map (tape g) (seq (pos g + b * 256 + b * 128) (b * 64)))
        (concat (relu z3)) /\
    Linear_forward (fc4 m) h3 = Ok z /\
    has_shape z b 10 /\
    Classifier_forward_dropout m g x
    = Ok (log_softmax z,
          mkGenerator (tape g) (pos g + b * (256 + 128 + 64))).
Proof.
  intros (H1 & H2 & H3 & H4) Hx Hb Ht.
  destruct (view_batch_ok x _ Hx) as (x0 & Hv & S0). rewrite Hb in S0.
  unfold Classifier_forward_dropout. rewrite Hv, Ht. cbn [bind].
  unfold Dropout_forward.
  (* first hidden layer *)
  destruct (Linear_forward_ok _ _ _ _ _ H1 S0) as [E1 S1].
  rewrite E1. cbn [bind]. set (z1 := map (Linear_row (fc1 m)) x0) in *.
  apply relu_shape in S1.
  destruct (Dropout_train_shape dropout_p _ _ _ S1 g) as [D1 G1].
  pose proof (Dropout_train_flat dropout_p (relu z1) g) as F1.
  rewrite (length_concat_uniform 256 (relu z1) (proj2 S1)), (proj1 S1) in F1.
  destruct (Dropout_train dropout_p g (relu z1)) as [h1 g1] eqn:T1.
  cbn [fst snd] in D1, G1, F1. subst g1.
  (* second hidden layer *)
  destruct (Linear_forward_ok _ _ _ _ _ H2 D1) as [E2 S2].
  rewrite E2. cbn [bind]. set (z2 := map (Linear_row (fc2 m)) h1) in *.
  apply relu_shape in S2.
  destruct (Dropout_train_shape dropout_p _ _ _ S2
              (mkGenerator (tape g) (pos g + b * 256))) as [D2 G2].
  pose proof (Dropout_train_flat dropout_p (relu z2)
                (mkGenerator (tape g) (pos g + b * 256))) as F2.
  rewrite (length_concat_uniform 128 (relu z2) (proj2 S2)), (proj1 S2) in F2.
  destruct (Dropout_train dropout_p
              (mkGenerator (tape g) (pos g + b * 256)) (relu z2))
    as [h2 g2] eqn:T2.
  cbn [fst snd tape pos] in D2, G2, F2. subst g2.
  (* third hidden layer *)
  destruct (Linear_forward_ok _ _ _ _ _ H3 D2) as [E3 S3].
  rewrite E3. cbn [bind]. set (z3 := map (Linear_row (fc3 m)) h2) in *.
  apply relu_shape in S3.
  destruct (Dropout_train_shape dropout_p _ _ _ S3
              (mkGenerator (tape g) (pos g + b * 256 + b * 128)))
    as [D3 G3].
  pose proof (Dropout_train_flat dropout_p (relu z3)
                (mkGenerator (tape g) (pos g + b * 256 + b * 128))) as F3.
  rewrite (length_concat_uniform 64 (relu z3) (proj2 S3)), (proj1 S3) in F3.
  destruct (Dropout_train dropout_p
              (mkGenerator (tape g) (pos g + b * 256 + b * 128)) (relu z3))
    as [h3 g3] eqn:T3.
  cbn [fst snd tape pos] in D3, G3, F3. subst g3.
  (* the output layer *)
  destruct (Linear_forward_ok _ _ _ _ _ H4 D3) as [E4 S4].
  rewrite E4. cbn [bind].
  exists x0, z1, h1, z2, h2, z3, h3, (map (Linear_row (fc4 m)) h3).
  repeat (split; [first [reflexivity | assumption]|]).
  do 3 f_equal. lia.
Qed.

(** C4.  Dropout with p = 0.2 in the forward pass of the Classifier.  In
    training mode each of the three hidden activations goes through
    dropout before the next layer reads it: its elements, in row-major
    order, are zeroed or multiplied by 1/(1 - p) as the next outcomes of
    the generator say, the three layers reading 256, 128 and 64 outcomes
    per example one after the other, so that no two hidden activations
    share an outcome.  The output layer gets no dropout: the result is the
    log-softmax of the last affine layer on the third hidden activation,
    and no outcome is read for it.  When the outcomes a dropout layer
    reads follow the Bernoulli law (each kept with probability 1 - p,
    independently), every element is zeroed with probability p, two
    different elements independently, and the expected value of the
    output of the layer is its input.  In evaluation mode dropout is the
    identity and reads nothing, and the forward pass is the one without
    dropout. *)
Theorem dropout_on_hidden_layers_only (m : Classifier) (g : Generator)
  (x : Tensor) (b : nat) (a : Matrix) (drawn : list bool) (i j : nat) :
  Classifier_wf m -> inferred_size x = Ok 784%nat ->
  hd 0%nat (shape x) = b ->
  (i < length (concat a))%nat -> (j < length (concat a))%nat -> i <> j ->
  (training m = true ->
   exists x0 z1 h1 z2 h2 z3 h3 z,
     view_batch x = Ok x0 /\
     Linear_forward (fc1 m) x0 = Ok z1 /\
     Dropout_forward dropout_p true g (relu z1)
     = (h1, mkGenerator (tape g) (pos g + b * 256)) /\
     has_shape h1 b 256 /\
     concat h1
     = dropout_row dropout_p (map (tape g) (seq (pos g) (b * 256)))
         (concat (relu z1)) /\
     Linear_forward (fc2 m) h1 = Ok z2 /\
     Dropout_forward dropout_p true
       (mkGenerator (tape g) (pos g + b * 256)) (relu z2)
     = (h2, mkGenerator (tape g) (pos g + b * 256 + b * 128)) /\
     has_shape h2 b 128 /\
     concat h2
     = dropout_row dropout_p
         (map (tape g) (seq (pos g + b * 256) (b * 128)))
         (concat (relu z2)) /\
     Linear_forward (fc3 m) h2 = Ok z3 /\
     Dropout_forward dropout_p true
       (mkGenerator (tape g) (pos g + b * 256 + b * 128)) (relu z3)
     = (h3, mkGenerator (tape g)
              (pos g + b * 256 + b * 128 + b * 64)) /\
     has_shape h3 b 64 /\
     concat h3
     = dropout_row dropout_p
         (map (tape g) (seq (pos g + b * 256 + b * 128) (b * 64)))
         (concat (relu z3)) /\
     Linear_forward (fc4 m) h3 = Ok z /\
     has_shape z b 10 /\
     Classifier_forward_dropout m g x
     = Ok (log_softmax z,
           mkGenerator (tape g) (pos g + b * (256 + 128 + 64)))) /\
  (forall mask r k,
     length mask = length r -> (k < length r)%nat ->
     nth k (dropout_row dropout_p mask r) 0
     = if nth k mask true then nth k r 0 * (1 / (1 - dropout_p)) else 0) /\
  expect (mask_dist dropout_p (length (concat a)))
    (fun mask =>
       if nth i (fst (bernoulli_mask (replay drawn mask)
                        (length (concat a)))) true
       then 0 else 1) = 2 / 10 /\
  expect (mask_dist dropout_p (length (concat a)))
    (fun mask =>
       (if nth i (fst (bernoulli_mask (replay drawn mask)
                         (length (concat a)))) true
        then 0 else 1) *
       (if nth j (fst (bernoulli_mask (replay drawn mask)
                         (length (concat a)))) true
        then 0 else 1)) = (2 / 10) * (2 / 10) /\
  expect (mask_dist dropout_p (length (concat a)))
    (fun mask =>
       nth i (concat (fst (Dropout_forward dropout_p true
                             (replay drawn mask) a))) 0)
  = nth i (concat a) 0 /\
  Dropout_forward dropout_p false g a = (a, g) /\
  (training m = false ->
   Classifier_forward_dropout m g x = plain_forward m g x).
Proof.
  intros Hm Hx Hb Hi Hj Hij.
  assert (Hmask : forall w mask,
            In (w, mask) (mask_dist dropout_p (length (concat a))) ->
            fst (bernoulli_mask (replay drawn mask) (length (concat a)))
            = mask).
  { intros w mask Hin. apply mask_dist_length in Hin.
    rewrite <- Hin, bernoulli_mask_replay. reflexivity. }
  split; [|split; [|split; [|split; [|split; [|split]]]]].
  - intros Ht. apply Classifier_forward_dropout_train; assumption.
  - intros mask r k Hlen Hk. rewrite dropout_row_nth by assumption.
    reflexivity.
  - rewrite (expect_ext_in _ _ (fun mask => if nth i mask true then 0 else 1))
      by (intros w mask Hin; rewrite (Hmask w mask Hin); reflexivity).
    rewrite (mask_marginal dropout_p _ i (fun k => if k then 0 else 1))
      by exact Hi.
    unfold dropout_p. lra.
  - rewrite (expect_ext_in _ _
               (fun mask => (if nth i mask true then 0 else 1) *
                            (if nth j mask true then 0 else 1)))
      by (intros w mask Hin; rewrite (Hmask w mask Hin); reflexivity).
    rewrite (mask_independent dropout_p _ i j
               (fun k => if k then 0 else 1) (fun k => if k then 0 else 1))
      by assumption.
    unfold dropout_p. lra.
  - rewrite (expect_ext_in _ _
               (fun mask => nth i (dropout_row dropout_p mask (concat a)) 0)).
    + apply dropout_expectation; [unfold dropout_p; lra | exact Hi].
    + intros w mask Hin. apply mask_dist_length in Hin.
      rewrite Dropout_forward_replay by exact Hin. reflexivity.
  - reflexivity.
  - apply Classifier_forward_dropout_eval.
Qed.

(** On the zero-initialised Classifier in training mode, with a generator
    that drops every other element: the first hidden activation of one
    image reads the outcomes 0 to 255 and the pass reads 448 of them; and
    the expected value of the second of three activations. *)
Lemma dropout_on_hidden_layers_only_witness :
  (exists z1 h1 z,
     Linear_forward (fc1 zero_classifier) [repeat 0 784] = Ok z1 /\
     has_shape h1 1 256 /\
     concat h1
     = dropout_row dropout_p (map Nat.even (seq 0 256)) (concat (relu z1)) /\
     Classifier_forward_dropout zero_classifier alternating zero_image
     = Ok (log_softmax z, mkGenerator Nat.even 448)) /\
  expect (mask_dist dropout_p 3)
    (fun mask =>
       nth 1 (concat (fst (Dropout_forward dropout_p true (replay [] mask)
                             [[1; 2; 3]]))) 0) = 2.
Proof.
  pose proof (dropout_on_hidden_layers_only zero_classifier alternating
                zero_image 1 [[1; 2; 3]] [] 1 2 zero_classifier_wf
                zero_image_size eq_refl
                ltac:(simpl; lia) ltac:(simpl; lia) ltac:(lia))
    as (F & _ & _ & _ & E & _ & _).
  split; [|exact E].
  destruct (F eq_refl)
    as (x0 & z1 & h1 & z2 & h2 & z3 & h3 & z & Hv & E1 & _ & S1 & C1 & _ & _
        & _ & _ & _ & _ & _ & _ & _ & _ & Ef).
  injection Hv as <-.
  exists z1, h1, z. split; [exact E1|]. split; [exact S1|].
  split; [exact C1 | exact Ef].
Defined.

(** ** Gradient buffers and parameter updates *)

Lemma map2_length {A B C : Type} (f : A -> B -> C) (u : list A) (v : list B) :
  length u = length v -> length (map2 f u v) = length u.
Proof.
  intros H. unfold map2. rewrite length_map, length_combine. lia.
Qed.

Lemma map2_zeros_like (g d : list R) :
  length g = length d -> map2 Rplus (zeros_like g) d = d.
Proof.
  unfold map2, zeros_like. revert d.
  induction g as [|a g IH]; intros [|b d] H; simpl in *; try discriminate;
    [reflexivity|].
  rewrite IH by lia. f_equal. lra.
Qed.

Lemma same_shape_length (p q : Param) :
  Param_wf p -> same_shape p q -> length (pdata q) = length (pdata p).
Proof.
  intros [Hp _] [Hs [Hq _]]. rewrite Hp, Hq, Hs. reflexivity.
Qed.

Lemma zero_grad_param_shape (p : Param) :
  Param_wf p -> same_shape p (zero_grad_param p).
Proof.
  intros [Hd Hg]. unfold zero_grad_param, same_shape, Param_wf.
  destruct (grad p) as [g|] eqn:E; simpl; [|rewrite E; auto].
  unfold zeros_like. rewrite length_map. auto.
Qed.

Lemma accumulate_grad_shape (p : Param) (d : list R) :
  Param_wf p -> length d = length (pdata p) ->
  same_shape p (accumulate_grad p d).
Proof.
  intros [Hd Hg] Hlen. unfold accumulate_grad, same_shape, Param_wf. simpl.
  repeat split; [exact Hd|]. destruct (grad p) as [g|]; [|exact Hlen].
  rewrite map2_length; lia.
Qed.

(** After [zero_grad], a backward pass leaves exactly its own gradient in
    the buffer. *)
Lemma accumulate_after_zero_grad (p : Param) (d : list R) :
  Param_wf p -> length d = length (pdata p) ->
  accumulate_grad (zero_grad_param p) d = mkParam (pshape p) (pdata p) (Some d).
Proof.
  intros [Hd Hg] Hlen. unfold accumulate_grad, zero_grad_param.
  destruct (grad p) as [g|] eqn:E; simpl; [|rewrite E; reflexivity].
  rewrite map2_zeros_like by lia. reflexivity.
Qed.

(** The parameters with the given gradients in their buffers. *)
Lemma accumulate_grads_after_zero_grad (ps : list Param) (ds : list (list R)) :
  Forall Param_wf ps ->
  Forall2 (fun p d => length d = length (pdata p)) ps ds ->
  accumulate_grads (map zero_grad_param ps) ds = with_grads ps ds.
Proof.
  intros Hwf H. induction H as [|p d ps ds Hpd H IH]; [reflexivity|].
  inversion Hwf as [|? ? Hp Hps]; subst. simpl.
  rewrite accumulate_after_zero_grad by assumption.
  rewrite IH by assumption. reflexivity.
Qed.

Lemma Forall2_map_r {A B : Type} (P : A -> B -> Prop) (f : A -> B)
  (l : list A) :
  Forall (fun a => P a (f a)) l -> Forall2 P l (map f l).
Proof.
  induction 1; simpl; constructor; assumption.
Qed.

Lemma zero_grad_shapes (ps : list Param) :
  Forall Param_wf ps -> Forall2 same_shape ps (map zero_grad_param ps).
Proof.
  intros H. apply Forall2_map_r. revert H. apply Forall_impl.
  apply zero_grad_param_shape.
Qed.

Lemma accumulate_grads_shapes (ps : list Param) (ds : list (list R)) :
  Forall Param_wf ps ->
  Forall2 (fun p d => length d = length (pdata p)) ps ds ->
  Forall2 same_shape ps (accumulate_grads ps ds).
Proof.
  intros Hwf H. induction H as [|p d ps ds Hpd H IH]; [constructor|].
  inversion Hwf as [|? ? Hp Hps]; subst. simpl. constructor.
  - apply accumulate_grad_shape; assumption.
  - apply IH. exact Hps.
Qed.

Lemma same_shapes_wf (ps qs : list Param) :
  Forall2 same_shape ps qs -> Forall Param_wf qs.
Proof.
  induction 1 as [|p q ps qs [_ Hq] _ IH]; constructor; assumption.
Qed.

Lemma same_shapes_sizes (ps qs : list Param) :
  Forall Param_wf ps -> Forall2 same_shape ps qs -> sizes qs = sizes ps.
Proof.
  intros Hwf H. induction H as [|p q ps qs Hpq _ IH]; [reflexivity|].
  inversion Hwf as [|? ? Hp Hps]; subst. unfold sizes in *. simpl.
  rewrite (same_shape_length p q Hp Hpq), IH by exact Hps. reflexivity.
Qed.

(** *** SGD *)

Lemma SGD_update_shape (lr : R) (p : Param) :
  Param_wf p -> same_shape p (SGD_update lr p).
Proof.
  intros [Hd Hg]. unfold SGD_update, same_shape, Param_wf.
  destruct (grad p) as [g|] eqn:E; simpl; [|rewrite E; auto].
  rewrite map2_length by lia. auto.
Qed.

Lemma SGD_step_spec (o : SGD) (ps : list Param) :
  Forall Param_wf ps ->
  Forall2 same_shape ps (fst (optimizer_update o ps)) /\
  snd (optimizer_update o ps) = o.
Proof.
  intros H. simpl. split; [|reflexivity]. apply Forall2_map_r.
  revert H. apply Forall_impl. apply SGD_update_shape.
Qed.

(** *** Adam *)

Lemma Adam_update_spec (o : Adam) (p : Param) (st : option AdamState) :
  Param_wf p -> AdamState_wf (length (pdata p)) st ->
  same_shape p (fst (Adam_update o p st)) /\
  AdamState_wf (length (pdata p)) (snd (Adam_update o p st)).
Proof.
  intros [Hd Hg] Hst. unfold Adam_update.
  destruct (grad p) as [g|] eqn:E; simpl.
  - set (s0 := match st with Some s => s | None => _ end).
    assert (H0 : length (exp_avg s0) = length (pdata p) /\
                 length (exp_avg_sq s0) = length (pdata p)).
    { subst s0. destruct st as [s|]; [exact Hst|]. simpl.
      unfold zeros_like. rewrite length_map. auto. }
    destruct H0 as [Ha Hq].
    assert (Lm : length (map2 (fun a d => a * beta1 o + (1 - beta1 o) * d)
                           (exp_avg s0) g) = length (pdata p))
      by (rewrite map2_length; lia).
    assert (Lv : length (map2 (fun a d => a * beta2 o + (1 - beta2 o) * d * d)
                           (exp_avg_sq s0) g) = length (pdata p))
      by (rewrite map2_length; lia).
    assert (Lq : length (map2 Rdiv
                   (map2 (fun a d => a * beta1 o + (1 - beta1 o) * d)
                      (exp_avg s0) g)
                   (map (fun a => sqrt a + eps o)
                      (map2 (fun a d => a * beta2 o + (1 - beta2 o) * d * d)
                         (exp_avg_sq s0) g))) = length (pdata p))
      by (rewrite map2_length; rewrite ?length_map; lia).
    repeat split; simpl; try assumption.
    + rewrite map2_length; lia.
    + rewrite map2_length; lia.
  - split; [|exact Hst]. split; [reflexivity|].
    split; [exact Hd | rewrite E; exact I].
Qed.

Lemma Adam_updates_spec (o : Adam) (ps : list Param)
  (sts : list (option AdamState)) :
  Forall Param_wf ps -> Forall2 AdamState_wf (sizes ps) sts ->
  Forall2 same_shape ps (fst (Adam_updates o ps sts)) /\
  Forall2 AdamState_wf (sizes ps) (snd (Adam_updates o ps sts)).
Proof.
  intros Hwf. revert sts. induction Hwf as [|p ps Hp Hps IH]; intros sts Hst.
  - inversion Hst; subst. simpl. split; constructor.
  - inversion Hst as [|n st ns sts' Hn Hsts]; subst. simpl.
    destruct (Adam_update_spec o p st Hp Hn) as [H1 H2].
    destruct (Adam_update o p st) as [p' st'].
    destruct (IH sts' Hsts) as [H3 H4].
    destruct (Adam_updates o ps sts') as [ps'' sts''].
    simpl in *. split; constructor; assumption.
Qed.

Lemma Adam_step_spec (o : Adam) (ps : list Param) :
  Forall Param_wf ps -> Adam_wf o (sizes ps) ->
  Forall2 same_shape ps (fst (optimizer_update o ps)) /\
  Adam_wf (snd (optimizer_update o ps)) (sizes ps).
Proof.
  intros Hwf Ho. simpl. unfold Adam_step, Adam_wf in *.
  destruct (Adam_updates_spec o ps (state o) Hwf Ho) as [H1 H2].
  destruct (Adam_updates o ps (state o)) as [ps' sts']. simpl in *.
  split; assumption.
Qed.

Lemma optim_Adam_wf (ps : list Param) (lr : R) :
  Adam_wf (optim_Adam ps lr) (sizes ps).
Proof.
  unfold Adam_wf, optim_Adam, sizes. simpl.
  induction ps; simpl; constructor; [exact I | assumption].
Qed.

(** ** Modules keep their shape when their parameters are replaced *)

Lemma Linear_load_dims (l : Linear) (i o : nat) (w b : Param) :
  Linear_dims l i o -> same_shape (weight l) w -> same_shape (bias l) b ->
  Linear_dims (mkLinear (in_features l) (out_features l) w b) i o.
Proof.
  intros (Hi & Ho & Hw & Hb & _ & _) [Sw Ww] [Sb Wb].
  unfold Linear_dims, Linear_wf. simpl.
  split; [exact Hi|]. split; [exact Ho|]. split; [congruence|].
  split; [congruence|]. split; assumption.
Qed.

Lemma Linear_dims_params (l : Linear) (i o : nat) :
  Linear_dims l i o -> Param_wf (weight l) /\ Param_wf (bias l).
Proof. intros (_ & _ & _ & _ & Hw & Hb). split; assumption. Qed.

Lemma Classifier_params_wf (m : Classifier) :
  Classifier_wf m -> Forall Param_wf (parameters m).
Proof.
  intros (H1 & H2 & H3 & H4). simpl.
  unfold Classifier_parameters, Linear_parameters. simpl.
  apply Linear_dims_params in H1, H2, H3, H4.
  repeat (apply Forall_cons; [tauto|]). apply Forall_nil.
Qed.

Lemma Classifier_load_spec (m : Classifier) (ps : list Param) :
  Classifier_wf m -> Forall2 same_shape (parameters m) ps ->
  Classifier_wf (load_parameters m ps) /\
  parameters (load_parameters m ps) = ps /\
  training (load_parameters m ps) = training m.
Proof.
  intros (H1 & H2 & H3 & H4) H. simpl in H.
  unfold Classifier_parameters, Linear_parameters in H. simpl in H.
  invert_Forall2. split; [|split; reflexivity].
  unfold Classifier_wf. simpl.
  split; [|split; [|split]]; apply Linear_load_dims; assumption.
Qed.

Lemma mnist_params_wf (s : Sequential) :
  mnist_model_wf s -> Forall Param_wf (parameters s).
Proof.
  intros (l0 & l2 & l4 & -> & H0 & H2 & H4). simpl.
  apply Linear_dims_params in H0, H2, H4.
  repeat (apply Forall_cons; [tauto|]). apply Forall_nil.
Qed.

Lemma mnist_load_spec (s : Sequential) (ps : list Param) :
  mnist_model_wf s -> Forall2 same_shape (parameters s) ps ->
  mnist_model_wf (load_parameters s ps) /\
  parameters (load_parameters s ps) = ps.
Proof.
  intros (l0 & l2 & l4 & -> & H0 & H2 & H4) H. simpl in H.
  invert_Forall2. simpl. split; [|reflexivity].
  eexists _, _, _. split; [reflexivity|].
  split; [|split]; apply Linear_load_dims; assumption.
Qed.

Lemma nll_terms_ok (out : Matrix) (labels : list nat) (c : nat) :
  Forall (fun r => length r = c) out -> length labels = length out ->
  Forall (fun y => (y < c)%nat) labels ->
  exists ts, nll_terms out labels = Ok ts /\ length ts = length out.
Proof.
  intros Hrows. revert labels.
  induction Hrows as [|r out Hr _ IH]; intros [|y labels] Hlen Hlab;
    try discriminate.
  - exists []. split; reflexivity.
  - inversion Hlab as [|? ? Hy Hlab']; subst. simpl.
    destruct (Nat.ltb_spec y (length r)); [|lia].
    destruct (IH labels) as (ts & E & L); [simpl in Hlen; lia | assumption |].
    rewrite E. simpl. eexists. split; [reflexivity|]. simpl. rewrite L.
    reflexivity.
Qed.

Lemma NLLLoss_ok (out : Matrix) (labels : list nat) (b c : nat) :
  has_shape out b c -> length labels = b ->
  Forall (fun y => (y < c)%nat) labels ->
  exists l, NLLLoss out labels = Ok l.
Proof.
  intros [Hb Hrows] Hlen Hlab. unfold NLLLoss.
  destruct (nll_terms_ok out labels c Hrows) as (ts & E & _);
    [lia | assumption |].
  rewrite E. simpl. eexists. reflexivity.
Qed.

(** ** One training batch *)

Section TrainBatch.

Context {M O X : Type} {Mod : Module M} {Opt : Optimizer O}.

Variable wfM : M -> Prop.
Variable wfO : O -> list nat -> Prop.
Variable forward : M -> Generator -> X -> result (Matrix * Generator).
Variable autograd : Recorded M X -> list nat -> list (list R).

Hypothesis load_ok : forall m ps,
  wfM m -> Forall2 same_shape (parameters m) ps ->
  wfM (load_parameters m ps) /\ parameters (load_parameters m ps) = ps.
Hypothesis params_ok : forall m, wfM m -> Forall Param_wf (parameters m).
Hypothesis opt_ok : forall o ps,
  Forall Param_wf ps -> wfO o (sizes ps) ->
  Forall2 same_shape ps (fst (optimizer_update o ps)) /\
  wfO (snd (optimizer_update o ps)) (sizes ps).
Hypothesis autograd_ok : autograd_wf autograd.

Lemma train_batch_spec (images : X) (labels : list nat) (b : nat)
  (w : World M O) :
  World_ok wfM wfO w -> grad_enabled w = true ->
  (forall m g, wfM m ->
     exists out g', forward m g images = Ok (out, g') /\
                    has_shape out b 10) ->
  length labels = b -> Forall (fun y => (y < 10)%nat) labels ->
  exists w' out l,
    train_batch forward autograd images labels w = Ok (tt, w') /\
    World_ok wfM wfO w' /\
    forward (update_parameters (map zero_grad_param) (model w))
      (generator w) images = Ok (out, generator w') /\
    NLLLoss out labels = Ok l /\
    parameters (model w')
    = fst (optimizer_update (optimizer w)
             (with_grads (parameters (model w))
                (batch_gradient autograd w images labels))) /\
    grad_enabled w' = true /\
    running_loss w' = running_loss w + l /\
    test_loss w' = test_loss w /\
    accuracy w' = accuracy w /\
    stdout w' = stdout w /\
    trace w' = trace w ++ train_events.
Proof.
  intros [Hm Ho] Hg Hfwd Hlen Hlab.
  pose proof (params_ok _ Hm) as Hps.
  (* zero_grad *)
  destruct (load_ok (model w) (map zero_grad_param (parameters (model w)))
              Hm (zero_grad_shapes _ Hps)) as [Hz Ez].
  set (mz := update_parameters (map zero_grad_param) (model w)) in *.
  (* forward and loss *)
  destruct (Hfwd mz (generator w) Hz) as (out & g' & Ef & So).
  destruct (NLLLoss_ok out labels b 10 So Hlen Hlab) as (l & El).
  (* backward *)
  set (ds := autograd (mkRecorded mz (generator w) images) labels).
  pose proof (autograd_ok (mkRecorded mz (generator w) images) labels) as Hds.
  simpl in Hds. fold ds in Hds. unfold mz, update_parameters in Hds.
  rewrite Ez in Hds. 
  assert (Hds0 : Forall2 (fun p d => length d = length (pdata p))
                   (parameters (model w)) ds).
  { clear - Hds Hps. revert Hds. generalize ds.
    induction Hps as [|p ps Hp Hps IH]; intros ds0 H; simpl in H;
      inversion H; subst; constructor.
    - destruct Hp as [_ Hp]. unfold zero_grad_param in *.
      destruct (grad p); simpl in *; assumption.
    - apply IH; assumption. }
  assert (Eb : accumulate_grads (parameters mz) ds
               = with_grads (parameters (model w)) ds).
  { unfold mz, update_parameters. rewrite Ez.
    apply accumulate_grads_after_zero_grad; assumption. }
  assert (Sb : Forall2 same_shape (parameters mz)
                 (accumulate_grads (parameters mz) ds)).
  { apply accumulate_grads_shapes.
    - apply params_ok. exact Hz.
    - unfold mz, update_parameters. rewrite Ez. exact Hds. }
  destruct (load_ok mz (accumulate_grads (parameters mz) ds) Hz Sb)
    as [Hb Eb'].
  set (mb := load_parameters mz (accumulate_grads (parameters mz) ds)) in *.
  (* step *)
  assert (Sz : sizes (parameters mb) = sizes (parameters (model w))).
  { rewrite Eb'. rewrite (same_shapes_sizes _ _ (params_ok _ Hz) Sb).
    unfold mz, update_parameters. rewrite Ez.
    apply same_shapes_sizes; [exact Hps | apply zero_grad_shapes; exact Hps]. }
  rewrite <- Sz in Ho.
  destruct (opt_ok (optimizer w) (parameters mb) (params_ok _ Hb) Ho)
    as [Ss Ho'].
  destruct (optimizer_update (optimizer w) (parameters mb)) as [ps' o'] eqn:Eo.
  simpl in Ss, Ho'.
  destruct (load_ok mb ps' Hb Ss) as [Hs Es].
  eexists _, out, l.
  run_unfold. world_simpl.
  fold mz. rewrite Ef. world_simpl. rewrite El, Hg. world_simpl.
  fold ds.
  change (update_parameters (fun ps0 => accumulate_grads ps0 ds) mz) with mb.
  rewrite Eo.
  split; [reflexivity|]. world_simpl.
  split.
  { unfold World_ok. world_simpl. split; [exact Hs|].
    rewrite Es. rewrite (same_shapes_sizes _ _ (params_ok _ Hb) Ss).
    exact Ho'. }
  split; [reflexivity|]. split; [reflexivity|].
  split.
  { rewrite Es. unfold batch_gradient. fold mz. fold ds.
    rewrite <- Eb, <- Eb'. rewrite Eo. reflexivity. }
  repeat split; try reflexivity; try exact Hg.
  unfold train_events. rewrite <- !app_assoc. reflexivity.
Qed.




End TrainBatch.

(** ** Loops *)

Lemma for_each_ind {W B : Type} (I : list B -> W -> Prop)
  (body : B -> Run W unit) (l : list B) :
  (forall done x w, In x l -> I done w ->
     exists w', body x w = Ok (tt, w') /\ I (done ++ [x]) w') ->
  forall w, I [] w -> exists w', for_each l body w = Ok (tt, w') /\ I l w'.
Proof.
  intros Hbody.
  assert (G : forall rest done w, l = done ++ rest -> I done w ->
            exists w', for_each rest body w = Ok (tt, w') /\
                       I (done ++ rest) w').
  { induction rest as [|x rest IH]; intros done w El Hw.
    - exists w. rewrite app_nil_r. split; [reflexivity | exact Hw].
    - destruct (Hbody done x w) as (w1 & E1 & H1); [|exact Hw|].
      { rewrite El. apply in_or_app. right. left. reflexivity. }
      destruct (IH (done ++ [x]) w1) as (w2 & E2 & H2); [|exact H1|].
      { rewrite <- app_assoc. exact El. }
      exists w2. simpl. unfold then_. rewrite E1.
      rewrite <- app_assoc in H2. split; assumption. }
  intros w Hw. apply (G l [] w); [reflexivity | exact Hw].
Qed.

Lemma for_each_preserves {W B A : Type} (f : W -> A) (body : B -> Run W unit)
  (l : list B) :
  (forall x w u w', body x w = Ok (u, w') -> f w' = f w) ->
  forall w u w', for_each l body w = Ok (u, w') -> f w' = f w.
Proof.
  intros Hbody. induction l as [|x l IH]; intros w u w' E; simpl in E.
  - unfold ret in E. injection E as _ <-. reflexivity.
  - unfold then_ in E. destruct (body x w) as [[u1 w1]|] eqn:E1;
      [|discriminate].
    rewrite (IH _ _ _ E). eapply Hbody. exact E1.
Qed.

Lemma concat_repeat_snoc {A : Type} (l : list A) (n : nat) :
  concat (repeat l n) ++ l = concat (repeat l (S n)).
Proof.
  induction n as [|n IH]; simpl; [rewrite app_nil_r; reflexivity|].
  rewrite <- app_assoc. simpl in IH. rewrite IH. reflexivity.
Qed.

(** ** One validation batch *)

Section ValidateBatch.

Context {M O X : Type} {Mod : Module M} {Opt : Optimizer O}.

Variable forward : M -> Generator -> X -> result (Matrix * Generator).

(** Validation reads the model and never writes it: parameters, gradient
    buffers and optimizer are those it found. *)
Lemma validate_batch_frame {Tk : Topk} (images : X) (labels : list nat)
  (w : World M O) (u : unit) (w' : World M O) :
  validate_batch forward images labels w = Ok (u, w') ->
  model w' = model w /\ optimizer w' = optimizer w /\
  grad_enabled w' = grad_enabled w /\ stdout w' = stdout w /\
  running_loss w' = running_loss w.
Proof.
  run_unfold.
  destruct (forward (model w) (generator w) images) as [[out g]|];
    [|discriminate].
  world_simpl.
  destruct (NLLLoss out labels) as [l|]; [|discriminate]. world_simpl.
  destruct (batch_accuracy out labels) as [a|]; [|discriminate].
  intros E. injection E as _ <-. world_simpl. repeat split.
Qed.

Lemma validate_batch_spec {Tk : Topk} (images : X) (labels : list nat) (b : nat)
  (w : World M O) (out : Matrix) (g : Generator) :
  forward (model w) (generator w) images = Ok (out, g) ->
  has_shape out b 10 -> length labels = b ->
  Forall (fun y => (y < 10)%nat) labels ->
  exists w' l,
    validate_batch forward images labels w = Ok (tt, w') /\
    NLLLoss out labels = Ok l /\
    model w' = model w /\ optimizer w' = optimizer w /\
    generator w' = g /\ grad_enabled w' = grad_enabled w /\
    running_loss w' = running_loss w /\
    test_loss w' = test_loss w + l /\
    accuracy w' = accuracy w + INR (correct_rows out labels) / INR b /\
    stdout w' = stdout w /\
    trace w' = trace w ++ [EvForward (grad_enabled w); EvLoss; EvAccuracy].
Proof.
  intros Ef So Hlen Hlab.
  destruct (NLLLoss_ok out labels b 10 So Hlen Hlab) as (l & El).
  pose proof (batch_accuracy_value out labels b 10 So ltac:(lia) Hlen) as Ea.
  eexists _, l. run_unfold. rewrite Ef. world_simpl. rewrite El.
  world_simpl. rewrite Ea. world_simpl.
  split; [reflexivity|]. world_simpl. repeat split.
  rewrite <- !app_assoc. reflexivity.
Qed.

End ValidateBatch.

(** ** The validation pass *)

Lemma predicted_class_is_argmax {Tk : Topk} (r : list R) :
  r <> [] -> is_argmax (map exp r) (predicted_class r).
Proof.
  intros Hr. unfold predicted_class. apply top1_row_is_argmax.
  destruct r; [congruence | discriminate].
Qed.

Lemma predicted_classes_are_argmax {Tk : Topk} (out : Matrix) (b c : nat) :
  has_shape out b c -> (0 < c)%nat ->
  Forall (fun r => is_argmax (map exp r) (predicted_class r)) out.
Proof.
  intros [_ Hrows] Hc. revert Hrows. apply Forall_impl. intros r Hr.
  apply predicted_class_is_argmax. intros ->. simpl in Hr. lia.
Qed.

Section ValidationLoop.

Context {O : Type} {Opt : Optimizer O}.

Variable forward : Classifier -> Generator -> Tensor
                   -> result (Matrix * Generator).

Lemma validation_loop_spec {Tk : Topk}
  (batches : list Batch) (w : World Classifier O) :
  (forall g x, forward (model w) g x = plain_forward (model w) g x) ->
  Classifier_wf (model w) -> Forall Batch_valid batches ->
  exists w' accs losses,
    for_each batches (fun b => validate_batch forward (fst b) (snd b)) w
    = Ok (tt, w') /\
    model w' = model w /\ optimizer w' = optimizer w /\
    generator w' = generator w /\ grad_enabled w' = grad_enabled w /\
    running_loss w' = running_loss w /\ stdout w' = stdout w /\
    test_loss w' = test_loss w + sum_list losses /\
    accuracy w' = accuracy w + sum_list accs /\
    Forall2 (batch_fraction_correct (model w)) batches accs /\
    Forall2 (batch_loss (model w)) batches losses /\
    trace w'
    = trace w ++ concat (repeat [EvForward (grad_enabled w); EvLoss;
                                 EvAccuracy] (length batches)).
Proof.
  intros Hfwd Hm Hvalid.
  pose (I := fun (done : list Batch) (w1 : World Classifier O) =>
    exists accs losses,
      model w1 = model w /\ optimizer w1 = optimizer w /\
      generator w1 = generator w /\ grad_enabled w1 = grad_enabled w /\
      running_loss w1 = running_loss w /\ stdout w1 = stdout w /\
      test_loss w1 = test_loss w + sum_list losses /\
      accuracy w1 = accuracy w + sum_list accs /\
      Forall2 (batch_fraction_correct (model w)) done accs /\
      Forall2 (batch_loss (model w)) done losses /\
      trace w1
      = trace w ++ concat (repeat [EvForward (grad_enabled w); EvLoss;
                                   EvAccuracy] (length done))).
  destruct (for_each_ind I
              (fun b => validate_batch forward (fst b) (snd b)) batches)
    with (w := w) as (w' & E & accs & losses & H).
  - intros done [images labels] w1 Hin
      (accs & losses & Em & Eo & Eg & Ege & Er & Es & Et & Ea & Fa & Fl & Etr).
    rewrite Forall_forall in Hvalid.
    destruct (Hvalid _ Hin) as (Hsz & Hlen & Hlab). simpl in Hsz, Hlen, Hlab.
    destruct (Classifier_forward_ok (model w) images Hm Hsz) as (out & Ef & So).
    destruct (validate_batch_spec forward images labels
                (hd 0%nat (shape images)) w1 out (generator w1))
      as (w2 & l & E2 & El & H2); try assumption.
    { rewrite Em, Hfwd. unfold plain_forward. rewrite Ef. reflexivity. }
    destruct H2 as (Em2 & Eo2 & Eg2 & Ege2 & Er2 & Et2 & Ea2 & Es2 & Etr2).
    exists w2. simpl fst. simpl snd. split; [exact E2|].
    exists (accs ++ [INR (correct_rows out labels)
                     / INR (hd 0%nat (shape images))]), (losses ++ [l]).
    rewrite !sum_list_app. simpl sum_list.
    repeat split; try congruence.
    + rewrite Et2, Et. lra.
    + rewrite Ea2, Ea. lra.
    + apply Forall2_app; [exact Fa|]. constructor; [|constructor].
      exists out. simpl. rewrite Hlen. repeat split; try assumption.
      apply (predicted_classes_are_argmax out _ 10 So). lia.
    + apply Forall2_app; [exact Fl|]. constructor; [|constructor].
      exists out. simpl. split; assumption.
    + rewrite Etr2, Etr, Ege. rewrite <- app_assoc. f_equal.
      rewrite length_app. simpl length. rewrite Nat.add_1_r.
      apply concat_repeat_snoc.
  - exists [], []. simpl. rewrite app_nil_r.
    repeat split; try constructor; lra.
  - exists w', accs, losses. split; [exact E|]. exact H.
Qed.

End ValidationLoop.

Lemma py_div_ok (x : R) (n : nat) : n <> 0%nat -> py_div x n = Ok (x / INR n).
Proof.
  intros H. unfold py_div. destruct (Nat.eqb_spec n 0); [contradiction|].
  reflexivity.
Qed.

Lemma set_training_wf (t : bool) (m : Classifier) :
  Classifier_wf m -> Classifier_wf (set_training t m).
Proof. intros H. exact H. Qed.

(** The validation pass of the first loop. *)
Lemma evaluate_spec {Tk : Topk}
  (e epochs : nat) (trainloader testloader : DataLoader)
  (w : World Classifier Adam) :
  Classifier_wf (model w) -> Forall Batch_valid (iterate testloader e) ->
  num_batches trainloader <> 0%nat -> num_batches testloader <> 0%nat ->
  exists w' accs losses,
    evaluate e epochs trainloader testloader w = Ok (tt, w') /\
    model w' = model w /\ optimizer w' = optimizer w /\
    generator w' = generator w /\ grad_enabled w' = grad_enabled w /\
    running_loss w' = running_loss w /\
    test_loss w' = sum_list losses /\ accuracy w' = sum_list accs /\
    Forall2 (batch_fraction_correct (model w)) (iterate testloader e) accs /\
    Forall2 (batch_loss (model w)) (iterate testloader e) losses /\
    stdout w'
    = stdout w ++
      [Summary (e + 1) epochs
         (running_loss w / INR (num_batches trainloader))
         (sum_list losses / INR (num_batches testloader))
         (sum_list accs / INR (num_batches testloader))] /\
    trace w'
    = trace w ++
      concat (repeat eval_events (length (iterate testloader e))) ++
      [EvPrint e].
Proof.
  intros Hm Hvalid Htr Hte.
  set (w0 := set_grad_enabled false (set_accuracy 0 (set_test_loss 0 w))).
  destruct (validation_loop_spec plain_forward (iterate testloader e) w0)
    as (w1 & accs & losses & E & Em & Eo & Eg & Ege & Er & Es & Et & Ea
        & Fa & Fl & Etr); try assumption; try reflexivity.
  exists (set_grad_enabled (grad_enabled w)
            (set_trace (trace w1 ++ [EvPrint e])
               (set_stdout
                  (stdout w1 ++
                   [Summary (e + 1) epochs
                      (running_loss w1 / INR (num_batches trainloader))
                      (test_loss w1 / INR (num_batches testloader))
                      (accuracy w1 / INR (num_batches testloader))]) w1))),
    accs, losses.
  split.
  { unfold evaluate, no_grad, print_summary, print, emit, then_, modify, gets,
      lift. world_simpl. fold w0. rewrite E.
    rewrite !py_div_ok by assumption. reflexivity. }
  world_simpl. subst w0. revert Em Eo Eg Ege Er Es Et Ea Fa Fl Etr.
  world_simpl. intros Em Eo Eg Ege Er Es Et Ea Fa Fl Etr.
  rewrite Er, Es, Et, Ea, Etr, !Rplus_0_l, <- app_assoc.
  repeat split; assumption.
Qed.

(** The validation pass of the second loop: the model is first put in
    evaluation mode. *)
Lemma evaluate_dropout_spec {Tk : Topk} (e epochs : nat)
  (trainloader testloader : DataLoader) (w : World Classifier Adam) :
  Classifier_wf (model w) -> Forall Batch_valid (iterate testloader e) ->
  num_batches trainloader <> 0%nat -> num_batches testloader <> 0%nat ->
  exists w' accs losses,
    evaluate_dropout e epochs trainloader testloader w = Ok (tt, w') /\
    model w' = set_training false (model w) /\ optimizer w' = optimizer w /\
    generator w' = generator w /\ grad_enabled w' = grad_enabled w /\
    running_loss w' = running_loss w /\
    test_loss w' = sum_list losses /\ accuracy w' = sum_list accs /\
    Forall2 (batch_fraction_correct (model w)) (iterate testloader e) accs /\
    Forall2 (batch_loss (model w)) (iterate testloader e) losses /\
    stdout w'
    = stdout w ++
      [Summary (e + 1) epochs
         (running_loss w / INR (num_batches trainloader))
         (sum_list losses / INR (num_batches testloader))
         (sum_list accs / INR (num_batches testloader))] /\
    trace w'
    = trace w ++ [EvEvalMode] ++
      concat (repeat eval_events (length (iterate testloader e))) ++
      [EvPrint e].
Proof.
  intros Hm Hvalid Htr Hte.
  set (w0 := set_trace (trace w ++ [EvEvalMode])
               (set_model (set_training false (model w))
                  (set_grad_enabled false
                     (set_accuracy 0 (set_test_loss 0 w))))).
  destruct (validation_loop_spec Classifier_forward_dropout
              (iterate testloader e) w0)
    as (w1 & accs & losses & E & Em & Eo & Eg & Ege & Er & Es & Et & Ea
        & Fa & Fl & Etr); try assumption.
  { intros g x. apply Classifier_forward_dropout_eval. reflexivity. }
  exists (set_grad_enabled (grad_enabled w)
            (set_trace (trace w1 ++ [EvPrint e])
               (set_stdout
                  (stdout w1 ++
                   [Summary (e + 1) epochs
                      (running_loss w1 / INR (num_batches trainloader))
                      (test_loss w1 / INR (num_batches testloader))
                      (accuracy w1 / INR (num_batches testloader))]) w1))),
    accs, losses.
  split.
  { unfold evaluate_dropout, no_grad, model_eval, print_summary, print, emit,
      then_, modify, gets, lift. world_simpl. fold w0. rewrite E.
    rewrite !py_div_ok by assumption. reflexivity. }
  world_simpl. subst w0. revert Em Eo Eg Ege Er Es Et Ea Fa Fl Etr.
  world_simpl. intros Em Eo Eg Ege Er Es Et Ea Fa Fl Etr.
  rewrite Er, Es, Et, Ea, Etr, !Rplus_0_l, <- !app_assoc.
  repeat split; assumption.
Qed.

(** ** Training loops *)

Section TrainLoop.

Context {M O : Type}.

Variable Inv : World M O -> Prop.
Variable body : Batch -> Run (World M O) unit.

Hypothesis body_ok : forall b w,
  Batch_valid b -> Inv w ->
  exists w', body b w = Ok (tt, w') /\ Inv w' /\
             stdout w' = stdout w /\ trace w' = trace w ++ train_events.

Lemma train_loop_spec (batches : list Batch) (w : World M O) :
  Forall Batch_valid batches -> Inv w ->
  exists w',
    for_each batches body w = Ok (tt, w') /\ Inv w' /\
    stdout w' = stdout w /\
    trace w' = trace w ++ concat (repeat train_events (length batches)).
Proof.
  intros Hvalid Hw.
  pose (I := fun (done : list Batch) (w1 : World M O) =>
    Inv w1 /\ stdout w1 = stdout w /\
    trace w1 = trace w ++ concat (repeat train_events (length done))).
  destruct (for_each_ind I body batches) with (w := w) as (w' & E & H).
  - intros done b w1 Hin (H1 & H2 & H3).
    rewrite Forall_forall in Hvalid.
    destruct (body_ok b w1 (Hvalid b Hin) H1) as (w2 & E2 & I2 & S2 & T2).
    exists w2. split; [exact E2|]. split; [exact I2|].
    split; [congruence|].
    rewrite T2, H3, <- app_assoc, length_app. simpl length.
    rewrite Nat.add_1_r, concat_repeat_snoc. reflexivity.
  - split; [exact Hw|]. split; [reflexivity|]. simpl.
    rewrite app_nil_r. reflexivity.
  - exists w'. split; [exact E|]. exact H.
Qed.


End TrainLoop.

Section Epochs.

Context {M O : Type}.

Variable Inv : World M O -> Prop.
Variable epoch_body : nat -> Run (World M O) unit.
Variable events : nat -> list event.

Hypothesis epoch_ok : forall e w,
  Inv w ->
  exists w', epoch_body e w = Ok (tt, w') /\ Inv w' /\
             length (stdout w') = S (length (stdout w)) /\
             trace w' = trace w ++ events e.


End Epochs.

(** *** The loops of "Inference and Validation" *)

Lemma Classifier_load_ok (m : Classifier) (ps : list Param) :
  Classifier_wf m -> Forall2 same_shape (parameters m) ps ->
  Classifier_wf (load_parameters m ps) /\
  parameters (load_parameters m ps) = ps.
Proof.
  intros Hm H. destruct (Classifier_load_spec m ps Hm H) as (H1 & H2 & _).
  split; assumption.
Qed.

Section ClassifierLoops.

Variable autograd : Recorded Classifier Tensor -> list nat -> list (list R).
Hypothesis autograd_ok : autograd_wf autograd.

Variable forward : Classifier -> Generator -> Tensor
                   -> result (Matrix * Generator).
Hypothesis forward_ok : forall m g x,
  Classifier_wf m -> inferred_size x = Ok 784%nat ->
  exists out g', forward m g x = Ok (out, g') /\
                 has_shape out (hd 0%nat (shape x)) 10.

Lemma Classifier_train_batch_ok (b : Batch) (w : World Classifier Adam) :
  Batch_valid b -> Classifier_world_ok w ->
  exists w',
    train_batch forward autograd (fst b) (snd b) w = Ok (tt, w') /\
    Classifier_world_ok w' /\
    stdout w' = stdout w /\ trace w' = trace w ++ train_events.
Proof.
  intros (Hsz & Hlen & Hlab) [Hw Hg].
  destruct (train_batch_spec Classifier_wf Adam_wf forward autograd
              Classifier_load_ok Classifier_params_wf Adam_step_spec
              autograd_ok (fst b) (snd b) (hd 0%nat (shape (fst b))) w
              Hw Hg)
    as (w' & out & l & E & Hw' & _ & _ & _ & Hg' & _ & _ & _ & Es & Et);
    try assumption.
  { intros m g Hm. apply forward_ok; assumption. }
  exists w'. repeat split; try assumption; apply Hw'.
Qed.

End ClassifierLoops.

Lemma plain_forward_ok (m : Classifier) (g : Generator) (x : Tensor) :
  Classifier_wf m -> inferred_size x = Ok 784%nat ->
  exists out g', plain_forward m g x = Ok (out, g') /\
                 has_shape out (hd 0%nat (shape x)) 10.
Proof.
  intros Hm Hx. destruct (Classifier_forward_ok m x Hm Hx) as (out & E & So).
  exists out, g. unfold plain_forward. rewrite E. split;
    [reflexivity | exact So].
Qed.

Lemma dropout_forward_ok (m : Classifier) (g : Generator) (x : Tensor) :
  Classifier_wf m -> inferred_size x = Ok 784%nat ->
  exists out g', Classifier_forward_dropout m g x = Ok (out, g') /\
                 has_shape out (hd 0%nat (shape x)) 10.
Proof.
  intros Hm Hx.
  destruct (Classifier_forward_dropout_ok m g x Hm Hx)
    as (h & z & _ & _ & Sz & E).
  eexists _, _. split; [exact E|]. apply log_softmax_shape. exact Sz.
Qed.

Section ClassifierEpochs.

Variable autograd : Recorded Classifier Tensor -> list nat -> list (list R).
Hypothesis autograd_ok : autograd_wf autograd.

Variables trainloader testloader : DataLoader.
Hypothesis train_valid : DataLoader_valid trainloader.
Hypothesis test_valid : DataLoader_valid testloader.

Variable epochs : nat.


Lemma train_validate_dropout_epoch_ok {Tk : Topk}
  (e : nat) (w : World Classifier Adam) :
  Classifier_world_ok w ->
  exists w',
    (modify (set_running_loss 0) >>
     for_each (iterate trainloader e) (fun b =>
       train_batch Classifier_forward_dropout autograd (fst b) (snd b)) >>
     evaluate_dropout e epochs trainloader testloader >>
     model_train) w = Ok (tt, w') /\
    Classifier_world_ok w' /\
    length (stdout w') = S (length (stdout w)) /\
    trace w' = trace w ++ epoch_events true trainloader testloader e.
Proof.
  intros Hw.
  destruct train_valid as (Ltr & Ntr & Vtr).
  destruct test_valid as (Lte & Nte & Vte).
  destruct (train_loop_spec Classifier_world_ok
              (fun b => train_batch Classifier_forward_dropout autograd
                          (fst b) (snd b))
              (Classifier_train_batch_ok autograd autograd_ok
                 Classifier_forward_dropout dropout_forward_ok)
              (iterate trainloader e) (set_running_loss 0 w) (Vtr e))
    as (w1 & E1 & [[Hm1 Ho1] Hg1] & S1 & T1).
  { exact Hw. }
  destruct (evaluate_dropout_spec e epochs trainloader testloader w1 Hm1
              (Vte e) Ntr Nte)
    as (w2 & accs & losses & E2 & Em & Eo & _ & Eg & _ & _ & _ & _ & _ & S2 &
      T2).
  eexists. split.
  { unfold then_ at 1 2 3. unfold modify at 1. rewrite E1, E2.
    unfold model_train, emit, then_, modify. reflexivity. }
  world_simpl. split; [|split].
  - unfold Classifier_world_ok, World_ok. world_simpl.
    rewrite Em, Eo, Eg. tauto.
  - rewrite S2, length_app, S1. simpl. lia.
  - rewrite T2, T1. unfold epoch_events. rewrite Ltr, Lte. simpl.
    rewrite <- !app_assoc. simpl. rewrite <- !app_assoc. reflexivity.
Qed.

End ClassifierEpochs.

(** *** The loop of "Training Neural Networks" *)

Lemma mnist_load_ok (s : Sequential) (ps : list Param) :
  mnist_model_wf s -> Forall2 same_shape (parameters s) ps ->
  mnist_model_wf (load_parameters s ps) /\
  parameters (load_parameters s ps) = ps.
Proof. apply mnist_load_spec. Qed.

Lemma SGD_step_ok (o : SGD) (ps : list Param) :
  Forall Param_wf ps -> True ->
  Forall2 same_shape ps (fst (optimizer_update o ps)) /\ True.
Proof.
  intros H _. split; [|exact I]. apply SGD_step_spec. exact H.
Qed.

Section MnistLoop.

Variable autograd : Recorded Sequential Matrix -> list nat -> list (list R).
Hypothesis autograd_ok : autograd_wf autograd.

Lemma mnist_train_batch_ok (b : Batch) (w : World Sequential SGD) :
  Batch_valid b -> mnist_world_ok w ->
  exists w',
    mnist_batch autograd b w = Ok (tt, w') /\
    mnist_world_ok w' /\
    stdout w' = stdout w /\ trace w' = trace w ++ train_events.
Proof.
  intros (Hsz & Hlen & Hlab) [Hw Hg].
  destruct (view_batch_ok (fst b) _ Hsz) as (images & Ev & Si).
  destruct (train_batch_spec mnist_model_wf (fun _ _ => True) mnist_forward
              autograd mnist_load_ok mnist_params_wf SGD_step_ok
              autograd_ok images (snd b) (hd 0%nat (shape (fst b))) w
              Hw Hg)
    as (w' & out & l & E & Hw' & _ & _ & _ & Hg' & _ & _ & _ & Es & Et);
    try assumption.
  { intros m g Hm. destruct (mnist_forward_ok m images _ Hm Si) as (out & E &
    So).
    exists out, g. unfold mnist_forward. rewrite E.
    split; [reflexivity | exact So]. }
  exists w'. split.
  { unfold mnist_batch, then_ at 1. unfold lift. rewrite Ev. exact E. }
  repeat split; try assumption; apply Hw'.
Qed.

Variable trainloader : DataLoader.
Hypothesis train_valid : DataLoader_valid trainloader.


End MnistLoop.

(** ** The gradient discipline of the schedules *)







Lemma step_after_backward_mono (t : list event) :
  step_after_backward false t = true -> step_after_backward true t = true.
Proof.
  induction t as [|ev t IH]; [reflexivity|].
  destruct ev; simpl; auto; discriminate.
Qed.

Lemma step_train_batches (n : nat) (c : bool) (t : list event) :
  step_after_backward false t = true ->
  step_after_backward c (concat (repeat train_events n) ++ t) = true.
Proof.
  intros H. revert c. induction n as [|n IH]; intros c; simpl.
  - destruct c; [apply step_after_backward_mono|]; exact H.
  - apply IH.
Qed.

Lemma step_eval_batches (n : nat) (c : bool) (t : list event) :
  step_after_backward c t = true ->
  step_after_backward c (concat (repeat eval_events n) ++ t) = true.
Proof.
  intros H. induction n as [|n IH]; simpl; assumption.
Qed.

Lemma step_schedule (epoch : nat -> list event) (es : list nat) :
  (forall e t, step_after_backward false t = true ->
               step_after_backward false (epoch e ++ t) = true) ->
  step_after_backward false (flat_map epoch es) = true.
Proof.
  intros H. induction es as [|e es IH]; simpl; [reflexivity|].
  apply H. exact IH.
Qed.

Lemma step_epoch_events (mode : bool) (trl tel : DataLoader) (e : nat)
  (t : list event) :
  step_after_backward false t = true ->
  step_after_backward false (epoch_events mode trl tel e ++ t) = true.
Proof.
  intros H. unfold epoch_events. rewrite <- !app_assoc.
  apply step_train_batches.
  destruct mode; simpl; apply step_eval_batches; simpl; exact H.
Qed.

Lemma step_mnist_epoch_events (trl : DataLoader) (e : nat) (t : list event) :
  step_after_backward false t = true ->
  step_after_backward false (mnist_epoch_events trl e ++ t) = true.
Proof.
  intros H. unfold mnist_epoch_events. rewrite <- !app_assoc.
  apply step_train_batches. simpl. exact H.
Qed.

(** ** The training loops: main statements *)

Lemma constant_autograd_wf {M X : Type} {Mod : Module M} (c : R) :
  autograd_wf (constant_autograd (M := M) (X := X) c).
Proof.
  intros r labels. unfold constant_autograd. apply Forall2_map_r.
  apply Forall_forall. intros p _. apply length_map.
Qed.

Lemma zero_loader_valid : DataLoader_valid zero_loader.
Proof.
  split; [|split].
  - intros k. reflexivity.
  - discriminate.
  - intros k. constructor; [|constructor].
    split; [exact zero_image_size|]. split; [reflexivity|].
    repeat constructor.
Qed.

Lemma zero_batch_valid : Batch_valid (zero_image, [3%nat]).
Proof.
  split; [exact zero_image_size|]. split; [reflexivity|]. repeat constructor.
Qed.

Lemma start_Classifier_ok (m : Classifier) (lr : R) (g : Generator) :
  Classifier_wf m ->
  Classifier_world_ok (start m (optim_Adam (parameters m) lr) g).
Proof.
  intros Hm. split; [|reflexivity]. split; [exact Hm|]. apply optim_Adam_wf.
Qed.

Lemma start_mnist_ok (s : Sequential) (lr : R) (g : Generator) :
  mnist_model_wf s -> mnist_world_ok (start s (mkSGD lr) g).
Proof.
  intros Hs. split; [|reflexivity]. split; [exact Hs | exact I].
Qed.

(** *** The buffers at every backward pass *)





(** ** The parameter update *)

Lemma SGD_on_with_grads (o : SGD) (ps : list Param) (ds : list (list R)) :
  fst (optimizer_update o (with_grads ps ds))
  = map2 (fun p g => mkParam (pshape p) (gradient_descent (sgd_lr o) p g)
                       (Some g)) ps ds.
Proof.
  simpl. unfold with_grads, map2. rewrite map_map. apply map_ext.
  intros [p g]. unfold SGD_update, gradient_descent, map2. simpl. f_equal.
  apply map_ext. intros [x d]. simpl. lra.
Qed.

Lemma batch_gradient_length {M O X : Type} {Mod : Module M}
  (wfM : M -> Prop)
  (autograd : Recorded M X -> list nat -> list (list R))
  (w : World M O) (images : X) (labels : list nat) :
  (forall m ps, wfM m -> Forall2 same_shape (parameters m) ps ->
     wfM (load_parameters m ps) /\ parameters (load_parameters m ps) = ps) ->
  (forall m, wfM m -> Forall Param_wf (parameters m)) ->
  autograd_wf autograd -> wfM (model w) ->
  length (batch_gradient autograd w images labels)
  = length (parameters (model w)).
Proof.
  intros load_ok params_ok Hag Hm. unfold batch_gradient.
  pose proof (Hag (mkRecorded
                     (update_parameters (map zero_grad_param) (model w))
                     (generator w) images) labels) as H.
  apply Forall2_length in H. rewrite <- H. simpl at_model.
  unfold update_parameters.
  destruct (load_ok (model w) (map zero_grad_param (parameters (model w))) Hm
              (zero_grad_shapes _ (params_ok _ Hm))) as [_ E].
  rewrite E. apply length_map.
Qed.

Lemma mnist_batch_detail
  (autograd : Recorded Sequential Matrix -> list nat -> list (list R))
  (b : Batch) (w : World Sequential SGD) :
  autograd_wf autograd -> Batch_valid b -> mnist_world_ok w ->
  exists images w',
    view_batch (fst b) = Ok images /\
    mnist_batch autograd b w = Ok (tt, w') /\
    length (batch_gradient autograd w images (snd b))
    = length (parameters (model w)) /\
    parameters (model w')
    = map2 (fun p g => mkParam (pshape p)
                         (gradient_descent (sgd_lr (optimizer w)) p g)
                         (Some g))
        (parameters (model w)) (batch_gradient autograd w images (snd b)) /\
    trace w' = trace w ++ train_events.
Proof.
  intros Hag (Hsz & Hlen & Hlab) [Hw Hg].
  destruct (view_batch_ok (fst b) _ Hsz) as (images & Ev & Si).
  destruct (train_batch_spec mnist_model_wf (fun _ _ => True) mnist_forward
              autograd mnist_load_ok mnist_params_wf SGD_step_ok
              Hag images (snd b) (hd 0%nat (shape (fst b))) w Hw Hg)
    as (w' & out & l & E & _ & _ & _ & Ep & _ & _ & _ & _ & _ & Et);
    try assumption.
  { intros m g Hm. destruct (mnist_forward_ok m images _ Hm Si) as (out & E &
    So).
    exists out, g. unfold mnist_forward. rewrite E.
    split; [reflexivity | exact So]. }
  exists images, w'. split; [exact Ev|]. split.
  { unfold mnist_batch, then_ at 1. unfold lift. rewrite Ev. exact E. }
  split.
  { apply (batch_gradient_length mnist_model_wf autograd w images (snd b)
             mnist_load_ok mnist_params_wf Hag). apply Hw. }
  split; [|exact Et]. rewrite Ep. apply SGD_on_with_grads.
Qed.

Lemma Classifier_batch_detail
  (autograd : Recorded Classifier Tensor -> list nat -> list (list R))
  (forward : Classifier -> Generator -> Tensor -> result (Matrix * Generator))
  (b : Batch) (w : World Classifier Adam) :
  (forall m g x, Classifier_wf m -> inferred_size x = Ok 784%nat ->
     exists out g', forward m g x = Ok (out, g') /\
                    has_shape out (hd 0%nat (shape x)) 10) ->
  autograd_wf autograd -> Batch_valid b -> Classifier_world_ok w ->
  exists w',
    train_batch forward autograd (fst b) (snd b) w = Ok (tt, w') /\
    length (batch_gradient autograd w (fst b) (snd b))
    = length (parameters (model w)) /\
    parameters (model w')
    = fst (Adam_step (optimizer w)
             (with_grads (parameters (model w))
                (batch_gradient autograd w (fst b) (snd b)))) /\
    trace w' = trace w ++ train_events.
Proof.
  intros Hf Hag (Hsz & Hlen & Hlab) [Hw Hg].
  destruct (train_batch_spec Classifier_wf Adam_wf forward autograd
              Classifier_load_ok Classifier_params_wf Adam_step_spec
              Hag (fst b) (snd b) (hd 0%nat (shape (fst b))) w Hw Hg)
    as (w' & out & l & E & _ & _ & _ & Ep & _ & _ & _ & _ & _ & Et);
    try assumption.
  { intros m g Hm. apply Hf; assumption. }
  exists w'. split; [exact E|]. split.
  { apply (batch_gradient_length Classifier_wf autograd w (fst b) (snd b)
             Classifier_load_ok Classifier_params_wf Hag). apply Hw. }
  split; [exact Ep | exact Et].
Qed.

(** C3, as the code has it.  In every loop the update of a training batch
    comes after the backward pass of that batch and uses the gradient of
    that batch alone, for every parameter tensor; in the whole run no
    update happens without such a backward pass before it.  With SGD
    ("Training Neural Networks") the update is the plain rule p - alpha * g
    with the one learning rate of the optimizer; with Adam ("Inference and
    Validation") it is Adam's step on the same parameters and gradients. *)
Theorem update_follows_backward_of_the_batch
  (autograd_s : Recorded Sequential Matrix -> list nat -> list (list R))
  (autograd_c : Recorded Classifier Tensor -> list nat -> list (list R))
  (b : Batch) (ws : World Sequential SGD) (wc : World Classifier Adam)
  (trainloader testloader : DataLoader) (epochs : nat) :
  autograd_wf autograd_s -> autograd_wf autograd_c -> Batch_valid b ->
  mnist_world_ok ws -> Classifier_world_ok wc ->
  (exists images w',
     view_batch (fst b) = Ok images /\
     mnist_batch autograd_s b ws = Ok (tt, w') /\
     length (batch_gradient autograd_s ws images (snd b))
     = length (parameters (model ws)) /\
     parameters (model w')
     = map2 (fun p g => mkParam (pshape p)
                          (gradient_descent (sgd_lr (optimizer ws)) p g)
                          (Some g))
         (parameters (model ws)) (batch_gradient autograd_s ws images (snd b))
           /\
     trace w' = trace ws ++ train_events) /\
  (exists w',
     train_batch plain_forward autograd_c (fst b) (snd b) wc = Ok (tt, w') /\
     length (batch_gradient autograd_c wc (fst b) (snd b))
     = length (parameters (model wc)) /\
     parameters (model w')
     = fst (Adam_step (optimizer wc)
              (with_grads (parameters (model wc))
                 (batch_gradient autograd_c wc (fst b) (snd b)))) /\
     trace w' = trace wc ++ train_events) /\
  (exists w',
     train_batch Classifier_forward_dropout autograd_c (fst b) (snd b) wc
     = Ok (tt, w') /\
     length (batch_gradient autograd_c wc (fst b) (snd b))
     = length (parameters (model wc)) /\
     parameters (model w')
     = fst (Adam_step (optimizer wc)
              (with_grads (parameters (model wc))
                 (batch_gradient autograd_c wc (fst b) (snd b)))) /\
     trace w' = trace wc ++ train_events) /\
  step_after_backward false
    (schedule (mnist_epoch_events trainloader) epochs) = true /\
  (forall mode,
     step_after_backward false
       (schedule (epoch_events mode trainloader testloader) epochs) = true).
Proof.
  intros Has Hac Hb Hws Hwc. split; [|split; [|split; [|split]]].
  - apply mnist_batch_detail; assumption.
  - apply Classifier_batch_detail; try assumption. apply plain_forward_ok.
  - apply Classifier_batch_detail; try assumption. apply dropout_forward_ok.
  - apply step_schedule. apply step_mnist_epoch_events.
  - intros mode. apply step_schedule. apply step_epoch_events.
Qed.

(** One batch of the SGD loop with a gradient of 2 everywhere. *)
Lemma update_follows_backward_of_the_batch_witness :
  exists images w',
    view_batch zero_image = Ok images /\
    mnist_batch (constant_autograd 2) (zero_image, [3%nat])
      (start zero_mnist (mkSGD (3 / 1000)) keep_all) = Ok (tt, w') /\
    length (batch_gradient (constant_autograd 2)
              (start zero_mnist (mkSGD (3 / 1000)) keep_all) images [3%nat])
    = length (parameters zero_mnist) /\
    parameters (model w')
    = map2 (fun p g => mkParam (pshape p)
                         (gradient_descent (3 / 1000) p g) (Some g))
        (parameters zero_mnist)
        (batch_gradient (constant_autograd 2)
           (start zero_mnist (mkSGD (3 / 1000)) keep_all) images [3%nat]) /\
    trace w' = [] ++ train_events.
Proof.
  apply (proj1 (update_follows_backward_of_the_batch (constant_autograd 2)
                  (constant_autograd 2) (zero_image, [3%nat])
                  (start zero_mnist (mkSGD (3 / 1000)) keep_all)
                  (start zero_classifier
                     (optim_Adam (parameters zero_classifier) (3 / 1000))
                     keep_all)
                  zero_loader zero_loader 5
                  (constant_autograd_wf 2) (constant_autograd_wf 2)
                  zero_batch_valid
                  (start_mnist_ok zero_mnist (3 / 1000) keep_all zero_mnist_wf)
                  (start_Classifier_ok zero_classifier (3 / 1000) keep_all
                     zero_classifier_wf))).
Defined.

(** The first Adam step on a parameter 0 with gradient 2 and lr = 0.003
    is not the 0.006 that the plain rule subtracts. *)
Lemma adam_first_step_differs :
  0 + - (3 / 1000 * sqrt (1 - (999 / 1000) ^ 1) / (1 - (9 / 10) ^ 1)) *
      ((0 * (9 / 10) + (1 - 9 / 10) * 2) /
       (sqrt (0 * (999 / 1000) + (1 - 999 / 1000) * 2 * 2) + 1 / 100000000))
  <> 0 - 3 / 1000 * 2.
Proof.
  cbn [pow].
  set (A := sqrt (1 - 999 / 1000 * 1)).
  set (B := sqrt (0 * (999 / 1000) + (1 - 999 / 1000) * 2 * 2)).
  assert (HA : 0 < A) by (apply sqrt_lt_R0; lra).
  assert (HAB : A < B) by (apply sqrt_lt_1_alt; lra).
  intros H.
  assert (E : 0 + - (3 / 1000 * A / (1 - 9 / 10 * 1)) *
                  ((0 * (9 / 10) + (1 - 9 / 10) * 2) / (B + 1 / 100000000))
              = - (6 / 1000) * (A / (B + 1 / 100000000)))
    by (field; lra).
  rewrite E in H.
  assert (Q : (A / (B + 1 / 100000000)) * (B + 1 / 100000000) = A)
    by (field; lra).
  nra.
Qed.

(** The step of [optim.Adam] in isolation, on one parameter tensor. *)
Example adam_step_on_sample_param :
  map pdata (fst (Adam_step (optim_Adam [sample_param] (3 / 1000))
                    [sample_param]))
  <> [gradient_descent (3 / 1000) sample_param [2]].
Proof.
  intros H. apply (f_equal (fun l => nth 0 (nth 0 l []) 0)) in H.
  exact (adam_first_step_differs H).
Qed.

(** C3, as stated, fails for the Adam loops: one training batch of the
    first loop of "Inference and Validation", started on the
    zero-initialised Classifier with a gradient of 2 everywhere, does not
    leave the parameters that the plain rule with alpha = 0.003 would
    leave (the last bias moves by less than 0.003 instead of 0.006). *)
Lemma adam_loop_is_not_gradient_descent :
  exists w',
    train_batch plain_forward (constant_autograd 2) zero_image [3%nat]
      (start zero_classifier
         (optim_Adam (parameters zero_classifier) (3 / 1000)) keep_all)
    = Ok (tt, w') /\
    parameters (model w')
    <> map2 (fun p g => mkParam (pshape p) (gradient_descent (3 / 1000) p g)
                          (Some g))
         (parameters zero_classifier)
         (batch_gradient (constant_autograd 2)
            (start zero_classifier
               (optim_Adam (parameters zero_classifier) (3 / 1000)) keep_all)
            zero_image [3%nat]).
Proof.
  destruct (Classifier_batch_detail (constant_autograd 2) plain_forward
              (zero_image, [3%nat])
              (start zero_classifier
                 (optim_Adam (parameters zero_classifier) (3 / 1000)) keep_all)
              plain_forward_ok (constant_autograd_wf 2) zero_batch_valid
              (start_Classifier_ok zero_classifier (3 / 1000) keep_all
                 zero_classifier_wf))
    as (w' & E & _ & Ep & _).
  exists w'. split; [exact E|]. rewrite Ep. clear E Ep.
  intros H.
  apply (f_equal (fun l => nth 0 (pdata (nth 7 l sample_param)) 0)) in H.
  lazy beta iota zeta delta
    [nth pdata fst snd Adam_step Adam_updates Adam_update with_grads map2 map
     combine optim_Adam state grad pshape zero_param zeros_like exp_avg
     exp_avg_sq step_count beta1 beta2 eps adam_lr repeat numel fold_right
     Nat.mul Nat.add gradient_descent sample_param batch_gradient
     constant_autograd at_model model optimizer generator start
     update_parameters parameters load_parameters Classifier_Module
     Classifier_parameters Classifier_load Linear_parameters Linear_load
     zero_classifier zero_linear fc1 fc2 fc3 fc4 weight bias in_features
     out_features training zero_grad_param app] in H.
  exact (adam_first_step_differs H).
Qed.

(** ** The validation pass: main statements *)

Lemma validation_loop_frame {Tk : Topk} {O : Type} {Opt : Optimizer O}
  (forward : Classifier -> Generator -> Tensor -> result (Matrix * Generator))
  (batches : list Batch) (w : World Classifier O) (u : unit)
  (w' : World Classifier O) :
  for_each batches (fun b => validate_batch forward (fst b) (snd b)) w
  = Ok (u, w') ->
  model w' = model w /\ optimizer w' = optimizer w.
Proof.
  intros E.
  pose proof (for_each_preserves
                (fun w1 : World Classifier O => (model w1, optimizer w1))
                (fun b => validate_batch forward (fst b) (snd b)) batches) as H.
  specialize (H ltac:(intros x w1 u1 w2 E1;
                      destruct (validate_batch_frame forward _ _ _ _ _ E1)
                        as (-> & -> & _); reflexivity) w u w' E).
  injection H as -> ->. split; reflexivity.
Qed.

Lemma print_summary_frame {M O : Type} (e epochs : nat)
  (trainloader testloader : DataLoader) (w : World M O) (u : unit)
  (w' : World M O) :
  print_summary e epochs trainloader testloader w = Ok (u, w') ->
  model w' = model w /\ optimizer w' = optimizer w.
Proof.
  unfold print_summary, print, emit, then_, gets, lift, modify.
  destruct (py_div (running_loss w) (num_batches trainloader)); [|discriminate].
  destruct (py_div (test_loss w) (num_batches testloader)); [|discriminate].
  destruct (py_div (accuracy w) (num_batches testloader)); [|discriminate].
  intros E. injection E as _ <-. split; reflexivity.
Qed.

(** Whatever the batches, a validation pass that returns has left the
    model (parameters and gradient buffers) and the optimizer as they
    were. *)
Lemma evaluate_frame {Tk : Topk}
  (e epochs : nat) (trainloader testloader : DataLoader)
  (w : World Classifier Adam) (u : unit) (w' : World Classifier Adam) :
  evaluate e epochs trainloader testloader w = Ok (u, w') ->
  model w' = model w /\ optimizer w' = optimizer w.
Proof.
  unfold evaluate, no_grad. unfold then_ at 1 2 3. unfold modify at 1 2.
  set (w0 := set_grad_enabled false _).
  destruct (for_each (iterate testloader e) _ w0) as [[u1 w1]|] eqn:E1;
    [|discriminate].
  destruct (print_summary e epochs trainloader testloader w1)
    as [[u2 w2]|] eqn:E2; [|discriminate].
  intros E. injection E as _ <-. world_simpl.
  destruct (print_summary_frame _ _ _ _ _ _ _ E2) as [-> ->].
  destruct (validation_loop_frame _ _ _ _ _ E1) as [-> ->].
  split; reflexivity.
Qed.

Lemma evaluate_dropout_frame {Tk : Topk} (e epochs : nat)
  (trainloader testloader : DataLoader)
  (w : World Classifier Adam) (u : unit) (w' : World Classifier Adam) :
  evaluate_dropout e epochs trainloader testloader w = Ok (u, w') ->
  model w' = set_training false (model w) /\ optimizer w' = optimizer w.
Proof.
  unfold evaluate_dropout, no_grad. unfold then_ at 1 2 3 4.
  unfold modify at 1 2. unfold model_eval, emit, then_ at 1, modify.
  set (w0 := set_trace _ _).
  destruct (for_each (iterate testloader e) _ w0) as [[u1 w1]|] eqn:E1;
    [|discriminate].
  destruct (print_summary e epochs trainloader testloader w1)
    as [[u2 w2]|] eqn:E2; [|discriminate].
  intros E. injection E as _ <-. world_simpl.
  destruct (print_summary_frame _ _ _ _ _ _ _ E2) as [-> ->].
  destruct (validation_loop_frame _ _ _ _ _ E1) as [-> ->].
  split; reflexivity.
Qed.

(** C7.  A validation pass, on any batches, leaves every parameter tensor
    and every gradient buffer of the model as it was, and the optimizer
    too; and it does return on valid batches. *)
Theorem evaluation_leaves_parameters_and_gradients {Tk : Topk} (e epochs : nat)
  (trainloader testloader : DataLoader) (w : World Classifier Adam) :
  (forall u w',
     evaluate e epochs trainloader testloader w = Ok (u, w') ->
     map pdata (parameters (model w')) = map pdata (parameters (model w)) /\
     map grad (parameters (model w')) = map grad (parameters (model w)) /\
     optimizer w' = optimizer w) /\
  (forall u w',
     evaluate_dropout e epochs trainloader testloader w = Ok (u, w') ->
     map pdata (parameters (model w')) = map pdata (parameters (model w)) /\
     map grad (parameters (model w')) = map grad (parameters (model w)) /\
     optimizer w' = optimizer w) /\
  (Classifier_wf (model w) -> Forall Batch_valid (iterate testloader e) ->
   num_batches trainloader <> 0%nat -> num_batches testloader <> 0%nat ->
   (exists w', evaluate e epochs trainloader testloader w = Ok (tt, w')) /\
   (exists w',
      evaluate_dropout e epochs trainloader testloader w = Ok (tt, w'))).
Proof.
  split; [|split].
  - intros u w' E. destruct (evaluate_frame _ _ _ _ _ _ _ E) as [-> ->].
    repeat split.
  - intros u w' E. destruct (evaluate_dropout_frame _ _ _ _ _ _ _ E) as [-> ->].
    repeat split.
  - intros Hm Hv Htr Hte. split.
    + destruct (evaluate_spec e epochs trainloader testloader w Hm Hv Htr Hte)
        as (w' & _ & _ & E & _). exists w'. exact E.
    + destruct (evaluate_dropout_spec e epochs trainloader testloader w Hm Hv
                  Htr Hte) as (w' & _ & _ & E & _). exists w'. exact E.
Qed.

(** A validation pass of the second loop on a loader of one batch. *)
Lemma evaluation_leaves_parameters_and_gradients_witness :
  exists w',
    evaluate_dropout (Tk := first_argmax_Topk) 0 30 zero_loader zero_loader
      (start zero_classifier
         (optim_Adam (parameters zero_classifier) (4 / 1000)) keep_all)
    = Ok (tt, w') /\
    map pdata (parameters (model w')) = map pdata (parameters zero_classifier)
      /\
    map grad (parameters (model w')) = map grad (parameters zero_classifier).
Proof.
  pose proof (evaluation_leaves_parameters_and_gradients
    (Tk := first_argmax_Topk) 0 30 zero_loader
                zero_loader
                (start zero_classifier
                   (optim_Adam (parameters zero_classifier) (4 / 1000))
                   keep_all)) as (_ & F & S).
  destruct S as [_ [w' E]].
  - exact zero_classifier_wf.
  - constructor; [exact zero_batch_valid | constructor].
  - discriminate.
  - discriminate.
  - exists w'. split; [exact E|]. destruct (F tt w' E) as (H1 & H2 & _).
    split; assumption.
Defined.

(** ** Determinism of the validation pass *)

Lemma Linear_forward_same_values (l1 l2 : Linear) (x : Matrix) :
  in_features l1 = in_features l2 -> out_features l1 = out_features l2 ->
  pdata (weight l1) = pdata (weight l2) -> pdata (bias l1) = pdata (bias l2) ->
  Linear_forward l1 x = Linear_forward l2 x.
Proof.
  intros Hi Ho Hw Hb.
  unfold Linear_forward, Linear_row, weight_rows. rewrite Hi, Ho, Hw, Hb.
  reflexivity.
Qed.

Lemma Classifier_forward_same_values (m1 m2 : Classifier) (x : Tensor) :
  Classifier_wf m1 -> Classifier_wf m2 -> same_values m1 m2 ->
  Classifier_forward m1 x = Classifier_forward m2 x.
Proof.
  intros (A1 & A2 & A3 & A4) (B1 & B2 & B3 & B4) H.
  unfold same_values in H. simpl in H.
  unfold Classifier_parameters, Linear_parameters in H. simpl in H.
  injection H as E1 E2 E3 E4 E5 E6 E7 E8.
  destruct A1 as (Ai1 & Ao1 & _), A2 as (Ai2 & Ao2 & _),
    A3 as (Ai3 & Ao3 & _), A4 as (Ai4 & Ao4 & _).
  destruct B1 as (Bi1 & Bo1 & _), B2 as (Bi2 & Bo2 & _),
    B3 as (Bi3 & Bo3 & _), B4 as (Bi4 & Bo4 & _).
  unfold Classifier_forward.
  destruct (view_batch x) as [x0|]; simpl; [|reflexivity].
  rewrite (Linear_forward_same_values (fc1 m1) (fc1 m2)) by congruence.
  destruct (Linear_forward (fc1 m2) x0) as [x1|]; simpl; [|reflexivity].
  rewrite (Linear_forward_same_values (fc2 m1) (fc2 m2)) by congruence.
  destruct (Linear_forward (fc2 m2) (relu x1)) as [x2|]; simpl; [|reflexivity].
  rewrite (Linear_forward_same_values (fc3 m1) (fc3 m2)) by congruence.
  destruct (Linear_forward (fc3 m2) (relu x2)) as [x3|]; simpl; [|reflexivity].
  rewrite (Linear_forward_same_values (fc4 m1) (fc4 m2)) by congruence.
  reflexivity.
Qed.

Lemma batch_fractions_functional {Tk : Topk}
  (m1 m2 : Classifier) (bs : list Batch)
  (accs1 accs2 : list R) :
  (forall x, Classifier_forward m1 x = Classifier_forward m2 x) ->
  Forall2 (batch_fraction_correct m1) bs accs1 ->
  Forall2 (batch_fraction_correct m2) bs accs2 -> accs1 = accs2.
Proof.
  intros Hf H1. revert accs2.
  induction H1 as [|b a1 bs accs1 (o1 & E1 & -> & _) _ IH]; intros accs2 H2;
    inversion H2 as [|? a2 ? accs2' (o2 & E2 & -> & _) H2']; subst;
    [reflexivity|].
  rewrite Hf, E2 in E1. injection E1 as <-. f_equal. apply IH. exact H2'.
Qed.

Lemma batch_losses_functional (m1 m2 : Classifier) (bs : list Batch)
  (ls1 ls2 : list R) :
  (forall x, Classifier_forward m1 x = Classifier_forward m2 x) ->
  Forall2 (batch_loss m1) bs ls1 -> Forall2 (batch_loss m2) bs ls2 ->
  ls1 = ls2.
Proof.
  intros Hf H1. revert ls2.
  induction H1 as [|b a1 bs ls1 (o1 & E1 & L1) _ IH]; intros ls2 H2;
    inversion H2 as [|? a2 ? ls2' (o2 & E2 & L2) H2']; subst;
    [reflexivity|].
  rewrite Hf, E2 in E1. injection E1 as <-.
  rewrite L2 in L1. injection L1 as <-. f_equal. apply IH. exact H2'.
Qed.

Lemma plain_forward_output (m : Classifier) (g : Generator) (x : Tensor) :
  (p <- plain_forward m g x ;; Ok (fst p)) = Classifier_forward m x.
Proof.
  unfold plain_forward. destruct (Classifier_forward m x); reflexivity.
Qed.

(** C8.  In evaluation mode the output of the predictor depends on the
    input and on the parameter values only: not on the random generator,
    which it does not advance, nor on the gradient buffers or the optimizer.
    Hence two validation passes on the same batches and the same parameter
    values return the same accuracy and the same loss, and so does a pass
    run twice in a row. *)
Theorem evaluation_is_deterministic {Tk : Topk} (e epochs1 epochs2 : nat)
  (trainloader1 trainloader2 testloader : DataLoader)
  (w1 w2 : World Classifier Adam) (g1 g2 : Generator) (x : Tensor) :
  Classifier_wf (model w1) -> Classifier_wf (model w2) ->
  same_values (model w1) (model w2) ->
  Forall Batch_valid (iterate testloader e) ->
  num_batches trainloader1 <> 0%nat -> num_batches trainloader2 <> 0%nat ->
  num_batches testloader <> 0%nat ->
  (p <- Classifier_forward_dropout (set_training false (model w1)) g1 x ;;
   Ok (fst p))
  = (p <- Classifier_forward_dropout (set_training false (model w2)) g2 x ;;
     Ok (fst p)) /\
  (forall out g, Classifier_forward_dropout (set_training false (model w1)) g1 x
                 = Ok (out, g) -> g = g1) /\
  (exists w1' w2',
     evaluate e epochs1 trainloader1 testloader w1 = Ok (tt, w1') /\
     evaluate e epochs2 trainloader2 testloader w2 = Ok (tt, w2') /\
     accuracy w1' = accuracy w2' /\ test_loss w1' = test_loss w2') /\
  (exists w1' w2',
     evaluate_dropout e epochs1 trainloader1 testloader w1 = Ok (tt, w1') /\
     evaluate_dropout e epochs2 trainloader2 testloader w2 = Ok (tt, w2') /\
     accuracy w1' = accuracy w2' /\ test_loss w1' = test_loss w2') /\
  (exists w1' w1'',
     evaluate_dropout e epochs1 trainloader1 testloader w1 = Ok (tt, w1') /\
     evaluate_dropout e epochs1 trainloader1 testloader w1' = Ok (tt, w1'') /\
     accuracy w1'' = accuracy w1' /\ test_loss w1'' = test_loss w1').
Proof.
  intros Hm1 Hm2 Hsame Hv Htr1 Htr2 Hte.
  assert (Hf : forall y, Classifier_forward (model w1) y
                         = Classifier_forward (model w2) y)
    by (intros y; apply Classifier_forward_same_values; assumption).
  split; [|split; [|split; [|split]]].
  - rewrite !Classifier_forward_dropout_eval by reflexivity.
    rewrite !plain_forward_output. apply Hf.
  - intros out g. rewrite Classifier_forward_dropout_eval by reflexivity.
    unfold plain_forward.
    destruct (Classifier_forward (set_training false (model w1)) x);
      simpl; [|discriminate].
    intros E. injection E as _ <-. reflexivity.
  - destruct (evaluate_spec e epochs1 trainloader1 testloader w1 Hm1 Hv Htr1
    Hte)
      as (w1' & a1 & l1 & E1 & _ & _ & _ & _ & _ & T1 & A1 & Fa1 & Fl1 & _).
    destruct (evaluate_spec e epochs2 trainloader2 testloader w2 Hm2 Hv Htr2
      Hte)
      as (w2' & a2 & l2 & E2 & _ & _ & _ & _ & _ & T2 & A2 & Fa2 & Fl2 & _).
    exists w1', w2'. split; [exact E1|]. split; [exact E2|].
    rewrite A1, A2, T1, T2.
    rewrite (batch_fractions_functional _ _ _ _ _ Hf Fa1 Fa2).
    rewrite (batch_losses_functional _ _ _ _ _ Hf Fl1 Fl2).
    split; reflexivity.
  - destruct (evaluate_dropout_spec e epochs1 trainloader1 testloader w1 Hm1 Hv
                Htr1 Hte)
      as (w1' & a1 & l1 & E1 & _ & _ & _ & _ & _ & T1 & A1 & Fa1 & Fl1 & _).
    destruct (evaluate_dropout_spec e epochs2 trainloader2 testloader w2 Hm2 Hv
                Htr2 Hte)
      as (w2' & a2 & l2 & E2 & _ & _ & _ & _ & _ & T2 & A2 & Fa2 & Fl2 & _).
    exists w1', w2'. split; [exact E1|]. split; [exact E2|].
    rewrite A1, A2, T1, T2.
    rewrite (batch_fractions_functional _ _ _ _ _ Hf Fa1 Fa2).
    rewrite (batch_losses_functional _ _ _ _ _ Hf Fl1 Fl2).
    split; reflexivity.
  - destruct (evaluate_dropout_spec e epochs1 trainloader1 testloader w1 Hm1 Hv
                Htr1 Hte)
      as (w1' & a1 & l1 & E1 & Em & _ & _ & _ & _ & T1 & A1 & Fa1 & Fl1 & _).
    assert (Hm1' : Classifier_wf (model w1'))
      by (rewrite Em; apply set_training_wf; exact Hm1).
    destruct (evaluate_dropout_spec e epochs1 trainloader1 testloader w1' Hm1'
                Hv Htr1 Hte)
      as (w1'' & a2 & l2 & E2 & _ & _ & _ & _ & _ & T2 & A2 & Fa2 & Fl2 & _).
    exists w1', w1''. split; [exact E1|]. split; [exact E2|].
    rewrite A1, A2, T1, T2. rewrite Em in Fa2, Fl2.
    rewrite (batch_fractions_functional _ _ _ _ _
               (fun y => eq_refl) Fa1 Fa2).
    rewrite (batch_losses_functional _ _ _ _ _ (fun y => eq_refl) Fl1 Fl2).
    split; reflexivity.
Qed.

(** Two validation passes in a row on a loader of one batch. *)
Lemma evaluation_is_deterministic_witness :
  exists w1' w1'',
    evaluate_dropout (Tk := first_argmax_Topk) 0 30 zero_loader zero_loader
      (start zero_classifier
         (optim_Adam (parameters zero_classifier) (4 / 1000)) keep_all)
    = Ok (tt, w1') /\
    evaluate_dropout (Tk := first_argmax_Topk) 0 30 zero_loader zero_loader w1'
      = Ok (tt, w1'') /\
    accuracy w1'' = accuracy w1' /\ test_loss w1'' = test_loss w1'.
Proof.
  apply (evaluation_is_deterministic (Tk := first_argmax_Topk) 0 30 30
    zero_loader zero_loader zero_loader
           (start zero_classifier
              (optim_Adam (parameters zero_classifier) (4 / 1000)) keep_all)
           (start zero_classifier
              (optim_Adam (parameters zero_classifier) (3 / 1000))
              (mkGenerator (fun _ => false) 7))
           keep_all (mkGenerator (fun _ => false) 7) zero_image
           zero_classifier_wf zero_classifier_wf eq_refl
           (Forall_cons _ zero_batch_valid (Forall_nil _))
           (Nat.neq_succ_0 0) (Nat.neq_succ_0 0) (Nat.neq_succ_0 0)).
Defined.

(** ** Accuracy: main statement *)

(** C9.  The accuracy of a batch is the number of rows whose predicted
    class equals the label, divided by the number of rows, where the
    predicted class is an arg-max of the class probabilities of the row;
    and the accuracy a validation pass reports is the mean of the
    accuracies of its batches. *)
Theorem reported_accuracy_is_mean_of_batch_accuracies {Tk : Topk}
  (e epochs : nat)
  (trainloader testloader : DataLoader) (w : World Classifier Adam)
  (log_ps : Matrix) (labels : list nat) (b c : nat) :
  has_shape log_ps b c -> (0 < c)%nat -> length labels = b ->
  Classifier_wf (model w) -> DataLoader_valid testloader ->
  num_batches trainloader <> 0%nat ->
  batch_accuracy log_ps labels
  = Ok (INR (correct_rows log_ps labels) / INR b) /\
  Forall (fun r => is_argmax (map exp r) (predicted_class r)) log_ps /\
  (exists w' accs training_loss test_loss,
     evaluate e epochs trainloader testloader w = Ok (tt, w') /\
     Forall2 (batch_fraction_correct (model w)) (iterate testloader e) accs /\
     stdout w'
     = stdout w ++ [Summary (e + 1) epochs training_loss test_loss (mean accs)])
       /\
  (exists w' accs training_loss test_loss,
     evaluate_dropout e epochs trainloader testloader w = Ok (tt, w') /\
     Forall2 (batch_fraction_correct (model w)) (iterate testloader e) accs /\
     stdout w'
     = stdout w ++
       [Summary (e + 1) epochs training_loss test_loss (mean accs)]).
Proof.
  intros Hs Hc Hlen Hm (Lte & Nte & Vte) Ntr.
  split; [apply (batch_accuracy_value log_ps labels b c); assumption|].
  split; [apply (predicted_classes_are_argmax log_ps b c); assumption|].
  split.
  - destruct (evaluate_spec e epochs trainloader testloader w Hm (Vte e) Ntr
    Nte)
      as (w' & accs & losses & E & _ & _ & _ & _ & _ & _ & _ & Fa & _ & S & _).
    exists w', accs. eexists _, _. split; [exact E|]. split; [exact Fa|].
    rewrite S. unfold mean.
    rewrite <- (Forall2_length Fa), Lte. reflexivity.
  - destruct (evaluate_dropout_spec e epochs trainloader testloader w Hm (Vte e)
                Ntr Nte)
      as (w' & accs & losses & E & _ & _ & _ & _ & _ & _ & _ & Fa & _ & S & _).
    exists w', accs. eexists _, _. split; [exact E|]. split; [exact Fa|].
    rewrite S. unfold mean.
    rewrite <- (Forall2_length Fa), Lte. reflexivity.
Qed.

Lemma tie_rows_shape : has_shape [[0; 0]; [0; 0]; [0; 0]] 3 2.
Proof. split; [reflexivity | repeat constructor]. Qed.

(** On a batch of three tied rows and on a validation pass over one
    batch. *)
Lemma reported_accuracy_is_mean_of_batch_accuracies_witness :
  batch_accuracy (Tk := first_argmax_Topk) [[0; 0]; [0; 0]; [0; 0]]
    [0; 1; 0]%nat
  = Ok (INR (correct_rows (Tk := first_argmax_Topk) [[0; 0]; [0; 0]; [0; 0]]
    [0; 1; 0]%nat) / INR 3) /\
  exists w' accs training_loss test_loss,
    evaluate (Tk := first_argmax_Topk) 0 30 zero_loader zero_loader
      (start zero_classifier
         (optim_Adam (parameters zero_classifier) (3 / 1000)) keep_all)
    = Ok (tt, w') /\
    Forall2 (batch_fraction_correct (Tk := first_argmax_Topk) zero_classifier)
      [(zero_image, [3%nat])]
      accs /\
    stdout w' = [] ++ [Summary (0 + 1) 30 training_loss test_loss (mean accs)].
Proof.
  pose proof (reported_accuracy_is_mean_of_batch_accuracies
    (Tk := first_argmax_Topk) 0 30 zero_loader
                zero_loader
                (start zero_classifier
                   (optim_Adam (parameters zero_classifier) (3 / 1000))
                   keep_all)
                [[0; 0]; [0; 0]; [0; 0]] [0; 1; 0]%nat 3 2
                tie_rows_shape
                (Nat.lt_0_succ 1) eq_refl zero_classifier_wf zero_loader_valid
                (Nat.neq_succ_0 0)) as (H1 & _ & H3 & _).
  split; [exact H1 | exact H3].
Defined.

(** A worked batch: when [topk] returns the first index on ties, the
    predicted class on rows of equal scores is 0; of the labels 0, 1, 0
    two are right. *)
Example batch_accuracy_example :
  batch_accuracy (Tk := first_argmax_Topk) [[0; 0]; [0; 0]; [0; 0]]
    [0; 1; 0]%nat = Ok (2 / 3).
Proof.
  rewrite (batch_accuracy_value _ _ 3 2);
    [|exact tie_rows_shape | lia | reflexivity].
  f_equal. unfold correct_rows, predicted_class. simpl.
  destruct (Rlt_dec (exp 0) (exp 0)) as [H|H]; [lra|]. simpl. lra.
Qed.

(** * Further properties of the notebooks *)

(** ** Log-softmax and the two criteria *)

Lemma sum_exp_shift (c : R) (r : list R) :
  sum_list (map exp (map (Rplus c) r)) = sum_list (map exp r) * exp c.
Proof.
  rewrite map_map, <- (sum_list_scale (exp c) exp).
  apply sum_list_ext. intros x _. rewrite exp_plus. lra.
Qed.

Lemma sum_exp_map_pos (r : list R) : r <> [] -> 0 < sum_list (map exp r).
Proof. intros Hr. apply (sum_exp_pos (fun x => x)). exact Hr. Qed.

Lemma log_softmax_row_shift (c : R) (r : list R) :
  log_softmax_row (map (Rplus c) r) = log_softmax_row r.
Proof.
  destruct r as [|a r]; [reflexivity|].
  rewrite !log_softmax_row_logsumexp by discriminate.
  rewrite sum_exp_shift, map_map.
  pose proof (sum_exp_map_pos (a :: r) ltac:(discriminate)) as HS.
  rewrite ln_mult, ln_exp by (try exact HS; apply exp_pos).
  apply map_ext. intros x. lra.
Qed.

Lemma log_softmax_row_idempotent (r : list R) :
  log_softmax_row (log_softmax_row r) = log_softmax_row r.
Proof.
  destruct r as [|a r]; [reflexivity|].
  assert (Hne : log_softmax_row (a :: r) <> []).
  { intros H. apply (f_equal (@length R)) in H.
    rewrite log_softmax_row_length in H. discriminate. }
  rewrite (log_softmax_row_logsumexp (log_softmax_row (a :: r))) by exact Hne.
  rewrite log_softmax_row_normalized by discriminate.
  rewrite ln_1. rewrite <- (map_id (log_softmax_row (a :: r))) at 2.
  apply map_ext. intros x. lra.
Qed.

Lemma log_softmax_idempotent (z : Matrix) :
  log_softmax (log_softmax z) = log_softmax z.
Proof.
  unfold log_softmax. rewrite map_map. apply map_ext.
  intros r. apply log_softmax_row_idempotent.
Qed.

(** X1.  The two loss cells of "Training Neural Networks" agree: the
    cross entropy of the logits of the first model is the negative log
    likelihood of the output of the second, for the same layers and the
    same batch, errors included; and since log-softmax is idempotent, the
    cross entropy of log-probabilities is their negative log likelihood. *)
Theorem cross_entropy_is_nll_of_log_softmax (l0 l2 l4 : Linear) (b : Batch)
  (z : Matrix) (labels : list nat) :
  loss_of_logits l0 l2 l4 b = loss_of_log_probabilities l0 l2 l4 b /\
  log_softmax (log_softmax z) = log_softmax z /\
  CrossEntropyLoss (log_softmax z) labels = NLLLoss (log_softmax z) labels.
Proof.
  pose proof (log_softmax_idempotent z) as Hi.
  split; [|split].
  - unfold loss_of_logits, loss_of_log_probabilities, CrossEntropyLoss.
    destruct (view_batch (fst b)) as [images|]; cbn [bind]; [|reflexivity].
    rewrite Sequential_forward_logits.
    destruct (Sequential_forward (mnist_logits l0 l2 l4) images);
      reflexivity.
  - exact Hi.
  - unfold CrossEntropyLoss. rewrite Hi. reflexivity.
Qed.

(** X2.  Log-softmax, and with it both criteria, only see the differences
    between the scores of a row: adding a constant to every score of a row
    (a different one for each row) changes neither the log-probabilities
    nor the loss. *)
Theorem log_softmax_ignores_row_shifts (z z' : Matrix) (labels : list nat) :
  Forall2 (fun r r' => exists c, r' = map (Rplus c) r) z z' ->
  log_softmax z' = log_softmax z /\
  CrossEntropyLoss z' labels = CrossEntropyLoss z labels.
Proof.
  intros H.
  assert (E : log_softmax z' = log_softmax z).
  { unfold log_softmax. induction H as [|r r' z z' [c ->] _ IH]; simpl.
    - reflexivity.
    - rewrite log_softmax_row_shift, IH. reflexivity. }
  split; [exact E|]. unfold CrossEntropyLoss. rewrite E. reflexivity.
Qed.

Lemma log_softmax_ignores_row_shifts_witness :
  log_softmax [[3 + 1; 3 + 2]; [-1 + 0; -1 + 0]] = log_softmax [[1; 2]; [0; 0]]
  /\ CrossEntropyLoss [[3 + 1; 3 + 2]; [-1 + 0; -1 + 0]] [1; 0]%nat
     = CrossEntropyLoss [[1; 2]; [0; 0]] [1; 0]%nat.
Proof.
  apply (log_softmax_ignores_row_shifts [[1; 2]; [0; 0]]
           [[3 + 1; 3 + 2]; [-1 + 0; -1 + 0]] [1; 0]%nat).
  constructor; [exists 3; reflexivity|].
  constructor; [exists (-1); reflexivity|]. constructor.
Defined.

(** ** Probabilities and the sign of the loss *)

Lemma exp_le_sum_exp (x : R) (r : list R) :
  In x r -> exp x <= sum_list (map exp r).
Proof.
  induction r as [|a r IH]; simpl; intros H; [contradiction|].
  destruct H as [->|H].
  - destruct r as [|b r]; simpl; [lra|].
    pose proof (sum_exp_map_pos (b :: r) ltac:(discriminate)) as Hp.
    simpl in Hp. lra.
  - specialize (IH H). pose proof (exp_pos a). lra.
Qed.

Lemma exp_lt_sum_exp (x : R) (r : list R) :
  In x r -> (2 <= length r)%nat -> exp x < sum_list (map exp r).
Proof.
  destruct r as [|a [|b r]]; simpl; intros H L; try lia.
  pose proof (exp_pos a). pose proof (exp_pos b).
  destruct H as [->|[->|H]].
  - destruct r as [|c r]; simpl; [lra|].
    pose proof (sum_exp_map_pos (c :: r) ltac:(discriminate)) as Hp.
    simpl in Hp. lra.
  - destruct r as [|c r]; simpl; [lra|].
    pose proof (sum_exp_map_pos (c :: r) ltac:(discriminate)) as Hp.
    simpl in Hp. lra.
  - pose proof (exp_le_sum_exp x r H). lra.
Qed.

(** With at least two classes every log-probability is negative. *)
Lemma log_softmax_row_negative (r : list R) :
  (2 <= length r)%nat -> Forall (fun v => v < 0) (log_softmax_row r).
Proof.
  intros L. assert (Hr : r <> []) by (intros ->; simpl in L; lia).
  rewrite log_softmax_row_logsumexp by exact Hr.
  apply Forall_map. apply Forall_forall. intros x Hx.
  pose proof (exp_lt_sum_exp x r Hx L) as Hlt.
  pose proof (ln_increasing _ _ (exp_pos x) Hlt) as H. rewrite ln_exp in H.
  lra.
Qed.

Lemma nll_terms_positive (logps : Matrix) (labels : list nat) (ts : list R) :
  Forall (Forall (fun v => v < 0)) logps ->
  nll_terms logps labels = Ok ts -> Forall (fun t => 0 < t) ts.
Proof.
  intros H. revert labels ts.
  induction H as [|r logps Hr _ IH]; intros [|y labels] ts E; simpl in E;
    try discriminate.
  - injection E as <-. constructor.
  - destruct (Nat.ltb_spec y (length r)) as [Hy|]; [|discriminate].
    destruct (nll_terms logps labels) as [rest|] eqn:Er; [|discriminate].
    simpl in E. injection E as <-. constructor.
    + rewrite Forall_forall in Hr.
      specialize (Hr (nth y r 0) (nth_In r 0 Hy)). lra.
    + apply (IH labels). exact Er.
Qed.

Lemma sum_list_positive (l : list R) :
  Forall (fun t => 0 < t) l -> l <> [] -> 0 < sum_list l.
Proof.
  intros H Hl. destruct H as [|a l Ha H]; [congruence|]. clear Hl. simpl.
  assert (0 <= sum_list l); [|lra].
  induction H as [|b l Hb _ IH]; simpl; lra.
Qed.

Lemma NLLLoss_positive (z : Matrix) (labels : list nat) (b c : nat) :
  has_shape z b c -> (2 <= c)%nat -> (1 <= b)%nat -> length labels = b ->
  Forall (fun y => (y < c)%nat) labels ->
  Forall (Forall (fun v => v < 0)) (log_softmax z) /\
  exists l, NLLLoss (log_softmax z) labels = Ok l /\ 0 < l.
Proof.
  intros Sz Hc Hb Hlen Hlab.
  assert (Hneg : Forall (Forall (fun v => v < 0)) (log_softmax z)).
  { unfold log_softmax. apply Forall_map. destruct Sz as [_ Hrows].
    revert Hrows. apply Forall_impl. intros r Hr.
    apply log_softmax_row_negative. lia. }
  split; [exact Hneg|].
  pose proof (log_softmax_shape z b c Sz) as [Lb Lrows].
  destruct (nll_terms_ok (log_softmax z) labels c Lrows) as (ts & E & L);
    [lia | assumption |].
  unfold NLLLoss. rewrite E. simpl. eexists. split; [reflexivity|].
  pose proof (nll_terms_positive _ _ _ Hneg E) as Hts.
  assert (Hne : ts <> []).
  { intros ->. simpl in L. lia. }
  pose proof (sum_list_positive ts Hts Hne).
  apply Rdiv_lt_0_compat; [assumption|].
  apply lt_0_INR. destruct ts; [congruence | simpl; lia].
Qed.

(** X3.  With at least two classes and at least one example, every
    probability the model returns is strictly below 1 (every
    log-probability is negative), so the loss of a batch is strictly
    positive: it can approach zero and never reach it. *)
Theorem loss_is_strictly_positive (z : Matrix) (labels : list nat)
  (b c : nat) :
  has_shape z b c -> (2 <= c)%nat -> (1 <= b)%nat -> length labels = b ->
  Forall (fun y => (y < c)%nat) labels ->
  Forall (Forall (fun v => v < 0)) (log_softmax z) /\
  (exists l, NLLLoss (log_softmax z) labels = Ok l /\ 0 < l) /\
  (exists l, CrossEntropyLoss z labels = Ok l /\ 0 < l).
Proof.
  intros Sz Hc Hb Hlen Hlab.
  destruct (NLLLoss_positive z labels b c Sz Hc Hb Hlen Hlab)
    as [Hneg (l & E & Hl)].
  split; [exact Hneg|]. split; exists l; split; assumption.
Qed.

Lemma loss_is_strictly_positive_witness :
  Forall (Forall (fun v => v < 0)) (log_softmax [[0; 0]; [0; 0]; [0; 0]]) /\
  (exists l, NLLLoss (log_softmax [[0; 0]; [0; 0]; [0; 0]]) [0; 1; 0]%nat
             = Ok l /\ 0 < l) /\
  (exists l, CrossEntropyLoss [[0; 0]; [0; 0]; [0; 0]] [0; 1; 0]%nat = Ok l /\
             0 < l).
Proof.
  apply (loss_is_strictly_positive [[0; 0]; [0; 0]; [0; 0]] [0; 1; 0]%nat 3 2
           tie_rows_shape (le_n 2) (Nat.lt_0_succ 2) eq_refl).
  repeat constructor.
Defined.

(** ** The predicted class *)

Lemma nth_map_in_range (f : R -> R) (r : list R) (j : nat) :
  (j < length r)%nat -> nth j (map f r) 0 = f (nth j r 0).
Proof.
  intros Hj. rewrite (nth_indep _ 0 (f 0)) by (rewrite length_map; exact Hj).
  apply map_nth.
Qed.

(** A strictly increasing function moves no arg-max. *)
Lemma is_argmax_increasing (f : R -> R) (r : list R) (k : nat) :
  (forall x y, x < y -> f x < f y) ->
  is_argmax (map f r) k -> is_argmax r k.
Proof.
  intros Hf [Hk Hmax]. rewrite length_map in Hk, Hmax.
  split; [exact Hk|]. intros j Hj. specialize (Hmax j Hj).
  rewrite !nth_map_in_range in Hmax by assumption.
  destruct (Rle_lt_dec (nth j r 0) (nth k r 0)) as [H|H]; [exact H|].
  pose proof (Hf _ _ H). lra.
Qed.

Lemma unique_max_increasing (f : R -> R) (r : list R) :
  (forall x y, x < y -> f x < f y) -> unique_max r -> unique_max (map f r).
Proof.
  intros Hf (k & Hk & Hmax). exists k. rewrite length_map.
  split; [exact Hk|]. intros j Hj Hne.
  rewrite !nth_map_in_range by assumption. apply Hf. apply Hmax; assumption.
Qed.

(** On a row without ties there is one arg-max. *)
Lemma unique_max_one_argmax (r : list R) (a a' : nat) :
  unique_max r -> is_argmax r a -> is_argmax r a' -> a = a'.
Proof.
  intros (k & Hk & Hmax) [Ha Hamax] [Ha' Hamax'].
  assert (E : forall i, (i < length r)%nat ->
            (forall j, (j < length r)%nat -> nth j r 0 <= nth i r 0) ->
            i = k).
  { intros i Hi Hle. destruct (Nat.eq_dec i k) as [E|E]; [exact E|].
    pose proof (Hmax i Hi E). pose proof (Hle k Hk). lra. }
  rewrite (E a Ha Hamax), (E a' Ha' Hamax'). reflexivity.
Qed.

Lemma unique_max_nonempty (r : list R) : unique_max r -> r <> [].
Proof. intros (k & Hk & _) ->. simpl in Hk. lia. Qed.

Lemma log_softmax_row_increasing (r : list R) :
  exists f, (forall x y, x < y -> f x < f y) /\ log_softmax_row r = map f r.
Proof.
  unfold log_softmax_row.
  exists (fun x => x - row_max r
                   - ln (sum_list (map (fun x0 => exp (x0 - row_max r)) r))).
  split; [intros x y H; lra | reflexivity].
Qed.

(** On a row of scores without ties, whatever [topk] does on ties, the
    class it returns for the probabilities is the one it returns for the
    scores and for the log-probabilities. *)
Lemma top1_row_probabilities (T1 T2 : Topk) (r : list R) :
  unique_max r ->
  snd (top1_row (Tk := T1) (map exp (log_softmax_row r)))
  = snd (top1_row (Tk := T2) r) /\
  snd (top1_row (Tk := T1) (map exp (log_softmax_row r)))
  = snd (top1_row (Tk := T2) (log_softmax_row r)).
Proof.
  intros Hu. pose proof (unique_max_nonempty r Hu) as Hr.
  destruct (log_softmax_row_increasing r) as (f & Hf & Ef).
  assert (Hl : log_softmax_row r <> []).
  { intros E. apply Hr. apply length_zero_iff_nil.
    rewrite <- (log_softmax_row_length r), E. reflexivity. }
  assert (He : map exp (log_softmax_row r) <> []).
  { intros E. apply Hl. apply map_eq_nil in E. exact E. }
  unfold top1_row. cbn [snd].
  pose proof (topk_index_max (Topk := T1) _ He) as H1.
  apply (is_argmax_increasing exp) in H1; [|apply exp_increasing].
  set (k := topk_index (map exp (log_softmax_row r))) in *.
  split.
  - apply (unique_max_one_argmax r);
    [exact Hu | | apply topk_index_max; exact Hr].
    rewrite Ef in H1. apply (is_argmax_increasing f); assumption.
  - apply (unique_max_one_argmax (log_softmax_row r));
      [ | exact H1 | apply topk_index_max; exact Hl].
    rewrite Ef. apply unique_max_increasing; assumption.
Qed.

(** X4.  On a batch whose rows of scores have no tie for the first place,
    the class [topk] picks from the probabilities is the position of the
    largest raw score, whatever [topk] returns on tied rows: the accuracy
    of the batch is that of the arg-max of the scores, or of the
    log-probabilities, and the exponential in the validation loop does not
    change it. *)
Theorem accuracy_needs_no_probabilities (T1 T2 : Topk) (z : Matrix)
  (labels : list nat) :
  Forall unique_max z ->
  batch_accuracy (Tk := T1) (log_softmax z) labels
  = accuracy_of_scores (Tk := T2) z labels /\
  batch_accuracy (Tk := T1) (log_softmax z) labels
  = accuracy_of_scores (Tk := T2) (log_softmax z) labels.
Proof.
  intros Hz. rewrite Forall_forall in Hz.
  unfold batch_accuracy, accuracy_of_scores, topk1, mexp.
  assert (F : forallb (fun r => (1 <=? length r)%nat)
                (map (map exp) (log_softmax z))
              = forallb (fun r => (1 <=? length r)%nat) z).
  { unfold log_softmax. clear Hz. induction z as [|r z IH]; cbn [map forallb].
    - reflexivity.
    - rewrite length_map, log_softmax_row_length, IH. reflexivity. }
  assert (F' : forallb (fun r => (1 <=? length r)%nat) (log_softmax z)
               = forallb (fun r => (1 <=? length r)%nat) z).
  { unfold log_softmax. clear Hz F. induction z as [|r z IH]; cbn [map forallb].
    - reflexivity.
    - rewrite log_softmax_row_length, IH. reflexivity. }
  rewrite F, F'. destruct (forallb _ z); [|split; reflexivity].
  cbn [bind snd]. unfold log_softmax. rewrite !map_map.
  rewrite (map_ext_in
             (fun r => snd (top1_row (Tk := T1) (map exp (log_softmax_row r))))
             (fun r => snd (top1_row (Tk := T2) r)))
    by (intros r Hr; apply (top1_row_probabilities T1 T2 r (Hz r Hr))).
  split; [reflexivity|].
  rewrite (map_ext_in
             (fun r => snd (top1_row (Tk := T2) r))
             (fun r => snd (top1_row (Tk := T2) (log_softmax_row r))))
    by (intros r Hr;
        rewrite <- (proj1 (top1_row_probabilities T1 T2 r (Hz r Hr)));
        apply (top1_row_probabilities T1 T2 r (Hz r Hr))).
  reflexivity.
Qed.

(** Two rows of two scores; the first index is one admissible choice. *)
Lemma accuracy_needs_no_probabilities_witness :
  batch_accuracy (Tk := first_argmax_Topk) (log_softmax [[0; 1]; [3; 2]])
    [1; 1]%nat
  = accuracy_of_scores (Tk := first_argmax_Topk) [[0; 1]; [3; 2]] [1; 1]%nat.
Proof.
  apply (accuracy_needs_no_probabilities first_argmax_Topk first_argmax_Topk
           [[0; 1]; [3; 2]] [1; 1]%nat).
  constructor; [|constructor; [|constructor]].
  - exists 1%nat. split; [simpl; lia|]. intros j Hj Hne. simpl in Hj.
    assert (j = 0%nat) as -> by lia. simpl. lra.
  - exists 0%nat. split; [simpl; lia|]. intros j Hj Hne. simpl in Hj.
    assert (j = 1%nat) as -> by lia. simpl. lra.
Defined.

(** ** The top probability *)

Lemma sum_list_le_bound (l : list R) (M : R) :
  Forall (fun v => v <= M) l -> sum_list l <= INR (length l) * M.
Proof.
  induction 1 as [|a l Ha _ IH].
  - simpl. lra.
  - change (length (a :: l)) with (S (length l)). rewrite S_INR. simpl. lra.
Qed.

Lemma top1_row_of_probabilities {Tk : Topk} (r : list R) :
  r <> [] ->
  / INR (length r) <= fst (top1_row (map exp (log_softmax_row r))) <= 1 /\
  (snd (top1_row (map exp (log_softmax_row r))) < length r)%nat.
Proof.
  intros Hr.
  set (l := log_softmax_row r).
  assert (Ll : length l = length r) by apply log_softmax_row_length.
  assert (Hp : map exp l <> []).
  { intros H. apply (f_equal (@length R)) in H. rewrite length_map, Ll in H.
    destruct r; [congruence | discriminate]. }
  destruct (top1_row_is_argmax (map exp l) Hp) as [[Hk Hmax] Hv].
  set (k := snd (top1_row (map exp l))) in *.
  set (p := fst (top1_row (map exp l))) in *.
  rewrite length_map in Hk.
  pose proof (log_softmax_row_normalized r Hr) as Hsum. fold l in Hsum.
  assert (Hn : 0 < INR (length r)).
  { apply lt_0_INR. destruct r; [congruence | simpl; lia]. }
  split; [split|lia].
  - assert (Hall : Forall (fun v => v <= p) (map exp l)).
    { apply Forall_forall. intros v Hin.
      destruct (In_nth _ _ 0 Hin) as (j & Hj & <-).
      rewrite <- Hv. apply Hmax. exact Hj. }
    pose proof (sum_list_le_bound _ _ Hall) as Hle.
    rewrite Hsum, length_map, Ll in Hle.
    apply (Rmult_le_reg_l (INR (length r))); [exact Hn|].
    rewrite Rinv_r by lra. exact Hle.
  - rewrite <- Hv, <- Hsum.
    rewrite (nth_indep _ 0 (exp 0)) by (rewrite length_map; exact Hk).
    rewrite map_nth. apply exp_le_sum_exp. apply nth_In. exact Hk.
Qed.

(** X5.  [topk(1, dim = 1)] on the probabilities returns, for every row,
    a class index below the number of classes and a top probability that
    is at least 1 / (number of classes) and at most 1. *)
Theorem top_probability_bounds {Tk : Topk} (z : Matrix) (b c : nat) :
  has_shape z b c -> (0 < c)%nat ->
  exists top_p top_class,
    topk1 (mexp (log_softmax z)) = Ok (top_p, top_class) /\
    length top_p = b /\ length top_class = b /\
    Forall (fun p => / INR c <= p <= 1) top_p /\
    Forall (fun k => (k < c)%nat) top_class.
Proof.
  intros [Hb Hrows] Hc. unfold topk1, mexp, log_softmax.
  assert (F : forallb (fun r => (1 <=? length r)%nat)
                (map (map exp) (map log_softmax_row z)) = true).
  { apply forallb_forall. intros r Hr. rewrite map_map in Hr.
    apply in_map_iff in Hr as (r0 & <- & Hr0).
    rewrite Forall_forall in Hrows.
    rewrite length_map, log_softmax_row_length, (Hrows r0 Hr0).
    apply Nat.leb_le. lia. }
  rewrite F. eexists _, _. split; [reflexivity|].
  rewrite !length_map. split; [exact Hb|]. split; [exact Hb|].
  rewrite !map_map. split; apply Forall_map; revert Hrows; apply Forall_impl;
    intros r Hr;
    (assert (Hne : r <> []) by (intros ->; simpl in Hr; lia));
    destruct (top1_row_of_probabilities r Hne) as [H1 H2];
    rewrite Hr in *; assumption.
Qed.

Lemma top_probability_bounds_witness :
  exists top_p top_class,
    topk1 (Tk := first_argmax_Topk) (mexp (log_softmax
      [[0; 0]; [0; 0]; [0; 0]]))
    = Ok (top_p, top_class) /\
    length top_p = 3%nat /\ length top_class = 3%nat /\
    Forall (fun p => / INR 2 <= p <= 1) top_p /\
    Forall (fun k => (k < 2)%nat) top_class.
Proof.
  apply (top_probability_bounds (Tk := first_argmax_Topk)
    [[0; 0]; [0; 0]; [0; 0]] 3 2 tie_rows_shape
           (Nat.lt_0_succ 1)).
Defined.

(** ** The reported accuracy and the overall fraction *)

Lemma sum_of_batch_fractions {Tk : Topk}
  (m : Classifier) (s : nat) (bs : list Batch)
  (accs : list R) :
  Forall (fun b => length (snd b) = s) bs ->
  Forall2 (batch_fraction_correct m) bs accs ->
  sum_list accs = INR (list_sum (map (correct_in_batch m) bs)) / INR s.
Proof.
  intros Hs H. induction H as [|b a bs accs (log_ps & E & -> & _) _ IH].
  - simpl. unfold Rdiv. ring.
  - inversion Hs as [|? ? Hb Hs']; subst.
    change (list_sum (map (correct_in_batch m) (b :: bs)))
      with (correct_in_batch m b + list_sum (map (correct_in_batch m) bs))%nat.
    change (sum_list (INR (correct_rows log_ps (snd b)) / INR (length (snd b))
                      :: accs))
      with (INR (correct_rows log_ps (snd b)) / INR (length (snd b))
            + sum_list accs).
    assert (Ec : correct_in_batch m b = correct_rows log_ps (snd b))
      by (unfold correct_in_batch; rewrite E; reflexivity).
    rewrite (IH Hs'), plus_INR, Ec. unfold Rdiv. ring.
Qed.

(** X6.  When every test batch holds the same number [s] of examples, the
    accuracy a validation pass prints is the overall fraction of the test
    examples that are classified correctly: their number divided by
    [s * len(testloader)].  (The loop averages the accuracies of the
    batches, so a smaller last batch would weigh like a full one.) *)
Theorem accuracy_is_overall_fraction_for_equal_batches {Tk : Topk}
  (e epochs s : nat)
  (trainloader testloader : DataLoader) (w : World Classifier Adam) :
  Classifier_wf (model w) -> DataLoader_valid testloader ->
  num_batches trainloader <> 0%nat ->
  Forall (fun b => length (snd b) = s) (iterate testloader e) ->
  (exists w' training_loss test_loss,
     evaluate e epochs trainloader testloader w = Ok (tt, w') /\
     stdout w'
     = stdout w ++
       [Summary (e + 1) epochs training_loss test_loss
          (INR (list_sum (map (correct_in_batch (model w))
                            (iterate testloader e)))
           / INR (s * num_batches testloader))]) /\
  (exists w' training_loss test_loss,
     evaluate_dropout e epochs trainloader testloader w = Ok (tt, w') /\
     stdout w'
     = stdout w ++
       [Summary (e + 1) epochs training_loss test_loss
          (INR (list_sum (map (correct_in_batch (model w))
                            (iterate testloader e)))
           / INR (s * num_batches testloader))]).
Proof.
  intros Hm (Lte & Nte & Vte) Ntr Hs.
  assert (G : forall accs,
            Forall2 (batch_fraction_correct (model w)) (iterate testloader e)
              accs ->
            sum_list accs / INR (num_batches testloader)
            = INR (list_sum (map (correct_in_batch (model w))
                               (iterate testloader e)))
              / INR (s * num_batches testloader)).
  { intros accs Fa. rewrite (sum_of_batch_fractions _ s _ _ Hs Fa).
    rewrite mult_INR. unfold Rdiv. rewrite Rinv_mult. ring. }
  split.
  - destruct (evaluate_spec e epochs trainloader testloader w Hm (Vte e) Ntr
    Nte)
      as (w' & accs & losses & E & _ & _ & _ & _ & _ & _ & _ & Fa & _ & S & _).
    exists w'. eexists _, _. split; [exact E|]. rewrite S, (G accs Fa).
    reflexivity.
  - destruct (evaluate_dropout_spec e epochs trainloader testloader w Hm (Vte e)
                Ntr Nte)
      as (w' & accs & losses & E & _ & _ & _ & _ & _ & _ & _ & Fa & _ & S & _).
    exists w'. eexists _, _. split; [exact E|]. rewrite S, (G accs Fa).
    reflexivity.
Qed.

Lemma accuracy_is_overall_fraction_for_equal_batches_witness :
  exists w' training_loss test_loss,
    evaluate (Tk := first_argmax_Topk) 0 30 zero_loader zero_loader
      (start zero_classifier
         (optim_Adam (parameters zero_classifier) (3 / 1000)) keep_all)
    = Ok (tt, w') /\
    stdout w'
    = [] ++
      [Summary (0 + 1) 30 training_loss test_loss
         (INR (list_sum (map (correct_in_batch (Tk := first_argmax_Topk)
           zero_classifier)
                           [(zero_image, [3%nat])]))
          / INR (1 * 1))].
Proof.
  apply (proj1 (accuracy_is_overall_fraction_for_equal_batches
    (Tk := first_argmax_Topk) 0 30 1
                  zero_loader zero_loader
                  (start zero_classifier
                     (optim_Adam (parameters zero_classifier) (3 / 1000))
                     keep_all)
                  zero_classifier_wf zero_loader_valid (Nat.neq_succ_0 0)
                  (Forall_cons (zero_image, [3%nat])
                     (eq_refl : length (snd (zero_image, [3%nat])) = 1%nat)
                     (Forall_nil _)))).
Defined.

(** ** The transform of the images *)

Lemma transform_channel (pic : Image) :
  transform pic
  = [map (fun b => (INR (Byte.to_nat b) / 255 - 5 / 10) / (5 / 10)) pic].
Proof. unfold transform, ToTensor. simpl. rewrite map_map. reflexivity. Qed.

Lemma INR_255 : INR 255 = 255.
Proof. rewrite INR_IZR_INZ. reflexivity. Qed.

(** X7.  The transform of the two notebooks turns an image into one
    channel with one value per pixel, the byte [p] becoming
    [2 * p / 255 - 1]: black is -1, white is 1 and every value lies
    between -1 and 1. *)
Theorem transform_maps_pixels_into_range (pic : Image) :
  exists channel,
    transform pic = [channel] /\ length channel = length pic /\
    (forall i, (i < length pic)%nat ->
       nth i channel 0
       = 2 * INR (Byte.to_nat (nth i pic Byte.x00)) / 255 - 1) /\
    Forall (fun v => -1 <= v <= 1) channel.
Proof.
  eexists. split; [apply transform_channel|]. split; [apply length_map|].
  split.
  - intros i Hi.
    rewrite (nth_indep _ 0
               ((fun b => (INR (Byte.to_nat b) / 255 - 5 / 10) / (5 / 10))
                  Byte.x00))
      by (rewrite length_map; exact Hi).
    rewrite (map_nth (fun b => (INR (Byte.to_nat b) / 255 - 5 / 10) / (5 /
      10))).
    lra.
  - apply Forall_map. apply Forall_forall. intros b _.
    pose proof (pos_INR (Byte.to_nat b)) as H0.
    pose proof (le_INR _ _ (Byte.to_nat_bounded b)) as H1.
    rewrite INR_255 in H1. lra.
Qed.

(** ** The data loader *)

Lemma BatchSampler_from_concat (bs : nat) (sampler batch : list nat) :
  concat (BatchSampler_from bs sampler batch) = batch ++ sampler.
Proof.
  revert batch. induction sampler as [|idx sampler IH]; intros batch.
  - simpl. destruct batch; simpl; [reflexivity|].
    rewrite !app_nil_r. reflexivity.
  - cbn [BatchSampler_from].
    destruct (length (batch ++ [idx]) =? bs)%nat; cbn [concat]; rewrite IH;
      rewrite <- app_assoc; reflexivity.
Qed.

Lemma BatchSampler_from_sizes (bs : nat) (sampler batch : list nat) :
  (0 < bs)%nat -> (length batch < bs)%nat ->
  Forall (fun b => (1 <= length b <= bs)%nat)
    (BatchSampler_from bs sampler batch) /\
  forall i, (S i < length (BatchSampler_from bs sampler batch))%nat ->
            length (nth i (BatchSampler_from bs sampler batch) []) = bs.
Proof.
  intros Hbs. revert batch.
  induction sampler as [|idx sampler IH]; intros batch Hb.
  - simpl. destruct (Nat.ltb_spec 0 (length batch)); simpl.
    + split; [constructor; [lia | constructor]|]. intros i Hi. lia.
    + split; [constructor|]. intros i Hi. lia.
  - cbn [BatchSampler_from].
    assert (L : length (batch ++ [idx]) = S (length batch))
      by (rewrite length_app; simpl; lia).
    destruct (Nat.eqb_spec (length (batch ++ [idx])) bs) as [E|E].
    + destruct (IH [] ltac:(simpl; lia)) as [F N]. split.
      * constructor; [lia | exact F].
      * intros [|i] Hi; simpl in *; [exact E|]. apply N. lia.
    + apply IH. lia.
Qed.

Lemma BatchSampler_from_length (bs : nat) (sampler batch : list nat) :
  (0 < bs)%nat -> (length batch < bs)%nat ->
  length (BatchSampler_from bs sampler batch)
  = ((length batch + length sampler + bs - 1) / bs)%nat.
Proof.
  intros Hbs. revert batch.
  induction sampler as [|idx sampler IH]; intros batch Hb.
  - simpl. destruct (Nat.ltb_spec 0 (length batch)); simpl.
    + apply (Nat.div_unique _ bs 1 (length batch - 1)); lia.
    + apply (Nat.div_unique _ bs 0 (bs - 1)); lia.
  - cbn [BatchSampler_from].
    assert (L : length (batch ++ [idx]) = S (length batch))
      by (rewrite length_app; simpl; lia).
    destruct (Nat.eqb_spec (length (batch ++ [idx])) bs) as [E|E].
    + cbn [length]. rewrite (IH [] ltac:(simpl; lia)). simpl length.
      replace (length batch + S (length sampler) + bs - 1)%nat
        with (1 * bs + (0 + length sampler + bs - 1))%nat by lia.
      rewrite Nat.div_add_l by lia. reflexivity.
    + rewrite (IH (batch ++ [idx])) by lia. rewrite L. simpl length.
      f_equal. lia.
Qed.

Lemma mapM_ok {A B : Type} (f : A -> result B) (g : A -> B) (l : list A) :
  Forall (fun a => f a = Ok (g a)) l -> mapM f l = Ok (map g l).
Proof.
  induction 1 as [|a l Ha _ IH]; simpl; [reflexivity|].
  rewrite Ha, IH. reflexivity.
Qed.

Lemma getitem_ok (dataset : MNIST) (i : nat) :
  (i < length dataset)%nat ->
  getitem dataset i = Ok (dataset_item (nth i dataset ([], 0%nat))).
Proof.
  intros Hi. unfold getitem.
  rewrite (nth_error_nth' dataset ([], 0%nat) Hi). reflexivity.
Qed.

Lemma same_shapeb_refl (s : list nat) : same_shapeb s s = true.
Proof.
  unfold same_shapeb. destruct (list_eq_dec Nat.eq_dec s s); congruence.
Qed.

Lemma default_collate_uniform (s : list nat) (items : list (Tensor * nat)) :
  items <> [] -> Forall (fun it => shape (fst it) = s) items ->
  default_collate items
  = Ok (mkTensor (length items :: s)
          (concat (map (fun it => data (fst it)) items)),
        map snd items).
Proof.
  intros Hne H. destruct items as [|[t0 y0] items]; [congruence|].
  unfold default_collate.
  assert (F : forallb (fun it => same_shapeb (shape (fst it)) (shape t0))
                ((t0, y0) :: items) = true).
  { apply forallb_forall. intros it Hit. rewrite Forall_forall in H.
    rewrite (H it Hit). rewrite <- (H (t0, y0) (or_introl eq_refl)).
    apply same_shapeb_refl. }
  rewrite F. inversion H as [|? ? H0 _]; subst. reflexivity.
Qed.

Lemma default_collate_items (dataset : MNIST) (idx : list nat) :
  idx <> [] ->
  default_collate
    (map (fun i => dataset_item (nth i dataset ([], 0%nat))) idx)
  = Ok (fetch_batch dataset idx).
Proof.
  intros Hne.
  rewrite (default_collate_uniform [1; 28; 28]%nat).
  - unfold fetch_batch. rewrite length_map, !map_map. reflexivity.
  - destruct idx; [congruence | discriminate].
  - apply Forall_map. apply Forall_forall. intros i _. reflexivity.
Qed.

Lemma BatchSampler_indices (bs : nat) (indices : list nat) (P : nat -> Prop) :
  Forall P indices -> Forall (Forall P) (BatchSampler bs indices).
Proof.
  intros H. apply Forall_forall. intros idx Hidx.
  apply Forall_forall. intros i Hi. rewrite Forall_forall in H. apply H.
  rewrite <- (app_nil_l indices).
  rewrite <- (BatchSampler_from_concat bs indices []).
  apply in_concat. exists idx. split; assumption.
Qed.

Lemma DataLoader_iter_ok (dataset : MNIST) (bs : nat) (indices : list nat) :
  (0 < bs)%nat -> Forall (fun i => (i < length dataset)%nat) indices ->
  DataLoader_iter dataset bs indices
  = Ok (map (fetch_batch dataset) (BatchSampler bs indices)).
Proof.
  intros Hbs Hin. unfold DataLoader_iter. apply mapM_ok.
  pose proof (BatchSampler_indices bs indices _ Hin) as Hall.
  destruct (BatchSampler_from_sizes bs indices [] Hbs ltac:(simpl; lia))
    as [Hsz _].
  fold (BatchSampler bs indices) in Hsz.
  rewrite Forall_forall in *. intros idx Hidx.
  rewrite (mapM_ok _ (fun i => dataset_item (nth i dataset ([], 0%nat)))).
  - cbn [bind]. apply default_collate_items.
    intros ->. specialize (Hsz [] Hidx). simpl in Hsz. lia.
  - specialize (Hall idx Hidx). revert Hall. apply Forall_impl.
    intros i Hi. apply getitem_ok. exact Hi.
Qed.

Lemma permutation_in_range (n : nat) (indices : list nat) :
  Permutation indices (seq 0 n) -> Forall (fun i => (i < n)%nat) indices.
Proof.
  intros H. apply (Permutation_Forall (Permutation_sym H)).
  apply Forall_forall. intros i Hi. apply in_seq in Hi. lia.
Qed.

(** X8.  One pass over [DataLoader(dataset, batch_size = 64,
    shuffle = True)] succeeds and yields [len(loader)] batches, that is
    the number of examples divided by 64 and rounded up; every batch holds
    at least one and at most 64 examples, every batch but the last holds
    exactly 64, the images of a batch are stacked in a tensor of shape
    (batch, 1, 28, 28), and the sizes of the batches add up to the number
    of examples. *)
Theorem loader_batches_have_batch_size (dataset : MNIST)
  (indices : list nat) :
  Permutation indices (seq 0 (length dataset)) ->
  exists batches,
    DataLoader_iter dataset 64 indices = Ok batches /\
    length batches = DataLoader_len dataset 64 /\
    Forall (fun b => (1 <= length (snd b) <= 64)%nat /\
                     shape (fst b) = [length (snd b); 1; 28; 28]%nat)
      batches /\
    (forall i b, (S i < length batches)%nat -> nth_error batches i = Some b ->
                 length (snd b) = 64%nat) /\
    list_sum (map (fun b => length (snd b)) batches) = length dataset.
Proof.
  intros Hp.
  pose proof (permutation_in_range _ _ Hp) as Hin.
  pose proof (Permutation_length Hp) as Hlen. rewrite length_seq in Hlen.
  exists (map (fetch_batch dataset) (BatchSampler 64 indices)).
  split; [apply DataLoader_iter_ok; [lia | exact Hin]|].
  destruct (BatchSampler_from_sizes 64 indices [] ltac:(lia) ltac:(simpl; lia))
    as [Hsz Hfull].
  fold (BatchSampler 64 indices) in Hsz, Hfull.
  split; [|split; [|split]].
  - rewrite length_map. unfold BatchSampler, DataLoader_len.
    rewrite BatchSampler_from_length by (simpl; lia).
    simpl length. rewrite Hlen. reflexivity.
  - apply Forall_map. revert Hsz. apply Forall_impl. intros idx Hidx.
    unfold fetch_batch. cbn [fst snd shape]. rewrite length_map.
    split; [exact Hidx | reflexivity].
  - intros i b Hi Hb. rewrite length_map in Hi. rewrite nth_error_map in Hb.
    destruct (nth_error (BatchSampler 64 indices) i) as [idx|] eqn:Ei;
      [|discriminate].
    injection Hb as <-. unfold fetch_batch. cbn [snd]. rewrite length_map.
    rewrite <- (nth_error_nth _ _ [] Ei). apply Hfull. exact Hi.
  - rewrite map_map. unfold fetch_batch. cbn [snd].
    rewrite (map_ext _ (@length nat)) by (intros idx; apply length_map).
    rewrite <- length_concat. unfold BatchSampler.
    rewrite BatchSampler_from_concat. simpl. exact Hlen.
Qed.

Lemma loader_batches_have_batch_size_witness :
  exists batches,
    DataLoader_iter one_example 64 [0%nat] = Ok batches /\
    length batches = DataLoader_len one_example 64 /\
    Forall (fun b => (1 <= length (snd b) <= 64)%nat /\
                     shape (fst b) = [length (snd b); 1; 28; 28]%nat)
      batches /\
    (forall i b, (S i < length batches)%nat -> nth_error batches i = Some b ->
                 length (snd b) = 64%nat) /\
    list_sum (map (fun b => length (snd b)) batches) = length one_example.
Proof.
  apply (loader_batches_have_batch_size one_example [0%nat]).
  apply Permutation_refl.
Defined.

Lemma firstn_length_app {A : Type} (c : nat) (r x : list A) :
  length r = c -> firstn c (r ++ x) = r.
Proof.
  intros <-. rewrite firstn_app, firstn_all, Nat.sub_diag. simpl.
  apply app_nil_r.
Qed.

Lemma skipn_length_app {A : Type} (c : nat) (r x : list A) :
  length r = c -> skipn c (r ++ x) = x.
Proof.
  intros <-. rewrite skipn_app, skipn_all, Nat.sub_diag. reflexivity.
Qed.

Lemma chunks_concat (c : nat) (rows : list (list R)) :
  Forall (fun r => length r = c) rows ->
  chunks c (length rows) (concat rows) = rows.
Proof.
  induction 1 as [|r rows Hr _ IH]; [reflexivity|].
  cbn [length concat chunks].
  rewrite (firstn_length_app c r _ Hr), (skipn_length_app c r _ Hr), IH.
  reflexivity.
Qed.

Lemma combine_map_map {A B C : Type} (f : A -> B) (g : A -> C) (l : list A) :
  combine (map f l) (map g l) = map (fun a => (f a, g a)) l.
Proof.
  induction l as [|a l IH]; simpl; [reflexivity | rewrite IH; reflexivity].
Qed.

Lemma map_nth_seq {A : Type} (d : A) (l : list A) :
  map (fun i => nth i l d) (seq 0 (length l)) = l.
Proof.
  induction l as [|a l IH]; [reflexivity|].
  cbn [length seq map nth]. f_equal.
  rewrite <- seq_shift, map_map. exact IH.
Qed.

Lemma map_via_seq {A B : Type} (f : A -> B) (d : A) (l : list A) :
  map (fun i => f (nth i l d)) (seq 0 (length l)) = map f l.
Proof.
  rewrite <- (map_map (fun i => nth i l d) f), map_nth_seq. reflexivity.
Qed.

Lemma pixels_at_length (dataset : MNIST) (i : nat) :
  MNIST_wf dataset -> (i < length dataset)%nat ->
  length (pixels_at dataset i) = 784%nat.
Proof.
  intros Hwf Hi. unfold pixels_at. rewrite transform_channel. simpl.
  rewrite app_nil_r, length_map.
  unfold MNIST_wf in Hwf. rewrite Forall_forall in Hwf.
  apply (Hwf (nth i dataset ([], 0%nat))). apply nth_In. exact Hi.
Qed.

Lemma examples_of_fetch_batch (dataset : MNIST) (idx : list nat) :
  MNIST_wf dataset -> Forall (fun i => (i < length dataset)%nat) idx ->
  examples_of (fetch_batch dataset idx)
  = map (fun i => (pixels_at dataset i, class_at dataset i)) idx.
Proof.
  intros Hwf Hin. unfold examples_of, fetch_batch. cbn [fst snd data].
  rewrite length_map.
  rewrite <- (length_map (pixels_at dataset) idx).
  rewrite chunks_concat.
  - apply combine_map_map.
  - apply Forall_map. revert Hin. apply Forall_impl. intros i Hi.
    apply pixels_at_length; assumption.
Qed.

(** X9.  With [shuffle = True] one pass over the loader yields every
    example of the data set exactly once: the flattened images of all the
    batches, with their classes, are a permutation of the transformed
    data set. *)
Theorem loader_yields_every_example_once (dataset : MNIST)
  (indices : list nat) :
  MNIST_wf dataset -> Permutation indices (seq 0 (length dataset)) ->
  exists batches,
    DataLoader_iter dataset 64 indices = Ok batches /\
    Permutation (concat (map examples_of batches))
      (map (fun example => (concat (transform (fst example)), snd example))
         dataset).
Proof.
  intros Hwf Hp.
  pose proof (permutation_in_range _ _ Hp) as Hin.
  exists (map (fetch_batch dataset) (BatchSampler 64 indices)).
  split; [apply DataLoader_iter_ok; [lia | exact Hin]|].
  rewrite map_map.
  rewrite (map_ext_in _
             (map (fun i => (pixels_at dataset i, class_at dataset i)))).
  - rewrite <- concat_map. unfold BatchSampler.
    rewrite BatchSampler_from_concat. simpl app.
    rewrite <- (map_via_seq
                  (fun example => (concat (transform (fst example)),
                                   snd example))
                  ([], 0%nat) dataset).
    apply (Permutation_map
             (fun i => (pixels_at dataset i, class_at dataset i))).
    exact Hp.
  - intros idx Hidx. apply examples_of_fetch_batch; [exact Hwf|].
    pose proof (BatchSampler_indices 64 indices _ Hin) as Hall.
    rewrite Forall_forall in Hall. apply Hall. exact Hidx.
Qed.

Lemma one_example_wf : MNIST_wf one_example.
Proof.
  constructor; [|constructor]. split.
  - exact (repeat_length Byte.x00 784).
  - cbn [snd]. lia.
Qed.

Lemma loader_yields_every_example_once_witness :
  exists batches,
    DataLoader_iter one_example 64 [0%nat] = Ok batches /\
    Permutation (concat (map examples_of batches))
      (map (fun example => (concat (transform (fst example)), snd example))
         one_example).
Proof.
  apply (loader_yields_every_example_once one_example [0%nat] one_example_wf).
  apply Permutation_refl.
Defined.

Lemma fetch_batch_valid (dataset : MNIST) (idx : list nat) :
  MNIST_wf dataset -> idx <> [] ->
  Forall (fun i => (i < length dataset)%nat) idx ->
  Batch_valid (fetch_batch dataset idx).
Proof.
  intros Hwf Hne Hin.
  assert (Hn : length idx <> 0%nat) by (destruct idx;
    [congruence | discriminate]).
  assert (Ld : length (concat (map (pixels_at dataset) idx))
               = (784 * length idx)%nat).
  { rewrite (length_concat_uniform 784).
    - rewrite length_map. lia.
    - apply Forall_map. revert Hin. apply Forall_impl. intros i Hi.
      apply pixels_at_length; assumption. }
  unfold Batch_valid, fetch_batch. cbn [fst snd].
  split; [|split].
  - unfold inferred_size. cbn [shape data]. rewrite Ld.
    destruct (Nat.eqb_spec (length idx) 0); [contradiction|].
    rewrite Nat.Div0.mod_mul, Nat.div_mul by exact Hn. reflexivity.
  - cbn [shape hd]. apply length_map.
  - apply Forall_map. revert Hin. apply Forall_impl. intros i Hi.
    unfold class_at. unfold MNIST_wf in Hwf. rewrite Forall_forall in Hwf.
    apply (Hwf (nth i dataset ([], 0%nat))). apply nth_In. exact Hi.
Qed.

Lemma DataLoader_len_positive (dataset : MNIST) :
  dataset <> [] -> DataLoader_len dataset 64 <> 0%nat.
Proof.
  intros Hne. unfold DataLoader_len.
  assert (1 <= (length dataset + 64 - 1) / 64)%nat; [|lia].
  apply Nat.div_le_lower_bound; [lia|].
  destruct dataset; [congruence | simpl; lia].
Qed.

(** X10.  A loader over a non-empty data set of 28 x 28 images with
    classes below 10 meets what the training and validation loops need:
    [len(loader)] is not zero and is the number of batches of every pass,
    and every batch holds 784 elements per example and one class below 10
    per example. *)
Theorem loader_over_images_is_valid (dataset : MNIST)
  (randperm : nat -> list nat) (loader : DataLoader) :
  MNIST_wf dataset -> dataset <> [] ->
  is_DataLoader dataset randperm loader -> DataLoader_valid loader.
Proof.
  intros Hwf Hne (Hp & Hlen & Hit).
  assert (G : forall k, iterate loader k
                        = map (fetch_batch dataset)
                            (BatchSampler 64 (randperm k))).
  { intros k. specialize (Hit k).
    rewrite DataLoader_iter_ok in Hit;
      [|lia | apply permutation_in_range; apply Hp].
    injection Hit as <-. reflexivity. }
  split; [|split].
  - intros k. rewrite G, length_map, Hlen. unfold BatchSampler, DataLoader_len.
    rewrite BatchSampler_from_length by (simpl; lia). simpl length.
    rewrite (Permutation_length (Hp k)), length_seq. reflexivity.
  - rewrite Hlen. apply DataLoader_len_positive. exact Hne.
  - intros k. rewrite G. apply Forall_map.
    pose proof (permutation_in_range _ _ (Hp k)) as Hin.
    pose proof (BatchSampler_indices 64 (randperm k) _ Hin) as Hall.
    destruct (BatchSampler_from_sizes 64 (randperm k) []
                ltac:(lia) ltac:(simpl; lia)) as [Hsz _].
    fold (BatchSampler 64 (randperm k)) in Hsz.
    rewrite Forall_forall in *. intros idx Hidx.
    apply fetch_batch_valid; [exact Hwf | | apply Hall; exact Hidx].
    intros ->. specialize (Hsz [] Hidx). simpl in Hsz. lia.
Qed.

Lemma DataLoader_of_is_DataLoader (dataset : MNIST)
  (randperm : nat -> list nat) :
  (forall k, Permutation (randperm k) (seq 0 (length dataset))) ->
  is_DataLoader dataset randperm (DataLoader_of dataset randperm).
Proof.
  intros Hp. split; [exact Hp|]. split; [reflexivity|].
  intros k. unfold DataLoader_of. cbn [iterate].
  rewrite DataLoader_iter_ok;
    [reflexivity | lia | apply permutation_in_range; apply Hp].
Qed.

Lemma loader_over_images_is_valid_witness :
  DataLoader_valid (DataLoader_of one_example (fun _ => [0%nat])).
Proof.
  apply (loader_over_images_is_valid one_example (fun _ => [0%nat])
           (DataLoader_of one_example (fun _ => [0%nat])) one_example_wf).
  - discriminate.
  - apply DataLoader_of_is_DataLoader. intros _. apply Permutation_refl.
Defined.

(** ** Autograd on the mean of the squares *)

Lemma map2_repeat_l {A B C : Type} (f : A -> B -> C) (c : A) (l : list B) :
  map2 f (repeat c (length l)) l = map (f c) l.
Proof.
  unfold map2. induction l as [|b l IH]; simpl; [reflexivity|].
  rewrite IH. reflexivity.
Qed.

Lemma gradient_of_mean_square (values : list R) :
  Var_backward (Var_mean (Var_pow (leaf values) 2)) None
  = Ok (Some (map (fun a => 1 / INR (length values) * (INR 2 * a ^ 1))
                values)).
Proof.
  unfold Var_backward, Var_mean, Var_pow, leaf, gradient_edge.
  cbn [var_grad_fn var_requires_grad var_data option_map Node_apply hd].
  rewrite length_map. change (2 - 1)%nat with 1%nat.
  rewrite (map2_repeat_l (fun g a => g * (INR 2 * a ^ 1))). reflexivity.
Qed.

Lemma mean_square_at_value (values : list R) (i : nat) (t : R) :
  (i < length values)%nat ->
  mean_square_at values i t
  = / INR (length values) *
    (sum_list (map (fun a => a ^ 2) (firstn i values))
     + (t ^ 2 + sum_list (map (fun a => a ^ 2) (skipn (S i) values)))).
Proof.
  intros Hi. unfold mean_square_at, Var_mean, Var_pow, leaf, mean.
  cbn [var_data hd]. rewrite length_map, map_app, sum_list_app.
  cbn [map sum_list fold_right].
  assert (L : length (firstn i values ++ t :: skipn (S i) values)
              = length values).
  { rewrite length_app, firstn_length_le by lia. cbn [length].
    rewrite length_skipn. lia. }
  rewrite L. unfold sum_list, Rdiv. ring.
Qed.

(** X11.  The cells on autograd: before [z.backward()] the gradient of
    [x] is [None]; after it, [x.grad] holds for every element of [x] the
    partial derivative of [z = mean(x ** 2)] with respect to that element;
    for the 2 x 2 tensor of the notebook this is [x / 2], the third value
    the cells print. *)
Theorem backward_computes_the_gradient_of_mean_square (values : list R)
  (i : nat) :
  (i < length values)%nat ->
  exists g,
    gradient_cells values = Ok (None, Some g, map (fun a => a / 2) values) /\
    length g = length values /\
    derivable_pt_lim (mean_square_at values i) (nth i values 0) (nth i g 0) /\
    (length values = 4%nat -> g = map (fun a => a / 2) values).
Proof.
  intros Hi.
  exists (map (fun a => 1 / INR (length values) * (INR 2 * a ^ 1)) values).
  split; [|split; [|split]].
  - unfold gradient_cells. rewrite gradient_of_mean_square. reflexivity.
  - apply length_map.
  - rewrite (nth_indep
               (map (fun a => 1 / INR (length values) * (INR 2 * a ^ 1))
                  values) 0
               ((fun a => 1 / INR (length values) * (INR 2 * a ^ 1)) 0))
      by (rewrite length_map; exact Hi).
    rewrite (map_nth (fun a => 1 / INR (length values) * (INR 2 * a ^ 1))).
    set (x := nth i values 0).
    set (A := sum_list (map (fun a => a ^ 2) (firstn i values))).
    set (B := sum_list (map (fun a => a ^ 2) (skipn (S i) values))).
    apply (derivable_pt_lim_ext
             (mult_real_fct (/ INR (length values))
                (plus_fct (fct_cte A)
                   (plus_fct (fun t => t ^ 2) (fct_cte B))))).
    + intros t. rewrite mean_square_at_value by exact Hi.
      unfold mult_real_fct, plus_fct, fct_cte. reflexivity.
    + replace (1 / INR (length values) * (INR 2 * x ^ 1))
        with (/ INR (length values) * (0 + (INR 2 * x ^ Init.Nat.pred 2 + 0)))
        by (simpl; unfold Rdiv; ring).
      apply derivable_pt_lim_scal. apply derivable_pt_lim_plus.
      * apply derivable_pt_lim_const.
      * apply derivable_pt_lim_plus.
        -- apply derivable_pt_lim_pow.
        -- apply derivable_pt_lim_const.
  - intros L. rewrite L. apply map_ext. intros a. simpl. lra.
Qed.

Lemma backward_computes_the_gradient_of_mean_square_witness :
  exists g,
    gradient_cells [1; 2; 3; 4]
    = Ok (None, Some g, map (fun a => a / 2) [1; 2; 3; 4]) /\
    length g = 4%nat /\
    derivable_pt_lim (mean_square_at [1; 2; 3; 4] 0) 1 (nth 0 g 0) /\
    (4%nat = 4%nat -> g = map (fun a => a / 2) [1; 2; 3; 4]).
Proof.
  apply (backward_computes_the_gradient_of_mean_square [1; 2; 3; 4] 0).
  simpl. lia.
Defined.

(** ** One backward pass *)

Lemma accumulate_grads_pdata (ps : list Param) (ds : list (list R)) :
  map pdata (accumulate_grads ps ds) = map pdata ps.
Proof.
  revert ds. induction ps as [|p ps IH]; intros [|d ds]; simpl;
    try reflexivity.
  rewrite IH. reflexivity.
Qed.

Lemma accumulate_grads_fresh (ps : list Param) (ds : list (list R)) :
  Forall (fun p => grad p = None) ps -> length ds = length ps ->
  map grad (accumulate_grads ps ds) = map Some ds.
Proof.
  intros H. revert ds. induction H as [|p ps Hp _ IH]; intros [|d ds] L;
    simpl in *; try discriminate; [reflexivity|].
  rewrite Hp, IH by lia. reflexivity.
Qed.

Lemma accumulate_grads_twice (ps : list Param) (ds1 ds2 : list (list R)) :
  Forall (fun p => grad p = None) ps ->
  length ds1 = length ps -> length ds2 = length ps ->
  map grad (accumulate_grads (accumulate_grads ps ds1) ds2)
  = map Some (map2 (map2 Rplus) ds1 ds2).
Proof.
  intros H. revert ds1 ds2.
  induction H as [|p ps Hp _ IH]; intros [|d1 ds1] [|d2 ds2] L1 L2;
    simpl in *; try discriminate; [reflexivity|].
  rewrite Hp. f_equal. apply IH; lia.
Qed.

Lemma backward_pass_spec
  (autograd : Recorded Sequential Matrix -> list nat -> list (list R))
  (b : Batch) (w : World Sequential SGD) :
  autograd_wf autograd -> Batch_valid b -> mnist_world_ok w ->
  exists images w',
    view_batch (fst b) = Ok images /\
    backward_pass autograd b w = Ok (tt, w') /\
    mnist_world_ok w' /\
    parameters (model w')
    = accumulate_grads (parameters (model w))
        (autograd (mkRecorded (model w) (generator w) images) (snd b)) /\
    length (autograd (mkRecorded (model w) (generator w) images) (snd b))
    = length (parameters (model w)) /\
    optimizer w' = optimizer w.
Proof.
  intros Hag (Hsz & Hlen & Hlab) [[Hm Ho] Hg].
  destruct (view_batch_ok (fst b) _ Hsz) as (images & Ev & Si).
  destruct (mnist_forward_ok (model w) images _ Hm Si) as (out & Ef & So).
  destruct (NLLLoss_ok out (snd b) _ 10 So Hlen Hlab) as (l & El).
  set (ds := autograd (mkRecorded (model w) (generator w) images) (snd b)).
  pose proof (Hag (mkRecorded (model w) (generator w) images) (snd b)) as Hds.
  simpl in Hds. fold ds in Hds.
  pose proof (mnist_params_wf _ Hm) as Hps.
  destruct (mnist_load_ok (model w)
              (accumulate_grads (parameters (model w)) ds) Hm
              (accumulate_grads_shapes _ _ Hps Hds)) as [Hm' Ep].
  exists images. eexists. split; [exact Ev|]. split.
  { unfold backward_pass, then_ at 1. unfold lift at 1. rewrite Ev.
    unfold then_ at 1. unfold call_model, mnist_forward. rewrite Ef.
    cbn [bind]. rewrite Hg.
    unfold then_ at 1. unfold criterion, then_ at 1, lift. world_simpl.
    rewrite El. unfold then_, emit, modify, ret, backward. world_simpl.
    fold ds. unfold then_, emit, modify. reflexivity. }
  world_simpl. split; [|split; [|split]].
  - split; [split; [exact Hm' | exact I] | exact Hg].
  - exact Ep.
  - symmetry. apply (Forall2_length Hds).
  - reflexivity.
Qed.

(** X12.  On a freshly built model the gradient of every parameter is
    [None]; the backward pass of a batch stores the gradient of that batch
    in it; and a second backward pass without [zero_grad] in between adds
    its gradient to the first, element by element.  The values of the
    parameters are not touched. *)
Theorem gradients_accumulate_over_backward_passes
  (autograd : Recorded Sequential Matrix -> list nat -> list (list R))
  (b1 b2 : Batch) (w : World Sequential SGD) :
  autograd_wf autograd -> Batch_valid b1 -> Batch_valid b2 ->
  mnist_world_ok w ->
  Forall (fun p => grad p = None) (parameters (model w)) ->
  exists images1 images2 w1 w2,
    view_batch (fst b1) = Ok images1 /\ view_batch (fst b2) = Ok images2 /\
    backward_pass autograd b1 w = Ok (tt, w1) /\
    backward_pass autograd b2 w1 = Ok (tt, w2) /\
    map grad (parameters (model w1))
    = map Some (autograd (mkRecorded (model w) (generator w) images1)
                  (snd b1)) /\
    map grad (parameters (model w2))
    = map Some
        (map2 (map2 Rplus)
           (autograd (mkRecorded (model w) (generator w) images1) (snd b1))
           (autograd (mkRecorded (model w1) (generator w1) images2)
              (snd b2))) /\
    map pdata (parameters (model w2)) = map pdata (parameters (model w)).
Proof.
  intros Hag Hb1 Hb2 Hw Hfresh.
  destruct (backward_pass_spec autograd b1 w Hag Hb1 Hw)
    as (images1 & w1 & Ev1 & E1 & Hw1 & Ep1 & L1 & _).
  destruct (backward_pass_spec autograd b2 w1 Hag Hb2 Hw1)
    as (images2 & w2 & Ev2 & E2 & Hw2 & Ep2 & L2 & _).
  exists images1, images2, w1, w2.
  split; [exact Ev1|]. split; [exact Ev2|].
  split; [exact E1|]. split; [exact E2|].
  assert (Lp : length (parameters (model w1)) = length (parameters (model w))).
  { rewrite Ep1.
    rewrite <- (length_map pdata (accumulate_grads _ _)),
      accumulate_grads_pdata.
    apply length_map. }
  split; [|split].
  - rewrite Ep1. apply accumulate_grads_fresh; assumption.
  - rewrite Ep2, Ep1. apply accumulate_grads_twice; [assumption | assumption |].
    rewrite L2. exact Lp.
  - rewrite Ep2, accumulate_grads_pdata, Ep1, accumulate_grads_pdata.
    reflexivity.
Qed.

Lemma zero_mnist_fresh :
  Forall (fun p => grad p = None) (parameters zero_mnist).
Proof. repeat constructor. Qed.

Lemma gradients_accumulate_over_backward_passes_witness :
  exists images1 images2 w1 w2,
    view_batch zero_image = Ok images1 /\ view_batch zero_image = Ok images2 /\
    backward_pass (constant_autograd 2) (zero_image, [3%nat])
      (start zero_mnist (mkSGD (1 / 100)) keep_all) = Ok (tt, w1) /\
    backward_pass (constant_autograd 2) (zero_image, [3%nat]) w1
    = Ok (tt, w2) /\
    map grad (parameters (model w1))
    = map Some (constant_autograd 2
                  (mkRecorded zero_mnist keep_all images1) [3%nat]) /\
    map grad (parameters (model w2))
    = map Some
        (map2 (map2 Rplus)
           (constant_autograd 2 (mkRecorded zero_mnist keep_all images1)
              [3%nat])
           (constant_autograd 2
              (mkRecorded (model w1) (generator w1) images2) [3%nat])) /\
    map pdata (parameters (model w2)) = map pdata (parameters zero_mnist).
Proof.
  apply (gradients_accumulate_over_backward_passes (constant_autograd 2)
           (zero_image, [3%nat]) (zero_image, [3%nat])
           (start zero_mnist (mkSGD (1 / 100)) keep_all)
           (constant_autograd_wf 2) zero_batch_valid zero_batch_valid
           (start_mnist_ok zero_mnist (1 / 100) keep_all zero_mnist_wf)
           zero_mnist_fresh).
Defined.

(** ** One training step on a resized batch *)

Lemma nll_terms_length_mismatch (logps : Matrix) (labels : list nat) :
  length labels <> length logps -> nll_terms logps labels = Err TargetError.
Proof.
  revert labels. induction logps as [|r logps IH]; intros [|y labels] H;
    simpl in *; try reflexivity; [congruence|].
  destruct (y <? length r)%nat; [|reflexivity].
  rewrite IH by lia. reflexivity.
Qed.

Lemma resize_length (uninitialized : nat -> R) (x : Tensor)
  (sizes : list nat) :
  length (data (resize_ uninitialized x sizes)) = numel sizes.
Proof.
  unfold resize_. cbn [data].
  rewrite length_firstn, length_app, length_map, length_seq. lia.
Qed.

Lemma resize_exact (uninitialized : nat -> R) (x : Tensor)
  (sizes : list nat) :
  length (data x) = numel sizes ->
  data (resize_ uninitialized x sizes) = data x.
Proof.
  intros H. unfold resize_. cbn [data].
  rewrite H, Nat.sub_diag. cbn [seq map]. rewrite app_nil_r, <- H.
  apply firstn_all.
Qed.

Lemma numel_64_784 : numel [64; 784]%nat = (64 * 784)%nat.
Proof. unfold numel. cbn [fold_right]. lia. Qed.

Lemma resized_images_shape (uninitialized : nat -> R) (x : Tensor) :
  has_shape
    (chunks 784 64 (data (resize_ uninitialized x [64; 784]%nat))) 64 784.
Proof.
  split; [apply chunks_length|]. apply chunks_rows.
  rewrite resize_length, numel_64_784. lia.
Qed.

Lemma zero_grad_world_ok (w : World Sequential SGD) :
  mnist_world_ok w ->
  mnist_model_wf (update_parameters (map zero_grad_param) (model w)).
Proof.
  intros [[Hm _] _]. unfold update_parameters.
  apply (mnist_load_ok (model w)); [exact Hm|].
  apply zero_grad_shapes. apply mnist_params_wf. exact Hm.
Qed.

Lemma then_ok {W A B : Type} (c : Run W A) (k : A -> Run W B) (w w' : W)
  (a : A) :
  c w = Ok (a, w') -> then_ c k w = k a w'.
Proof. intros H. unfold then_. rewrite H. reflexivity. Qed.

Lemma then_err {W A B : Type} (c : Run W A) (k : A -> Run W B) (w : W)
  (e : error) :
  c w = Err e -> then_ c k w = Err e.
Proof. intros H. unfold then_. rewrite H. reflexivity. Qed.

Lemma zero_grad_run {M O : Type} {Mod : Module M} (w : World M O) :
  optimizer_zero_grad w
  = Ok (tt, set_trace (trace w ++ [EvZeroGrad])
              (set_model (update_parameters (map zero_grad_param) (model w))
                 w)).
Proof. reflexivity. Qed.

Lemma train_batch_step
  (autograd : Recorded Sequential Matrix -> list nat -> list (list R))
  (images : Matrix) (labels : list nat) (w w'' : World Sequential SGD) :
  train_batch mnist_forward autograd images labels w = Ok (tt, w'') ->
  exists w',
    (optimizer_zero_grad >>
     output <~ call_model mnist_forward images ;;
     loss <~ criterion output labels ;;
     backward autograd loss >>
     optimizer_step) w = Ok (tt, w') /\
    model w' = model w'' /\ optimizer w' = optimizer w''.
Proof.
  unfold train_batch, before_backward, then_.
  destruct (optimizer_zero_grad w) as [[u1 w1]|]; [|discriminate].
  destruct (call_model mnist_forward images w1) as [[output w2]|];
    [|discriminate].
  destruct (criterion output labels w2) as [[loss w3]|]; [|discriminate].
  destruct (backward autograd loss w3) as [[u4 w4]|]; [|discriminate].
  destruct (optimizer_step w4) as [[[] w5]|]; [|discriminate].
  unfold modify. intros E. injection E as <-.
  exists w5. repeat split.
Qed.

(** X13.  The cell that takes one training step resizes the images in
    place to (64, 784) whatever the batch holds, so it needs a batch of
    exactly 64 examples: with any other number of labels the criterion
    raises, the output having 64 rows.  On a batch of 64 images of 784
    elements the resize is the flattening [view(images.shape[0], -1)] of
    the training loop, and the cell does to the model and the optimizer
    what one iteration of that loop does. *)
Theorem one_step_needs_a_batch_of_64
  (autograd : Recorded Sequential Matrix -> list nat -> list (list R))
  (uninitialized : nat -> R) (b : Batch) (w : World Sequential SGD) :
  autograd_wf autograd -> mnist_world_ok w ->
  (length (snd b) <> 64%nat ->
   one_step autograd uninitialized b w = Err TargetError) /\
  (Batch_valid b -> length (snd b) = 64%nat ->
   view_batch (fst b)
   = Ok (chunks 784 64 (data (resize_ uninitialized (fst b) [64; 784]%nat)))
   /\
   exists w' w'',
     one_step autograd uninitialized b w = Ok (tt, w') /\
     mnist_batch autograd b w = Ok (tt, w'') /\
     model w' = model w'' /\ optimizer w' = optimizer w'').
Proof.
  intros Hag Hw. split.
  - intros Hl.
    pose proof (zero_grad_world_ok w Hw) as Hz.
    destruct (mnist_forward_ok _ _ 64 Hz
                (resized_images_shape uninitialized (fst b)))
      as (out & Ef & [Lo _]).
    unfold one_step.
    rewrite (then_ok _ _ _ _ _ (zero_grad_run w)).
    erewrite then_ok;
      [|unfold call_model, mnist_forward; world_simpl; rewrite Ef;
        reflexivity].
    apply then_err. unfold criterion. apply then_err. unfold lift, NLLLoss.
    cbn [value].
    rewrite nll_terms_length_mismatch by (rewrite Lo; exact Hl).
    reflexivity.
  - intros Hb Hl.
    assert (Ev : view_batch (fst b)
                 = Ok (chunks 784 64
                         (data (resize_ uninitialized (fst b)
                                  [64; 784]%nat)))).
    { destruct Hb as (Hsz & Hlen & _).
      destruct (inferred_size_inv _ _ Hsz) as [_ Ld].
      unfold view_batch. rewrite Hsz. cbn [bind].
      rewrite <- Hlen, Hl in *. rewrite resize_exact; [reflexivity|].
      rewrite numel_64_784. exact Ld. }
    split; [exact Ev|].
    destruct (mnist_train_batch_ok autograd Hag b w Hb Hw)
      as (w'' & E'' & _).
    pose proof E'' as E1. unfold mnist_batch, then_ at 1, lift in E1.
    rewrite Ev in E1.
    destruct (train_batch_step autograd _ _ _ _ E1) as (w' & E' & Em & Eo).
    exists w', w''. repeat split; assumption.
Qed.

Lemma zero_batch_64_valid :
  Batch_valid (mkTensor [64; 1; 28; 28]%nat (repeat 0 (64 * 784)),
               repeat 3%nat 64).
Proof.
  split; [|split].
  - unfold inferred_size. cbn [fst shape data].
    rewrite repeat_length.
    destruct (Nat.eqb_spec 64 0); [lia|].
    rewrite Nat.mul_comm, Nat.Div0.mod_mul, Nat.div_mul by lia. reflexivity.
  - cbn [fst snd shape hd]. apply repeat_length.
  - cbn [snd]. apply Forall_forall. intros y Hy.
    apply repeat_spec in Hy. subst. lia.
Qed.

Lemma one_step_needs_a_batch_of_64_witness :
  one_step (constant_autograd 2) (fun _ => 0) (zero_image, [3%nat])
    (start zero_mnist (mkSGD (1 / 100)) keep_all) = Err TargetError /\
  exists w' w'',
    one_step (constant_autograd 2) (fun _ => 0)
      (mkTensor [64; 1; 28; 28]%nat (repeat 0 (64 * 784)), repeat 3%nat 64)
      (start zero_mnist (mkSGD (1 / 100)) keep_all) = Ok (tt, w') /\
    mnist_batch (constant_autograd 2)
      (mkTensor [64; 1; 28; 28]%nat (repeat 0 (64 * 784)), repeat 3%nat 64)
      (start zero_mnist (mkSGD (1 / 100)) keep_all) = Ok (tt, w'') /\
    model w' = model w'' /\ optimizer w' = optimizer w''.
Proof.
  split.
  - apply (proj1 (one_step_needs_a_batch_of_64 (constant_autograd 2)
                    (fun _ => 0) (zero_image, [3%nat])
                    (start zero_mnist (mkSGD (1 / 100)) keep_all)
                    (constant_autograd_wf 2)
                    (start_mnist_ok zero_mnist (1 / 100) keep_all
                       zero_mnist_wf))).
    simpl. lia.
  - apply (proj2 (one_step_needs_a_batch_of_64 (constant_autograd 2)
                    (fun _ => 0)
                    (mkTensor [64; 1; 28; 28]%nat (repeat 0 (64 * 784)),
                     repeat 3%nat 64)
                    (start zero_mnist (mkSGD (1 / 100)) keep_all)
                    (constant_autograd_wf 2)
                    (start_mnist_ok zero_mnist (1 / 100) keep_all
                       zero_mnist_wf))
             zero_batch_64_valid).
    apply repeat_length.
Defined.

(** ** A step of the optimizer without gradients *)

Lemma SGD_step_without_grad (o : SGD) (ps : list Param) :
  Forall (fun p => grad p = None) ps -> SGD_step o ps = (ps, o).
Proof.
  intros H. unfold SGD_step. f_equal.
  induction H as [|p ps Hp _ IH]; simpl; [reflexivity|].
  rewrite IH. unfold SGD_update. rewrite Hp. reflexivity.
Qed.

Lemma Adam_updates_without_grad (o : Adam) (ps : list Param)
  (sts : list (option AdamState)) :
  Forall (fun p => grad p = None) ps -> Adam_updates o ps sts = (ps, sts).
Proof.
  intros H. revert sts. induction H as [|p ps Hp _ IH]; intros [|st sts];
    simpl; try reflexivity.
  unfold Adam_update. rewrite Hp, IH. reflexivity.
Qed.

Lemma Adam_step_without_grad (o : Adam) (ps : list Param) :
  Forall (fun p => grad p = None) ps -> Adam_step o ps = (ps, o).
Proof.
  intros H. unfold Adam_step. rewrite Adam_updates_without_grad by exact H.
  destruct o. reflexivity.
Qed.

Lemma same_shape_refl (ps : list Param) :
  Forall Param_wf ps -> Forall2 same_shape ps ps.
Proof.
  induction 1 as [|p ps Hp _ IH]; constructor; [|exact IH].
  split; [reflexivity | exact Hp].
Qed.

(** X14.  [optimizer.step()] skips a parameter whose gradient is [None]:
    on a freshly built model, before any backward pass, a step of SGD or
    of Adam leaves every parameter and the state of the optimizer as they
    were (Adam does not even count the step). *)
Theorem step_before_any_backward_changes_nothing
  (ws : World Sequential SGD) (wc : World Classifier Adam) :
  mnist_model_wf (model ws) -> Classifier_wf (model wc) ->
  Forall (fun p => grad p = None) (parameters (model ws)) ->
  Forall (fun p => grad p = None) (parameters (model wc)) ->
  (exists w', optimizer_step ws = Ok (tt, w') /\
              parameters (model w') = parameters (model ws) /\
              optimizer w' = optimizer ws) /\
  (exists w', optimizer_step wc = Ok (tt, w') /\
              parameters (model w') = parameters (model wc) /\
              optimizer w' = optimizer wc).
Proof.
  intros Hs Hc Fs Fc. split.
  - eexists. unfold optimizer_step, then_, modify, emit.
    cbn [optimizer_update SGD_Optimizer].
    rewrite (SGD_step_without_grad _ _ Fs). split; [reflexivity|].
    world_simpl. split; [|reflexivity].
    apply (mnist_load_ok (model ws)); [exact Hs|].
    apply same_shape_refl. apply mnist_params_wf. exact Hs.
  - eexists. unfold optimizer_step, then_, modify, emit.
    cbn [optimizer_update Adam_Optimizer].
    rewrite (Adam_step_without_grad _ _ Fc). split; [reflexivity|].
    world_simpl. split; [|reflexivity].
    apply (Classifier_load_ok (model wc)); [exact Hc|].
    apply same_shape_refl. apply Classifier_params_wf. exact Hc.
Qed.

Lemma zero_classifier_fresh :
  Forall (fun p => grad p = None) (parameters zero_classifier).
Proof. repeat constructor. Qed.

Lemma step_before_any_backward_changes_nothing_witness :
  (exists w', optimizer_step (start zero_mnist (mkSGD (1 / 100)) keep_all)
              = Ok (tt, w') /\
              parameters (model w') = parameters zero_mnist /\
              optimizer w' = mkSGD (1 / 100)) /\
  (exists w', optimizer_step
                (start zero_classifier
                   (optim_Adam (parameters zero_classifier) (3 / 1000))
                   keep_all)
              = Ok (tt, w') /\
              parameters (model w') = parameters zero_classifier /\
              optimizer w'
              = optim_Adam (parameters zero_classifier) (3 / 1000)).
Proof.
  apply (step_before_any_backward_changes_nothing
           (start zero_mnist (mkSGD (1 / 100)) keep_all)
           (start zero_classifier
              (optim_Adam (parameters zero_classifier) (3 / 1000)) keep_all)
           zero_mnist_wf zero_classifier_wf zero_mnist_fresh
           zero_classifier_fresh).
Defined.

(** ** The first step of Adam *)

Lemma nth_map2 {A B C : Type} (f : A -> B -> C) (u : list A) (v : list B)
  (i : nat) (da : A) (db : B) (dc : C) :
  (i < length u)%nat -> (i < length v)%nat ->
  nth i (map2 f u v) dc = f (nth i u da) (nth i v db).
Proof.
  unfold map2. revert v i.
  induction u as [|a u IH]; intros [|b v] [|i] Hu Hv; simpl in *; try lia.
  - reflexivity.
  - apply IH; lia.
Qed.

Lemma nth_zeros_like (l : list R) (i : nat) : nth i (zeros_like l) 0 = 0.
Proof.
  unfold zeros_like. revert i. induction l as [|a l IH]; intros [|i]; simpl;
    try reflexivity.
  apply IH.
Qed.

Lemma Adam_first_update_nth (ps : list Param) (lr : R) (p : Param)
  (g : list R) (i : nat) :
  grad p = Some g -> length g = length (pdata p) ->
  (i < length (pdata p))%nat ->
  nth i (pdata (fst (Adam_update (optim_Adam ps lr) p None))) 0
  = nth i (pdata p) 0
    + - (lr * sqrt (1 - (999 / 1000) ^ 1) / (1 - (9 / 10) ^ 1)) *
      ((0 * (9 / 10) + (1 - 9 / 10) * nth i g 0) /
       (sqrt (0 * (999 / 1000) + (1 - 999 / 1000) * nth i g 0 * nth i g 0)
        + 1 / 100000000)).
Proof.
  intros Hg Lg Hi. unfold Adam_update, optim_Adam. rewrite Hg.
  cbn [fst pdata beta1 beta2 eps adam_lr step_count exp_avg exp_avg_sq].
  assert (Lz : length (zeros_like (pdata p)) = length (pdata p))
    by (unfold zeros_like; apply length_map).
  set (m := map2 (fun a d => a * (9 / 10) + (1 - 9 / 10) * d)
              (zeros_like (pdata p)) g).
  set (v := map2 (fun a d => a * (999 / 1000) + (1 - 999 / 1000) * d * d)
              (zeros_like (pdata p)) g).
  assert (Lm : length m = length (pdata p))
    by (unfold m; rewrite map2_length; lia).
  assert (Lv : length v = length (pdata p))
    by (unfold v; rewrite map2_length; lia).
  rewrite (nth_map2 _ _ _ i 0 0 0);
    [|lia | rewrite map2_length; rewrite ?length_map; lia].
  rewrite (nth_map2 Rdiv _ _ i 0 0 0); [|lia | rewrite length_map; lia].
  rewrite (nth_indep (map (fun a => sqrt a + 1 / 100000000) v) 0
             ((fun a => sqrt a + 1 / 100000000) 0))
    by (rewrite length_map; lia).
  rewrite (map_nth (fun a => sqrt a + 1 / 100000000)).
  unfold m, v.
  rewrite !(nth_map2 _ _ _ i 0 0 0) by lia.
  rewrite nth_zeros_like. reflexivity.
Qed.

Lemma adam_first_delta (lr g : R) :
  0 < lr ->
  let delta :=
    - (lr * sqrt (1 - (999 / 1000) ^ 1) / (1 - (9 / 10) ^ 1)) *
    ((0 * (9 / 10) + (1 - 9 / 10) * g) /
     (sqrt (0 * (999 / 1000) + (1 - 999 / 1000) * g * g) + 1 / 100000000)) in
  Rabs delta < lr /\ (g = 0 -> delta = 0) /\ (0 < g -> delta < 0) /\
  (g < 0 -> 0 < delta).
Proof.
  intros Hlr. cbn [pow].
  set (A := sqrt (1 - 999 / 1000 * 1)).
  assert (HA : 0 < A) by (apply sqrt_lt_R0; lra).
  assert (HB : sqrt (0 * (999 / 1000) + (1 - 999 / 1000) * g * g)
               = A * Rabs g).
  { replace (0 * (999 / 1000) + (1 - 999 / 1000) * g * g)
      with ((1 - 999 / 1000 * 1) * Rsqr g) by (unfold Rsqr; ring).
    rewrite sqrt_mult_alt by lra. rewrite sqrt_Rsqr_abs. reflexivity. }
  rewrite HB.
  set (D := A * Rabs g + 1 / 100000000).
  assert (Hg0 : 0 <= Rabs g) by apply Rabs_pos.
  assert (HD : 0 < D) by (unfold D; nra).
  set (Q := A * g / D).
  assert (HQ : Q * D = A * g) by (unfold Q; field; lra).
  assert (E : - (lr * A / (1 - 9 / 10 * 1)) *
              ((0 * (9 / 10) + (1 - 9 / 10) * g) / D) = - lr * Q)
    by (unfold Q; field; lra).
  fold D. rewrite E.
  assert (Hlt : - D < A * g < D).
  { unfold D. destruct (Rcase_abs g) as [Hn|Hp].
    - rewrite (Rabs_left g Hn). nra.
    - rewrite (Rabs_right g Hp). nra. }
  assert (HQ1 : -1 < Q < 1) by (split; nra).
  split; [|split; [|split]].
  - apply Rabs_def1; nra.
  - intros ->. assert (Q = 0) by nra. nra.
  - intros Hp. assert (0 < Q) by nra. nra.
  - intros Hn. assert (Q < 0) by nra. nra.
Qed.

(** X15.  The first step of [optim.Adam] (its state is empty) moves every
    element of a parameter by strictly less than the learning rate,
    against the sign of its gradient, and leaves an element whose gradient
    is zero where it is, however large the gradient. *)
Theorem first_Adam_step_moves_less_than_lr (ps : list Param) (lr : R)
  (p : Param) (g : list R) (i : nat) :
  0 < lr -> grad p = Some g -> length g = length (pdata p) ->
  (i < length (pdata p))%nat ->
  Rabs (nth i (pdata (fst (Adam_update (optim_Adam ps lr) p None))) 0
        - nth i (pdata p) 0) < lr /\
  (nth i g 0 = 0 ->
   nth i (pdata (fst (Adam_update (optim_Adam ps lr) p None))) 0
   = nth i (pdata p) 0) /\
  (0 < nth i g 0 ->
   nth i (pdata (fst (Adam_update (optim_Adam ps lr) p None))) 0
   < nth i (pdata p) 0) /\
  (nth i g 0 < 0 ->
   nth i (pdata p) 0
   < nth i (pdata (fst (Adam_update (optim_Adam ps lr) p None))) 0).
Proof.
  intros Hlr Hg Lg Hi.
  rewrite (Adam_first_update_nth ps lr p g i Hg Lg Hi).
  destruct (adam_first_delta lr (nth i g 0) Hlr) as (H1 & H2 & H3 & H4).
  split; [|split; [|split]].
  - match goal with
    | |- Rabs (?a + ?d - ?a) < _ => replace (a + d - a) with d by ring
    end.
    exact H1.
  - intros H. rewrite (H2 H). ring.
  - intros H. specialize (H3 H). lra.
  - intros H. specialize (H4 H). lra.
Qed.

Lemma first_Adam_step_moves_less_than_lr_witness :
  Rabs (nth 0 (pdata (fst (Adam_update (optim_Adam [sample_param] (3 / 1000))
                             sample_param None))) 0
        - nth 0 (pdata sample_param) 0) < 3 / 1000.
Proof.
  apply (first_Adam_step_moves_less_than_lr [sample_param] (3 / 1000)
           sample_param [2] 0).
  - lra.
  - reflexivity.
  - reflexivity.
  - simpl. lia.
Defined.

(** ** Empty loaders *)

Lemma empty_iteration (d : DataLoader) (k : nat) :
  DataLoader_wf d -> num_batches d = 0%nat -> iterate d k = [].
Proof.
  intros Hwf H0. specialize (Hwf k). rewrite H0 in Hwf.
  destruct (iterate d k); [reflexivity | discriminate].
Qed.

Lemma print_summary_empty_train {M O : Type} (e epochs : nat)
  (trainloader testloader : DataLoader) (w : World M O) :
  num_batches trainloader = 0%nat ->
  print_summary e epochs trainloader testloader w = Err ZeroDivisionError.
Proof.
  intros H0. unfold print_summary, then_, gets, lift, py_div.
  rewrite H0. reflexivity.
Qed.

Lemma print_summary_empty_test {M O : Type} (e epochs : nat)
  (trainloader testloader : DataLoader) (w : World M O) :
  num_batches trainloader <> 0%nat -> num_batches testloader = 0%nat ->
  print_summary e epochs trainloader testloader w = Err ZeroDivisionError.
Proof.
  intros Htr H0. unfold print_summary, then_, gets, lift.
  rewrite py_div_ok by exact Htr. unfold py_div. rewrite H0. reflexivity.
Qed.

Lemma no_grad_err {M O A : Type} (body : Run (World M O) A) (w : World M O)
  (e : error) :
  body (set_grad_enabled false w) = Err e -> no_grad body w = Err e.
Proof. intros H. unfold no_grad. rewrite H. reflexivity. Qed.

Lemma modify_run {W : Type} (f : W -> W) (w : W) : modify f w = Ok (tt, f w).
Proof. reflexivity. Qed.

(** X16.  When the training loader is empty ([len(trainloader)] is 0)
    every loop raises [ZeroDivisionError] at the report of its first
    epoch, where the running loss is divided by the number of batches; the
    loops of "Inference and Validation" get there after a full validation
    pass. *)
Theorem empty_training_loader_raises {Tk : Topk}
  (autograd_s : Recorded Sequential Matrix -> list nat -> list (list R))
  (autograd_c : Recorded Classifier Tensor -> list nat -> list (list R))
  (ws : World Sequential SGD) (wc : World Classifier Adam)
  (trainloader testloader : DataLoader) (epochs : nat) :
  DataLoader_wf trainloader -> num_batches trainloader = 0%nat ->
  Classifier_wf (model wc) -> Forall Batch_valid (iterate testloader 0) ->
  train_mnist autograd_s (S epochs) trainloader ws = Err ZeroDivisionError /\
  train_validate autograd_c (S epochs) trainloader testloader wc
  = Err ZeroDivisionError /\
  train_validate_dropout autograd_c (S epochs) trainloader testloader wc
  = Err ZeroDivisionError.
Proof.
  intros Hwf H0 Hm Hv.
  pose proof (empty_iteration trainloader 0 Hwf H0) as Ei.
  split; [|split].
  - unfold train_mnist. cbn [seq for_each]. unfold train_mnist_epoch at 1. apply
    then_err.
    rewrite (then_ok _ _ _ _ _ (modify_run _ _)). rewrite Ei.
    cbn [for_each]. unfold then_, ret, gets, lift, py_div. rewrite H0.
    reflexivity.
  - unfold train_validate. cbn [seq for_each].
    unfold train_validate_epoch at 1. apply then_err.
    rewrite (then_ok _ _ _ _ _ (modify_run _ _)). rewrite Ei.
    cbn [for_each]. rewrite (then_ok _ _ _ _ tt eq_refl).
    unfold evaluate.
    rewrite !(then_ok _ _ _ _ _ (modify_run _ _)).
    apply no_grad_err.
    destruct (validation_loop_spec plain_forward (iterate testloader 0)
                (set_grad_enabled false
                   (set_accuracy 0 (set_test_loss 0 (set_running_loss 0 wc)))))
      as (w1 & accs & losses & E & _); [reflexivity | exact Hm | exact Hv |].
    rewrite (then_ok _ _ _ _ _ E).
    apply print_summary_empty_train. exact H0.
  - unfold train_validate_dropout. cbn [seq for_each].
    unfold train_validate_dropout_epoch at 1. apply then_err.
    rewrite (then_ok _ _ _ _ _ (modify_run _ _)). rewrite Ei.
    cbn [for_each]. rewrite (then_ok _ _ _ _ tt eq_refl).
    apply then_err. unfold evaluate_dropout.
    rewrite !(then_ok _ _ _ _ _ (modify_run _ _)).
    apply no_grad_err.
    erewrite then_ok; [|reflexivity].
    destruct (validation_loop_spec Classifier_forward_dropout
                (iterate testloader 0)
                (set_trace
                   (trace wc ++ [EvEvalMode])
                   (set_model (set_training false (model wc))
                      (set_grad_enabled false
                         (set_accuracy 0
                            (set_test_loss 0 (set_running_loss 0 wc)))))))
      as (w1 & accs & losses & E & _); [| exact Hm | exact Hv |].
    { intros g x. apply Classifier_forward_dropout_eval. reflexivity. }
    rewrite (then_ok _ _ _ _ _ E).
    apply print_summary_empty_train. exact H0.
Qed.

Lemma empty_training_loader_raises_witness :
  train_mnist (constant_autograd 0) 30 (mkDataLoader 0 (fun _ => []))
    (start zero_mnist (mkSGD (3 / 1000)) keep_all) = Err ZeroDivisionError /\
  train_validate (Tk := first_argmax_Topk) (constant_autograd 0) 30
    (mkDataLoader 0 (fun _ => []))
    zero_loader
    (start zero_classifier
       (optim_Adam (parameters zero_classifier) (3 / 1000)) keep_all)
  = Err ZeroDivisionError /\
  train_validate_dropout (Tk := first_argmax_Topk) (constant_autograd 0) 30
    (mkDataLoader 0 (fun _ => [])) zero_loader
    (start zero_classifier
       (optim_Adam (parameters zero_classifier) (3 / 1000)) keep_all)
  = Err ZeroDivisionError.
Proof.
  apply (empty_training_loader_raises (Tk := first_argmax_Topk)
    (constant_autograd 0)
           (constant_autograd 0)
           (start zero_mnist (mkSGD (3 / 1000)) keep_all)
           (start zero_classifier
              (optim_Adam (parameters zero_classifier) (3 / 1000)) keep_all)
           (mkDataLoader 0 (fun _ => [])) zero_loader 29).
  - intros k. reflexivity.
  - reflexivity.
  - exact zero_classifier_wf.
  - constructor; [exact zero_batch_valid | constructor].
Defined.

(** X17.  When the test loader is empty the two loops that validate run
    the training batches of the first epoch and then raise
    [ZeroDivisionError] at its report: no validation batch is seen and the
    test loss, still the number it was set to, is divided by
    [len(testloader)]. *)
Theorem empty_test_loader_raises {Tk : Topk}
  (autograd : Recorded Classifier Tensor -> list nat -> list (list R))
  (w : World Classifier Adam) (trainloader testloader : DataLoader)
  (epochs : nat) :
  autograd_wf autograd -> Classifier_world_ok w ->
  DataLoader_valid trainloader ->
  DataLoader_wf testloader -> num_batches testloader = 0%nat ->
  train_validate autograd (S epochs) trainloader testloader w
  = Err ZeroDivisionError /\
  train_validate_dropout autograd (S epochs) trainloader testloader w
  = Err ZeroDivisionError.
Proof.
  intros Hag Hw (Ltr & Ntr & Vtr) Hwf H0.
  pose proof (empty_iteration testloader 0 Hwf H0) as Ei.
  split.
  - unfold train_validate. cbn [seq for_each].
    unfold train_validate_epoch at 1. apply then_err.
    rewrite (then_ok _ _ _ _ _ (modify_run _ _)).
    destruct (train_loop_spec Classifier_world_ok
                (fun b => train_batch plain_forward autograd (fst b) (snd b))
                (Classifier_train_batch_ok autograd Hag plain_forward
                   plain_forward_ok)
                (iterate trainloader 0) (set_running_loss 0 w) (Vtr 0%nat))
      as (w1 & E1 & _); [exact Hw|].
    rewrite (then_ok _ _ _ _ _ E1).
    unfold evaluate.
    rewrite !(then_ok _ _ _ _ _ (modify_run _ _)).
    apply no_grad_err. rewrite Ei. cbn [for_each].
    rewrite (then_ok _ _ _ _ tt eq_refl).
    apply print_summary_empty_test; assumption.
  - unfold train_validate_dropout. cbn [seq for_each].
    unfold train_validate_dropout_epoch at 1. apply then_err.
    rewrite (then_ok _ _ _ _ _ (modify_run _ _)).
    destruct (train_loop_spec Classifier_world_ok
                (fun b => train_batch Classifier_forward_dropout autograd
                            (fst b) (snd b))
                (Classifier_train_batch_ok autograd Hag
                   Classifier_forward_dropout dropout_forward_ok)
                (iterate trainloader 0) (set_running_loss 0 w) (Vtr 0%nat))
      as (w1 & E1 & _); [exact Hw|].
    rewrite (then_ok _ _ _ _ _ E1).
    apply then_err. unfold evaluate_dropout.
    rewrite !(then_ok _ _ _ _ _ (modify_run _ _)).
    apply no_grad_err.
    erewrite then_ok; [|reflexivity].
    rewrite Ei. cbn [for_each].
    rewrite (then_ok _ _ _ _ tt eq_refl).
    apply print_summary_empty_test; assumption.
Qed.

Lemma empty_test_loader_raises_witness :
  train_validate (Tk := first_argmax_Topk) (constant_autograd 0) 30 zero_loader
    (mkDataLoader 0 (fun _ => []))
    (start zero_classifier
       (optim_Adam (parameters zero_classifier) (3 / 1000)) keep_all)
  = Err ZeroDivisionError /\
  train_validate_dropout (Tk := first_argmax_Topk) (constant_autograd 0) 30
    zero_loader
    (mkDataLoader 0 (fun _ => []))
    (start zero_classifier
       (optim_Adam (parameters zero_classifier) (3 / 1000)) keep_all)
  = Err ZeroDivisionError.
Proof.
  apply (empty_test_loader_raises (Tk := first_argmax_Topk) (constant_autograd
    0)
           (start zero_classifier
              (optim_Adam (parameters zero_classifier) (3 / 1000)) keep_all)
           zero_loader (mkDataLoader 0 (fun _ => [])) 29
           (constant_autograd_wf 0)
           (start_Classifier_ok zero_classifier (3 / 1000) keep_all
              zero_classifier_wf)
           zero_loader_valid).
  - intros k. reflexivity.
  - reflexivity.
Defined.

(** ** The mode of the model *)

Lemma then_inv {W A B : Type} (c : Run W A) (k : A -> Run W B) (w : W)
  (r : B * W) :
  then_ c k w = Ok r -> exists a w1, c w = Ok (a, w1) /\ k a w1 = Ok r.
Proof.
  unfold then_. destruct (c w) as [[a w1]|]; [|discriminate].
  intros H. exists a, w1. split; [reflexivity | exact H].
Qed.

Lemma model_train_mode {O : Type} (w : World Classifier O) (u : unit)
  (w' : World Classifier O) :
  model_train w = Ok (u, w') -> training (model w') = true.
Proof.
  unfold model_train, then_, modify, emit. intros E. injection E as _ <-.
  reflexivity.
Qed.

(** X18.  The second loop of "Inference and Validation" switches the
    model to evaluation mode for every validation pass, whatever its mode
    before, and back to training mode at the end of every epoch: after at
    least one epoch the model is in training mode, so the next batches are
    trained with dropout. *)
Theorem dropout_loop_restores_training_mode {Tk : Topk}
  (autograd : Recorded Classifier Tensor -> list nat -> list (list R))
  (trainloader testloader : DataLoader) (epochs : nat)
  (w : World Classifier Adam) :
  autograd_wf autograd -> DataLoader_valid trainloader ->
  DataLoader_valid testloader -> Classifier_world_ok w ->
  (exists w',
     train_validate_dropout autograd (S epochs) trainloader testloader w
     = Ok (tt, w') /\ training (model w') = true) /\
  (forall e w0 u w1,
     evaluate_dropout e (S epochs) trainloader testloader w0 = Ok (u, w1) ->
     training (model w1) = false).
Proof.
  intros Hag Htr Hte Hw. split.
  - pose (I := fun (done : list nat) (w1 : World Classifier Adam) =>
        Classifier_world_ok w1 /\ (done <> [] -> training (model w1) = true)).
    destruct (for_each_ind I
                (fun e =>
                   modify (set_running_loss 0) >>
                   for_each (iterate trainloader e) (fun b =>
                     train_batch Classifier_forward_dropout autograd
                       (fst b) (snd b)) >>
                   evaluate_dropout e (S epochs) trainloader testloader >>
                   model_train)
                (seq 0 (S epochs))) with (w := w) as (w' & E & Hw' & Ht).
    + intros done e w1 _ [H1 _].
      destruct (train_validate_dropout_epoch_ok autograd Hag trainloader
                  testloader Htr Hte (S epochs) e w1 H1)
        as (w2 & E2 & Hw2 & _).
      exists w2. split; [exact E2|]. split; [exact Hw2|]. intros _.
      apply then_inv in E2 as (u1 & x1 & _ & E2).
      apply then_inv in E2 as (u2 & x2 & _ & E2).
      apply then_inv in E2 as (u3 & x3 & _ & E2).
      apply (model_train_mode _ _ _ E2).
    + split; [exact Hw | congruence].
    + exists w'. split; [exact E|]. apply Ht. discriminate.
  - intros e w0 u w1 E.
    destruct (evaluate_dropout_frame _ _ _ _ _ _ _ E) as [-> _]. reflexivity.
Qed.

Lemma dropout_loop_restores_training_mode_witness :
  exists w',
    train_validate_dropout (Tk := first_argmax_Topk) (constant_autograd 0) 30
      zero_loader zero_loader
      (start (set_training false zero_classifier)
         (optim_Adam (parameters (set_training false zero_classifier))
            (4 / 1000)) keep_all)
    = Ok (tt, w') /\ training (model w') = true.
Proof.
  apply (proj1 (dropout_loop_restores_training_mode (Tk := first_argmax_Topk)
    (constant_autograd 0)
                  zero_loader zero_loader 29
                  (start (set_training false zero_classifier)
                     (optim_Adam (parameters (set_training false
                       zero_classifier))
            (4 / 1000))
                     keep_all)
                  (constant_autograd_wf 0) zero_loader_valid
                  zero_loader_valid
                  (start_Classifier_ok (set_training false zero_classifier)
                     (4 / 1000) keep_all zero_classifier_wf))).
Defined.

(** ** Inference on the first image of a batch *)

Lemma Classifier_forward_rows (m : Classifier) (x : Tensor) (rows : Matrix)
  (b : nat) :
  Classifier_wf m -> view_batch x = Ok rows -> has_shape rows b 784 ->
  Classifier_forward m x = Ok (map (Classifier_row m) rows).
Proof.
  intros (H1 & H2 & H3 & H4) Hv S0. unfold Classifier_forward.
  rewrite Hv. cbn [bind].
  destruct (Linear_forward_ok _ _ _ _ _ H1 S0) as [E1 S1].
  rewrite E1. cbn [bind]. apply relu_shape in S1.
  destruct (Linear_forward_ok _ _ _ _ _ H2 S1) as [E2 S2].
  rewrite E2. cbn [bind]. apply relu_shape in S2.
  destruct (Linear_forward_ok _ _ _ _ _ H3 S2) as [E3 S3].
  rewrite E3. cbn [bind]. apply relu_shape in S3.
  destruct (Linear_forward_ok _ _ _ _ _ H4 S3) as [E4 S4].
  rewrite E4. cbn [bind].
  unfold log_softmax, relu, Classifier_row. rewrite !map_map. reflexivity.
Qed.

Lemma view_one_row (r : list R) :
  length r = 784%nat -> view_batch (mkTensor [1; 784]%nat r) = Ok [r].
Proof.
  intros L. unfold view_batch, inferred_size. cbn [shape data hd].
  rewrite L, Nat.mod_1_r, Nat.div_1_r. cbn [Nat.eqb bind chunks].
  rewrite <- L, firstn_all. reflexivity.
Qed.

Lemma first_image (images : Tensor) :
  Tensor_wf images -> inferred_size images = Ok 784%nat ->
  exists b rest,
    shape images = S b :: rest /\
    select0 images = Ok (mkTensor rest (firstn 784 (data images))) /\
    length (firstn 784 (data images)) = 784%nat /\
    view_batch images
    = Ok (firstn 784 (data images)
          :: chunks 784 b (skipn 784 (data images))).
Proof.
  intros Hwf Hsz.
  destruct (inferred_size_inv _ _ Hsz) as [Hb Ld].
  destruct (shape images) as [|[|b] rest] eqn:Es; simpl in Hb;
    try congruence.
  pose proof (inferred_size_shape images (S b) rest Hwf Es ltac:(lia)) as Hn.
  rewrite Hsz in Hn. injection Hn as Hn.
  exists b, rest. split; [reflexivity|]. split; [|split].
  - unfold select0. rewrite Es. cbn [Nat.eqb]. rewrite <- Hn. reflexivity.
  - rewrite length_firstn, Ld. cbn [hd]. lia.
  - unfold view_batch. rewrite Hsz, Es. reflexivity.
Qed.

Lemma model_eval_run {O : Type} (w : World Classifier O) :
  model_eval w
  = Ok (tt, set_trace (trace w ++ [EvEvalMode])
              (set_model (set_training false (model w)) w)).
Proof. reflexivity. Qed.

(** X19.  The inference cell of "Inference and Validation" on a batch of
    images of 784 elements returns one row of ten probabilities that add
    up to one: the probabilities the model gives to the first image when it
    is run on the whole batch (an example does not see the others of its
    batch).  The cell leaves the parameters, the generator and the gradient
    mode as they were and the model in evaluation mode. *)
Theorem inference_is_the_first_row_of_the_batch (images : Tensor)
  (w : World Classifier Adam) :
  Classifier_wf (model w) -> Tensor_wf images ->
  inferred_size images = Ok 784%nat ->
  exists ps w' log_ps,
    inference images w = Ok ([ps], w') /\
    Classifier_forward (model w) images = Ok log_ps /\
    ps = map exp (hd [] log_ps) /\
    length ps = 10%nat /\ sum_list ps = 1 /\
    training (model w') = false /\
    parameters (model w') = parameters (model w) /\
    generator w' = generator w /\ grad_enabled w' = grad_enabled w.
Proof.
  intros Hm Hwf Hsz.
  destruct (first_image images Hwf Hsz) as (b & rest & Es & E0 & L0 & Ev).
  set (row0 := firstn 784 (data images)) in *.
  assert (Sr : has_shape (row0 :: chunks 784 b (skipn 784 (data images)))
                 (S b) 784).
  { destruct (view_batch_ok images _ Hsz) as (rows & Ev' & S').
    rewrite Ev in Ev'. injection Ev' as <-. rewrite Es in S'. exact S'. }
  pose proof (Classifier_forward_rows (model w) images _ _ Hm Ev Sr) as Eb.
  assert (S1 : has_shape [row0] 1 784)
    by (split; [reflexivity | constructor; [exact L0 | constructor]]).
  pose proof (Classifier_forward_rows (set_training false (model w))
                (mkTensor [1; 784]%nat row0) [row0] 1
                (set_training_wf false _ Hm) (view_one_row row0 L0) S1) as E1.
  assert (Lr : length (Classifier_row (model w) row0) = 10%nat).
  { unfold Classifier_row. rewrite log_softmax_row_length.
    destruct Hm as (_ & _ & _ & (_ & Ho & Hl)).
    rewrite Linear_row_length by exact Hl. exact Ho. }
  exists (map exp (Classifier_row (model w) row0)). eexists.
  exists (map (Classifier_row (model w))
            (row0 :: chunks 784 b (skipn 784 (data images)))).
  split.
  { unfold inference.
    rewrite (then_ok _ _ _ _ _ (model_eval_run w)).
    unfold lift at 1. unfold then_ at 1. rewrite E0.
    unfold lift at 1. unfold then_ at 1. unfold view_1_784. cbn [data].
    rewrite L0, Nat.eqb_refl.
    unfold then_ at 1. unfold no_grad, call_model. world_simpl.
    rewrite Classifier_forward_dropout_eval by reflexivity.
    unfold plain_forward. rewrite E1. cbn [bind]. world_simpl.
    unfold ret, mexp. cbn [map]. reflexivity. }
  world_simpl. split; [exact Eb|]. split; [reflexivity|].
  split; [rewrite length_map; exact Lr|]. split.
  { unfold Classifier_row. apply log_softmax_row_normalized.
    intros H. apply (f_equal (@length R)) in H.
    unfold Classifier_row in Lr. rewrite log_softmax_row_length in Lr.
    rewrite Lr in H. discriminate. }
  repeat split.
Qed.

Lemma inference_is_the_first_row_of_the_batch_witness :
  exists ps w' log_ps,
    inference zero_image
      (start zero_classifier
         (optim_Adam (parameters zero_classifier) (4 / 1000)) keep_all)
    = Ok ([ps], w') /\
    Classifier_forward zero_classifier zero_image = Ok log_ps /\
    ps = map exp (hd [] log_ps) /\
    length ps = 10%nat /\ sum_list ps = 1 /\
    training (model w') = false /\
    parameters (model w') = parameters zero_classifier /\
    generator w' = keep_all /\ grad_enabled w' = true.
Proof.
  apply (inference_is_the_first_row_of_the_batch zero_image
           (start zero_classifier
              (optim_Adam (parameters zero_classifier) (4 / 1000)) keep_all)
           zero_classifier_wf zero_image_wf zero_image_size).
Defined.

(** X20.  Both inference cells take the first image of the batch and view
    it as (1, 784): on an empty batch (or a tensor without dimensions)
    [images[0]] raises an index error, and when an image does not hold 784
    elements the view raises, before the model is called. *)
Theorem inference_raises_on_bad_batches (images : Tensor)
  (ws : World Sequential SGD) (wc : World Classifier Adam) :
  Tensor_wf images ->
  (hd 0%nat (shape images) = 0%nat ->
   inference images wc = Err IndexError /\
   mnist_inference images ws = Err IndexError) /\
  (hd 0%nat (shape images) <> 0%nat ->
   numel (tl (shape images)) <> 784%nat ->
   inference images wc = Err ViewError /\
   mnist_inference images ws = Err ViewError).
Proof.
  intros Hwf. split.
  - intros H0.
    assert (E : select0 images = Err IndexError).
    { unfold select0. destruct (shape images) as [|b rest]; [reflexivity|].
      simpl in H0. subst b. reflexivity. }
    split.
    + unfold inference. rewrite (then_ok _ _ _ _ _ (model_eval_run wc)).
      apply then_err. unfold lift. rewrite E. reflexivity.
    + unfold mnist_inference. apply then_err. unfold lift. rewrite E.
      reflexivity.
  - intros Hb Hn.
    destruct (shape images) as [|b rest] eqn:Es; [simpl in Hb; congruence|].
    cbn [hd tl] in Hb, Hn.
    assert (E : select0 images
                = Ok (mkTensor rest (firstn (numel rest) (data images)))).
    { unfold select0. rewrite Es.
      destruct (Nat.eqb_spec b 0); [contradiction | reflexivity]. }
    assert (V : view_1_784 (mkTensor rest (firstn (numel rest) (data images)))
                = Err ViewError).
    { unfold view_1_784. cbn [data]. rewrite length_firstn.
      unfold Tensor_wf in Hwf. rewrite Hwf, Es.
      change (numel (b :: rest)) with (b * numel rest)%nat.
      destruct (Nat.eqb_spec (Nat.min (numel rest) (b * numel rest)) 784);
        [|reflexivity].
      exfalso. apply Hn. nia. }
    split.
    + unfold inference. rewrite (then_ok _ _ _ _ _ (model_eval_run wc)).
      unfold lift at 1. unfold then_ at 1. rewrite E.
      apply then_err. unfold lift. rewrite V. reflexivity.
    + unfold mnist_inference.
      unfold lift at 1. unfold then_ at 1. rewrite E.
      apply then_err. unfold lift. rewrite V. reflexivity.
Qed.

Lemma inference_raises_on_bad_batches_witness :
  (inference (mkTensor [0; 1; 28; 28]%nat [])
     (start zero_classifier
        (optim_Adam (parameters zero_classifier) (4 / 1000)) keep_all)
   = Err IndexError /\
   mnist_inference (mkTensor [0; 1; 28; 28]%nat [])
     (start zero_mnist (mkSGD (3 / 1000)) keep_all) = Err IndexError) /\
  (inference (mkTensor [2; 1; 1; 2]%nat [0; 0; 0; 0])
     (start zero_classifier
        (optim_Adam (parameters zero_classifier) (4 / 1000)) keep_all)
   = Err ViewError /\
   mnist_inference (mkTensor [2; 1; 1; 2]%nat [0; 0; 0; 0])
     (start zero_mnist (mkSGD (3 / 1000)) keep_all) = Err ViewError).
Proof.
  split.
  - apply (proj1 (inference_raises_on_bad_batches
                    (mkTensor [0; 1; 28; 28]%nat [])
                    (start zero_mnist (mkSGD (3 / 1000)) keep_all)
                    (start zero_classifier
                       (optim_Adam (parameters zero_classifier) (4 / 1000))
                       keep_all)
                    eq_refl)).
    reflexivity.
  - apply (proj2 (inference_raises_on_bad_batches
                    (mkTensor [2; 1; 1; 2]%nat [0; 0; 0; 0])
                    (start zero_mnist (mkSGD (3 / 1000)) keep_all)
                    (start zero_classifier
                       (optim_Adam (parameters zero_classifier) (4 / 1000))
                       keep_all)
                    eq_refl)).
    + simpl. lia.
    + simpl. lia.
Defined.

(** ** Flattening *)

Lemma concat_chunks (c b : nat) (l : list R) :
  (b * c)%nat = length l -> concat (chunks c b l) = l.
Proof.
  revert l. induction b as [|b IH]; intros l H; simpl in *.
  - destruct l; [reflexivity | discriminate].
  - rewrite IH; [apply firstn_skipn|]. rewrite length_skipn. lia.
Qed.

(** X21.  [x.view(x.shape[0], -1)] only regroups the elements: when it
    succeeds it returns as many rows as the first dimension says, all of
    one length, and the rows put end to end are the elements of [x] in
    their order. *)
Theorem view_keeps_the_elements (x : Tensor) (rows : Matrix) :
  view_batch x = Ok rows ->
  concat rows = data x /\ length rows = hd 0%nat (shape x) /\
  exists c, Forall (fun r => length r = c) rows /\
            length (data x) = (hd 0%nat (shape x) * c)%nat.
Proof.
  unfold view_batch. destruct (inferred_size x) as [c|] eqn:Hsz;
    [|discriminate].
  cbn [bind]. intros E. injection E as <-.
  destruct (inferred_size_inv x c Hsz) as [Hb Ld].
  split; [|split].
  - apply concat_chunks. symmetry. exact Ld.
  - apply chunks_length.
  - exists c. split; [|exact Ld]. apply chunks_rows. lia.
Qed.

Lemma view_keeps_the_elements_witness :
  concat [[1; 2]; [3; 4]] = data (mkTensor [2; 1; 2]%nat [1; 2; 3; 4]) /\
  length [[1; 2]; [3; 4]] = hd 0%nat (shape (mkTensor [2; 1; 2]%nat
    [1; 2; 3; 4]))
  /\
  exists c, Forall (fun r => length r = c) [[1; 2]; [3; 4]] /\
            length (data (mkTensor [2; 1; 2]%nat [1; 2; 3; 4]))
            = Nat.mul (hd 0%nat (shape (mkTensor [2; 1; 2]%nat [1; 2; 3; 4])))
                c.
Proof.
  apply (view_keeps_the_elements (mkTensor [2; 1; 2]%nat [1; 2; 3; 4])
           [[1; 2]; [3; 4]]).
  reflexivity.
Defined.

(** ** No gradients under [torch.no_grad()] *)

(** X22.  A forward pass and a loss computed under [torch.no_grad()], as
    in the validation loops, record no graph: the loss is the same number,
    but calling [backward] on it raises, so validation cannot reach the
    gradient buffers; and the gradient mode is back to what it was after
    the block. *)
Theorem no_backward_through_no_grad
  (autograd : Recorded Classifier Tensor -> list nat -> list (list R))
  (b : Batch) (w : World Classifier Adam) :
  Classifier_wf (model w) -> Batch_valid b ->
  exists loss w' l,
    no_grad (output <~ call_model plain_forward (fst b) ;;
             criterion output (snd b)) w = Ok (loss, w') /\
    batch_loss (model w) b l /\ item loss = l /\
    backward autograd loss w' = Err NoGradFn /\
    grad_enabled w' = grad_enabled w /\ model w' = model w.
Proof.
  intros Hm (Hsz & Hlen & Hlab).
  destruct (Classifier_forward_ok (model w) (fst b) Hm Hsz) as (out & Ef & So).
  destruct (NLLLoss_ok out (snd b) _ 10 So Hlen Hlab) as (l & El).
  eexists _, _, l. split.
  { unfold no_grad, then_ at 1, call_model, plain_forward. world_simpl.
    rewrite Ef. cbn [bind]. world_simpl.
    unfold criterion, then_, lift, emit, modify, ret. world_simpl.
    rewrite El. reflexivity. }
  world_simpl. split; [exists out; split; assumption|].
  repeat split.
Qed.

Lemma no_backward_through_no_grad_witness :
  exists loss w' l,
    no_grad (output <~ call_model plain_forward zero_image ;;
             criterion output [3%nat])
      (start zero_classifier
         (optim_Adam (parameters zero_classifier) (3 / 1000)) keep_all)
    = Ok (loss, w') /\
    batch_loss zero_classifier (zero_image, [3%nat]) l /\ item loss = l /\
    backward (constant_autograd 0) loss w' = Err NoGradFn /\
    grad_enabled w' = true /\ model w' = zero_classifier.
Proof.
  apply (no_backward_through_no_grad (constant_autograd 0)
           (zero_image, [3%nat])
           (start zero_classifier
              (optim_Adam (parameters zero_classifier) (3 / 1000)) keep_all)
           zero_classifier_wf zero_batch_valid).
Defined.

(** ** The figures the loops print *)

Section TrainBatchLoss.

Context {M O X : Type} {Mod : Module M} {Opt : Optimizer O}.

Variable wfM : M -> Prop.
Variable wfO : O -> list nat -> Prop.
Variable forward : M -> Generator -> X -> result (Matrix * Generator).
Variable autograd : Recorded M X -> list nat -> list (list R).

Hypothesis load_ok : forall m ps,
  wfM m -> Forall2 same_shape (parameters m) ps ->
  wfM (load_parameters m ps) /\ parameters (load_parameters m ps) = ps.
Hypothesis params_ok : forall m, wfM m -> Forall Param_wf (parameters m).
Hypothesis opt_ok : forall o ps,
  Forall Param_wf ps -> wfO o (sizes ps) ->
  Forall2 same_shape ps (fst (optimizer_update o ps)) /\
  wfO (snd (optimizer_update o ps)) (sizes ps).
Hypothesis autograd_ok : autograd_wf autograd.

(** The loss of a training batch is positive, so the running loss grows. *)
Lemma train_batch_adds_a_positive_loss (images : X) (labels : list nat)
  (b : nat) (w : World M O) :
  World_ok wfM wfO w -> grad_enabled w = true ->
  (forall m g, wfM m ->
     exists z g', forward m g images = Ok (log_softmax z, g') /\
                  has_shape z b 10) ->
  (1 <= b)%nat -> length labels = b ->
  Forall (fun y => (y < 10)%nat) labels ->
  exists w',
    train_batch forward autograd images labels w = Ok (tt, w') /\
    World_ok wfM wfO w' /\ grad_enabled w' = true /\
    stdout w' = stdout w /\ running_loss w < running_loss w'.
Proof.
  intros Hw Hg Hf Hb Hlen Hlab.
  destruct (train_batch_spec wfM wfO forward autograd load_ok params_ok
              opt_ok autograd_ok images labels b w Hw Hg)
    as (w' & out & l & E & Hw' & Ef & El & _ & Hg' & Er & _ & _ & Es & _);
    try assumption.
  { intros m g Hm. destruct (Hf m g Hm) as (z & g' & Ez & Sz).
    exists (log_softmax z), g'. split; [exact Ez|].
    apply log_softmax_shape. exact Sz. }
  exists w'. repeat split; try assumption; try apply Hw'.
  destruct Hw as [Hm _].
  destruct (load_ok (model w) (map zero_grad_param (parameters (model w)))
              Hm (zero_grad_shapes _ (params_ok _ Hm))) as [Hz _].
  destruct (Hf _ (generator w) Hz) as (z & g' & Ez & Sz).
  unfold update_parameters in Ef. rewrite Ez in Ef. injection Ef as <- _.
  destruct (NLLLoss_positive z labels b 10 Sz ltac:(lia) Hb Hlen Hlab)
    as [_ (l' & El' & Hl')].
  rewrite El in El'. injection El' as <-. lra.
Qed.

End TrainBatchLoss.

Section LossLoop.

Context {M O : Type}.

Variable Inv : World M O -> Prop.
Variable body : Batch -> Run (World M O) unit.

Hypothesis body_ok : forall b w,
  Batch_valid b -> Inv w ->
  exists w', body b w = Ok (tt, w') /\ Inv w' /\
             stdout w' = stdout w /\ running_loss w < running_loss w'.

Lemma loss_loop_spec (batches : list Batch) (w : World M O) :
  Forall Batch_valid batches -> batches <> [] -> Inv w ->
  exists w',
    for_each batches body w = Ok (tt, w') /\ Inv w' /\
    stdout w' = stdout w /\ running_loss w < running_loss w'.
Proof.
  intros Hvalid Hne Hw.
  pose (I := fun (done : list Batch) (w1 : World M O) =>
    Inv w1 /\ stdout w1 = stdout w /\ running_loss w <= running_loss w1 /\
    (done <> [] -> running_loss w < running_loss w1)).
  destruct (for_each_ind I body batches) with (w := w)
    as (w' & E & H1 & H2 & _ & H4).
  - intros done b w1 Hin (H1 & H2 & H3 & _).
    rewrite Forall_forall in Hvalid.
    destruct (body_ok b w1 (Hvalid b Hin) H1) as (w2 & E2 & I2 & S2 & R2).
    exists w2. split; [exact E2|]. split; [exact I2|].
    split; [congruence|]. split; [lra|]. intros _. lra.
  - split; [exact Hw|]. split; [reflexivity|]. split; [lra|]. congruence.
  - exists w'. split; [exact E|]. split; [exact H1|]. split; [exact H2|].
    apply H4. exact Hne.
Qed.

End LossLoop.

Section ReportLoop.

Context {M O : Type}.

Variable Inv : World M O -> Prop.
Variable epoch_body : nat -> Run (World M O) unit.

Hypothesis epoch_ok : forall e w,
  Inv w ->
  exists w' line, epoch_body e w = Ok (tt, w') /\ Inv w' /\
                  stdout w' = stdout w ++ [line] /\ Line_in_range line.

Lemma report_loop_spec (epochs : nat) (w : World M O) :
  Inv w -> Forall Line_in_range (stdout w) ->
  exists w',
    for_each (seq 0 epochs) epoch_body w = Ok (tt, w') /\
    length (stdout w') = (length (stdout w) + epochs)%nat /\
    Forall Line_in_range (stdout w').
Proof.
  intros Hw Hs.
  pose (I := fun (done : list nat) (w1 : World M O) =>
    Inv w1 /\ length (stdout w1) = (length (stdout w) + length done)%nat /\
    Forall Line_in_range (stdout w1)).
  destruct (for_each_ind I epoch_body (seq 0 epochs)) with (w := w)
    as (w' & E & _ & H2 & H3).
  - intros done e w1 _ (H1 & H2 & H3).
    destruct (epoch_ok e w1 H1) as (w2 & line & E2 & I2 & S2 & L2).
    exists w2. split; [exact E2|]. split; [exact I2|]. split.
    + rewrite S2, !length_app, H2. simpl. lia.
    + rewrite S2. apply Forall_app. split; [exact H3|].
      constructor; [exact L2 | constructor].
  - split; [exact Hw|]. split; [simpl; lia | exact Hs].
  - exists w'. split; [exact E|]. rewrite length_seq in H2.
    split; assumption.
Qed.

End ReportLoop.

Lemma batch_loss_positive (m : Classifier) (b : Batch) (l : R) :
  Classifier_wf m -> Batch_valid b -> batch_loss m b l -> 0 < l.
Proof.
  intros Hm (Hsz & Hlen & Hlab) (log_ps & Ef & El).
  destruct (Classifier_logits_ok m (fst b) Hm Hsz) as (z & Ez & Sz).
  rewrite Classifier_forward_logits, Ez in Ef. cbn [bind] in Ef.
  injection Ef as <-.
  destruct (inferred_size_inv _ _ Hsz) as [Hb _].
  destruct (NLLLoss_positive z (snd b) _ 10 Sz ltac:(lia) ltac:(lia) Hlen Hlab)
    as [_ (l' & El' & Hl')].
  rewrite El in El'. injection El' as <-. exact Hl'.
Qed.

Lemma batch_fraction_in_range {Tk : Topk} (m : Classifier) (b : Batch) (a : R) :
  Batch_valid b -> batch_fraction_correct m b a -> 0 <= a <= 1.
Proof.
  intros (Hsz & Hlen & _) (log_ps & _ & -> & _).
  destruct (inferred_size_inv _ _ Hsz) as [Hb _].
  assert (Hc : (correct_rows log_ps (snd b) <= length (snd b))%nat).
  { unfold correct_rows.
    etransitivity; [apply filter_length_le|].
    rewrite length_combine. lia. }
  assert (Hn : 0 < INR (length (snd b))) by (apply lt_0_INR; lia).
  pose proof (pos_INR (correct_rows log_ps (snd b))) as H0.
  pose proof (le_INR _ _ Hc) as H1.
  split.
  - apply Rmult_le_pos; [exact H0|]. left. apply Rinv_0_lt_compat. exact Hn.
  - apply (Rmult_le_reg_r (INR (length (snd b)))); [exact Hn|].
    unfold Rdiv. rewrite Rmult_assoc, Rinv_l by lra. lra.
Qed.

Lemma Forall2_Forall_r {A B : Type} (P : A -> B -> Prop) (Q : B -> Prop)
  (l : list A) (l' : list B) :
  Forall2 P l l' -> Forall (fun a => forall b, P a b -> Q b) l -> Forall Q l'.
Proof.
  induction 1 as [|a b l l' Hab _ IH]; intros H; [constructor|].
  inversion H as [|? ? Ha Hl]; subst. constructor; [apply Ha; exact Hab|].
  apply IH. exact Hl.
Qed.

Lemma sum_list_in_unit_range (l : list R) :
  Forall (fun a => 0 <= a <= 1) l -> 0 <= sum_list l <= INR (length l).
Proof.
  induction 1 as [|a l Ha _ IH].
  - simpl. lra.
  - change (length (a :: l)) with (S (length l)). rewrite S_INR. simpl. lra.
Qed.

(** The figures of the report of a validation pass. *)
Lemma validation_figures {Tk : Topk} (m : Classifier) (batches : list Batch)
  (accs losses : list R) (n : nat) :
  Classifier_wf m -> Forall Batch_valid batches -> length batches = n ->
  n <> 0%nat ->
  Forall2 (batch_fraction_correct m) batches accs ->
  Forall2 (batch_loss m) batches losses ->
  0 < sum_list losses / INR n /\ 0 <= sum_list accs / INR n <= 1.
Proof.
  intros Hm Hv Hlen Hn Fa Fl.
  assert (HN : 0 < INR n) by (apply lt_0_INR; lia).
  assert (Pl : Forall (fun l => 0 < l) losses).
  { apply (Forall2_Forall_r _ _ _ _ Fl). revert Hv. apply Forall_impl.
    intros b Hb l Hl. apply (batch_loss_positive m b l Hm Hb Hl). }
  assert (Pa : Forall (fun a => 0 <= a <= 1) accs).
  { apply (Forall2_Forall_r _ _ _ _ Fa). revert Hv. apply Forall_impl.
    intros b Hb a Ha. apply (batch_fraction_in_range m b a Hb Ha). }
  split.
  - apply Rdiv_lt_0_compat; [|exact HN]. apply sum_list_positive; [exact Pl|].
    intros ->. apply Forall2_length in Fl. rewrite Hlen in Fl. simpl in Fl.
    lia.
  - pose proof (sum_list_in_unit_range accs Pa) as [H0 H1].
    rewrite <- (Forall2_length Fa), Hlen in H1. split.
    + apply Rmult_le_pos; [exact H0|]. left. apply Rinv_0_lt_compat. exact HN.
    + apply (Rmult_le_reg_r (INR n)); [exact HN|].
      unfold Rdiv. rewrite Rmult_assoc, Rinv_l by lra. lra.
Qed.

Lemma plain_forward_log_softmax (m : Classifier) (g : Generator) (x : Tensor) :
  Classifier_wf m -> inferred_size x = Ok 784%nat ->
  exists z g', plain_forward m g x = Ok (log_softmax z, g') /\
               has_shape z (hd 0%nat (shape x)) 10.
Proof.
  intros Hm Hx. destruct (Classifier_logits_ok m x Hm Hx) as (z & Ez & Sz).
  exists z, g. unfold plain_forward.
  rewrite Classifier_forward_logits, Ez. split; [reflexivity | exact Sz].
Qed.

Lemma dropout_forward_log_softmax (m : Classifier) (g : Generator)
  (x : Tensor) :
  Classifier_wf m -> inferred_size x = Ok 784%nat ->
  exists z g', Classifier_forward_dropout m g x = Ok (log_softmax z, g') /\
               has_shape z (hd 0%nat (shape x)) 10.
Proof.
  intros Hm Hx.
  destruct (Classifier_forward_dropout_ok m g x Hm Hx)
    as (h & z & _ & _ & Sz & E).
  exists z. eexists. split; [exact E | exact Sz].
Qed.

Lemma mnist_forward_log_softmax (m : Sequential) (g : Generator) (x : Matrix)
  (b : nat) :
  mnist_model_wf m -> has_shape x b 784 ->
  exists z g', mnist_forward m g x = Ok (log_softmax z, g') /\
               has_shape z b 10.
Proof.
  intros (l0 & l2 & l4 & -> & H0 & H2 & H4) Sx.
  destruct (mnist_logits_ok l0 l2 l4 x b H0 H2 H4 Sx) as (z & Ez & Sz).
  exists z, g. unfold mnist_forward.
  rewrite Sequential_forward_logits, Ez. split; [reflexivity | exact Sz].
Qed.

Lemma Classifier_train_batch_loss
  (autograd : Recorded Classifier Tensor -> list nat -> list (list R))
  (forward : Classifier -> Generator -> Tensor -> result (Matrix * Generator))
  (b : Batch) (w : World Classifier Adam) :
  autograd_wf autograd ->
  (forall m g x, Classifier_wf m -> inferred_size x = Ok 784%nat ->
     exists z g', forward m g x = Ok (log_softmax z, g') /\
                  has_shape z (hd 0%nat (shape x)) 10) ->
  Batch_valid b -> Classifier_world_ok w ->
  exists w',
    train_batch forward autograd (fst b) (snd b) w = Ok (tt, w') /\
    Classifier_world_ok w' /\
    stdout w' = stdout w /\ running_loss w < running_loss w'.
Proof.
  intros Hag Hf (Hsz & Hlen & Hlab) [Hw Hg].
  destruct (inferred_size_inv _ _ Hsz) as [Hb _].
  destruct (train_batch_adds_a_positive_loss Classifier_wf Adam_wf forward
              autograd Classifier_load_ok Classifier_params_wf Adam_step_spec
              Hag (fst b) (snd b) (hd 0%nat (shape (fst b))) w Hw Hg)
    as (w' & E & Hw' & Hg' & Es & Er); try assumption; try lia.
  { intros m g Hm. apply Hf; assumption. }
  exists w'. split; [exact E|]. split; [split; assumption|].
  split; assumption.
Qed.

Lemma mnist_batch_loss
  (autograd : Recorded Sequential Matrix -> list nat -> list (list R))
  (b : Batch) (w : World Sequential SGD) :
  autograd_wf autograd -> Batch_valid b -> mnist_world_ok w ->
  exists w',
    mnist_batch autograd b w = Ok (tt, w') /\ mnist_world_ok w' /\
    stdout w' = stdout w /\ running_loss w < running_loss w'.
Proof.
  intros Hag (Hsz & Hlen & Hlab) [Hw Hg].
  destruct (inferred_size_inv _ _ Hsz) as [Hb _].
  destruct (view_batch_ok (fst b) _ Hsz) as (images & Ev & Si).
  destruct (train_batch_adds_a_positive_loss mnist_model_wf (fun _ _ => True)
              mnist_forward autograd mnist_load_ok mnist_params_wf SGD_step_ok
              Hag images (snd b) (hd 0%nat (shape (fst b))) w Hw Hg)
    as (w' & E & Hw' & Hg' & Es & Er); try assumption; try lia.
  { intros m g Hm. apply mnist_forward_log_softmax; assumption. }
  exists w'. split.
  { unfold mnist_batch, then_ at 1. unfold lift. rewrite Ev. exact E. }
  split; [split; assumption|]. split; assumption.
Qed.

Lemma nonempty_iteration (d : DataLoader) (k : nat) :
  DataLoader_valid d -> iterate d k <> [].
Proof.
  intros (Hwf & Hn & _) H. specialize (Hwf k). rewrite H in Hwf.
  simpl in Hwf. congruence.
Qed.

Lemma mnist_epoch_report
  (autograd : Recorded Sequential Matrix -> list nat -> list (list R))
  (trainloader : DataLoader) (e : nat) (w : World Sequential SGD) :
  autograd_wf autograd -> DataLoader_valid trainloader -> mnist_world_ok w ->
  exists w' line,
    (modify (set_running_loss 0) >>
     for_each (iterate trainloader e) (mnist_batch autograd) >>
     w <~ gets (fun w => w) ;;
     a <~ lift (py_div (running_loss w) (num_batches trainloader)) ;;
     print e (TrainingLoss a)) w = Ok (tt, w') /\
    mnist_world_ok w' /\ stdout w' = stdout w ++ [line] /\
    Line_in_range line.
Proof.
  intros Hag Htr Hw. pose proof Htr as (Ltr & Ntr & Vtr).
  destruct (loss_loop_spec mnist_world_ok (mnist_batch autograd)
              (fun b w0 Hb Hw0 => mnist_batch_loss autograd b w0 Hag Hb Hw0)
              (iterate trainloader e) (set_running_loss 0 w) (Vtr e)
              (nonempty_iteration _ e Htr))
    as (w1 & E1 & Hw1 & S1 & R1).
  { exact Hw. }
  cbn [running_loss set_running_loss] in R1.
  eexists. exists (TrainingLoss (running_loss w1 / INR (num_batches
    trainloader))).
  split.
  { unfold then_ at 1 2. unfold modify at 1. rewrite E1.
    unfold print, emit, then_, gets, lift, modify.
    rewrite py_div_ok by exact Ntr. reflexivity. }
  world_simpl. split; [exact Hw1|]. split.
  - rewrite S1. reflexivity.
  - simpl. apply Rdiv_lt_0_compat; [exact R1|]. apply lt_0_INR. lia.
Qed.

Lemma train_validate_epoch_report {Tk : Topk}
  (autograd : Recorded Classifier Tensor -> list nat -> list (list R))
  (trainloader testloader : DataLoader) (epochs e : nat)
  (w : World Classifier Adam) :
  autograd_wf autograd -> DataLoader_valid trainloader ->
  DataLoader_valid testloader -> Classifier_world_ok w ->
  exists w' line,
    (modify (set_running_loss 0) >>
     for_each (iterate trainloader e) (fun b =>
       train_batch plain_forward autograd (fst b) (snd b)) >>
     evaluate e epochs trainloader testloader) w = Ok (tt, w') /\
    Classifier_world_ok w' /\ stdout w' = stdout w ++ [line] /\
    Line_in_range line.
Proof.
  intros Hag Htr Hte Hw.
  pose proof Htr as (Ltr & Ntr & Vtr). pose proof Hte as (Lte & Nte & Vte).
  destruct (loss_loop_spec Classifier_world_ok
              (fun b => train_batch plain_forward autograd (fst b) (snd b))
              (fun b w0 Hb Hw0 =>
                 Classifier_train_batch_loss autograd plain_forward b w0 Hag
                   plain_forward_log_softmax Hb Hw0)
              (iterate trainloader e) (set_running_loss 0 w) (Vtr e)
              (nonempty_iteration _ e Htr))
    as (w1 & E1 & [[Hm1 Ho1] Hg1] & S1 & R1).
  { exact Hw. }
  cbn [running_loss set_running_loss] in R1.
  destruct (evaluate_spec e epochs trainloader testloader w1 Hm1 (Vte e)
              Ntr Nte)
    as (w2 & accs & losses & E2 & Em & Eo & _ & Eg & _ & _ & _ & Fa & Fl
        & S2 & _).
  destruct (validation_figures (model w1) (iterate testloader e) accs losses
              (num_batches testloader) Hm1 (Vte e) (Lte e) Nte Fa Fl)
    as [Pl Pa].
  exists w2. eexists. split.
  { unfold then_ at 1 2. unfold modify at 1. rewrite E1. exact E2. }
  split; [|split].
  - unfold Classifier_world_ok, World_ok. rewrite Em, Eo, Eg. tauto.
  - rewrite S2, S1. reflexivity.
  - simpl. split; [|split; assumption].
    apply Rdiv_lt_0_compat; [exact R1|]. apply lt_0_INR. lia.
Qed.

Lemma train_validate_dropout_epoch_report {Tk : Topk}
  (autograd : Recorded Classifier Tensor -> list nat -> list (list R))
  (trainloader testloader : DataLoader) (epochs e : nat)
  (w : World Classifier Adam) :
  autograd_wf autograd -> DataLoader_valid trainloader ->
  DataLoader_valid testloader -> Classifier_world_ok w ->
  exists w' line,
    (modify (set_running_loss 0) >>
     for_each (iterate trainloader e) (fun b =>
       train_batch Classifier_forward_dropout autograd (fst b) (snd b)) >>
     evaluate_dropout e epochs trainloader testloader >>
     model_train) w = Ok (tt, w') /\
    Classifier_world_ok w' /\ stdout w' = stdout w ++ [line] /\
    Line_in_range line.
Proof.
  intros Hag Htr Hte Hw.
  pose proof Htr as (Ltr & Ntr & Vtr). pose proof Hte as (Lte & Nte & Vte).
  destruct (loss_loop_spec Classifier_world_ok
              (fun b => train_batch Classifier_forward_dropout autograd
                          (fst b) (snd b))
              (fun b w0 Hb Hw0 =>
                 Classifier_train_batch_loss autograd
                   Classifier_forward_dropout b w0 Hag
                   dropout_forward_log_softmax Hb Hw0)
              (iterate trainloader e) (set_running_loss 0 w) (Vtr e)
              (nonempty_iteration _ e Htr))
    as (w1 & E1 & [[Hm1 Ho1] Hg1] & S1 & R1).
  { exact Hw. }
  cbn [running_loss set_running_loss] in R1.
  destruct (evaluate_dropout_spec e epochs trainloader testloader w1 Hm1
              (Vte e) Ntr Nte)
    as (w2 & accs & losses & E2 & Em & Eo & _ & Eg & _ & _ & _ & Fa & Fl
        & S2 & _).
  destruct (validation_figures (model w1) (iterate testloader e) accs losses
              (num_batches testloader) Hm1 (Vte e) (Lte e) Nte Fa Fl)
    as [Pl Pa].
  eexists. eexists. split.
  { unfold then_ at 1 2 3. unfold modify at 1. rewrite E1, E2.
    unfold model_train, emit, then_, modify. reflexivity. }
  world_simpl. split; [|split].
  - unfold Classifier_world_ok, World_ok. world_simpl.
    rewrite Em, Eo, Eg. tauto.
  - rewrite S2, S1. reflexivity.
  - simpl. split; [|split; assumption].
    apply Rdiv_lt_0_compat; [exact R1|]. apply lt_0_INR. lia.
Qed.

(** X23.  Every figure the three loops print is in range: a training loss
    and a test loss are strictly positive, being means of positive batch
    losses over a positive number of batches, and a test accuracy lies
    between 0 and 1; each loop prints one line per epoch. *)
Theorem printed_figures_are_in_range {Tk : Topk}
  (autograd_s : Recorded Sequential Matrix -> list nat -> list (list R))
  (autograd_c : Recorded Classifier Tensor -> list nat -> list (list R))
  (s : Sequential) (m : Classifier) (g : Generator) (lr : R)
  (trainloader testloader : DataLoader) (epochs : nat) :
  autograd_wf autograd_s -> autograd_wf autograd_c ->
  mnist_model_wf s -> Classifier_wf m ->
  DataLoader_valid trainloader -> DataLoader_valid testloader ->
  (exists w,
     train_mnist autograd_s epochs trainloader (start s (mkSGD lr) g)
     = Ok (tt, w) /\
     length (stdout w) = epochs /\ Forall Line_in_range (stdout w)) /\
  (exists w,
     train_validate autograd_c epochs trainloader testloader
       (start m (optim_Adam (parameters m) lr) g) = Ok (tt, w) /\
     length (stdout w) = epochs /\ Forall Line_in_range (stdout w)) /\
  (exists w,
     train_validate_dropout autograd_c epochs trainloader testloader
       (start m (optim_Adam (parameters m) lr) g) = Ok (tt, w) /\
     length (stdout w) = epochs /\ Forall Line_in_range (stdout w)).
Proof.
  intros Has Hac Hs Hm Htr Hte. split; [|split].
  - destruct (report_loop_spec mnist_world_ok _
                (fun e w Hw =>
                   mnist_epoch_report autograd_s trainloader e w Has Htr Hw)
                epochs (start s (mkSGD lr) g) (start_mnist_ok s lr g Hs)
                (Forall_nil _))
      as (w & E & L & F).
    exists w. split; [exact E|]. split; [exact L | exact F].
  - destruct (report_loop_spec Classifier_world_ok _
                (fun e w Hw =>
                   train_validate_epoch_report autograd_c trainloader
                     testloader epochs e w Hac Htr Hte Hw)
                epochs (start m (optim_Adam (parameters m) lr) g)
                (start_Classifier_ok m lr g Hm) (Forall_nil _))
      as (w & E & L & F).
    exists w. split; [exact E|]. split; [exact L | exact F].
  - destruct (report_loop_spec Classifier_world_ok _
                (fun e w Hw =>
                   train_validate_dropout_epoch_report autograd_c trainloader
                     testloader epochs e w Hac Htr Hte Hw)
                epochs (start m (optim_Adam (parameters m) lr) g)
                (start_Classifier_ok m lr g Hm) (Forall_nil _))
      as (w & E & L & F).
    exists w. split; [exact E|]. split; [exact L | exact F].
Qed.

Lemma printed_figures_are_in_range_witness :
  exists w,
    run_validate (Tk := first_argmax_Topk) (constant_autograd 0) zero_classifier
      keep_all zero_loader
      zero_loader = Ok (tt, w) /\
    length (stdout w) = 30%nat /\ Forall Line_in_range (stdout w).
Proof.
  apply (printed_figures_are_in_range (Tk := first_argmax_Topk)
    (constant_autograd 0)
           (constant_autograd 0) zero_mnist zero_classifier keep_all (3 / 1000)
           zero_loader zero_loader 30
           (constant_autograd_wf 0) (constant_autograd_wf 0)
           zero_mnist_wf zero_classifier_wf zero_loader_valid
           zero_loader_valid).
Defined.
